(** * ISIIS data processing: a shallow embedding of the scripts and the
    properties of their specification.

    The repository is a set of stand-alone Python scripts.  Each script is
    embedded below as Rocq functions that follow the Python text line by
    line; the library calls they make (numpy, pandas, os.path, cv2, ffmpeg)
    are embedded by their documented behaviour on the data the scripts give
    them.  Part I holds the definitions, Part II the lemmas and theorems. *)

From Stdlib Require Import ZArith QArith Ascii String List Lia Bool.
From stdpp Require Import base option list gmap strings fin_maps.

Set Default Proof Using "Type".
Local Open Scope Z_scope.

(* ===================================================================== *)
(** * Part I: definitions                                                  *)
(* ===================================================================== *)

(** ** Python exceptions and results *)

(** The exceptions that the embedded code can raise. *)
Inductive exn : Type :=
  | NameError          (* includes UnboundLocalError, its subclass *)
  | KeyError
  | ValueError
  | IndexError
  | TypeError
  | ZeroDivisionError
  | OverflowError
  | FileNotFoundError
  | FfmpegError.

Global Instance exn_eq_dec : EqDecision exn.
Proof. solve_decision. Defined.

(** A computation either returns a value or raises. *)
Inductive result (A : Type) : Type :=
  | Ok (a : A)
  | Raise (e : exn).
Arguments Ok {A} a.
Arguments Raise {A} e.

Definition bind {A B : Type} (m : result A) (k : A -> result B) : result B :=
  match m with
  | Ok a => k a
  | Raise e => Raise e
  end.

Notation "'let*' x ':=' m 'in' k" := (bind m (fun x => k))
  (at level 10, x name, m at level 100, k at level 200).

(** [for x in l: f x], collecting the values, stopping at the first raise. *)
Fixpoint mapM {A B : Type} (f : A -> result B) (l : list A) : result (list B) :=
  match l with
  | [] => Ok []
  | x :: l' => let* y := f x in let* ys := mapM f l' in Ok (y :: ys)
  end.

(** ** Floating-point cells *)

(** A Python float: a finite value (every finite double is a rational),
    an infinity or NaN. *)
Inductive pyfloat : Type :=
  | Finite (q : Q)
  | PosInf
  | NegInf
  | FNaN.

(** [x > 0] on floats; false on NaN. *)
Definition float_gt_zero (x : pyfloat) : bool :=
  match x with
  | Finite q => negb (Qle_bool q 0)
  | PosInf => true
  | NegInf | FNaN => false
  end.


(** ** Python strings *)

(** Characters are 8-bit code points (ASCII and Latin-1), which covers the
    file names and log lines the scripts handle. *)
Module PyStr.

(** [len(s)] *)
Abbreviation len := String.length.

(** [s[n:]] for [0 <= n] *)
Fixpoint sdrop (n : nat) (s : string) : string :=
  match n, s with
  | O, _ => s
  | S n', String _ r => sdrop n' r
  | S _, EmptyString => EmptyString
  end.

(** [s[:n]] for [0 <= n] *)
Fixpoint stake (n : nat) (s : string) : string :=
  match n, s with
  | S n', String c r => String c (stake n' r)
  | _, _ => EmptyString
  end.

(** [s[-n:]] for [0 < n]: the last [n] characters, the whole string when
    it is shorter. *)
Definition slice_last (n : nat) (s : string) : string :=
  sdrop (len s - n) s.

(** [s.startswith(pre)] *)
Definition startswith (s pre : string) : bool := String.prefix pre s.

(** [s.endswith(suf)] *)
Definition endswith (s suf : string) : bool :=
  (len suf <=? len s)%nat && String.eqb (slice_last (len suf) s) suf.

(** [s.endswith((suf1, suf2, ...))] *)
Definition endswith_any (s : string) (sufs : list string) : bool :=
  existsb (endswith s) sufs.

(** [c.lower()] on one character. *)
Definition lower_char (c : ascii) : ascii :=
  let n := nat_of_ascii c in
  if ((65 <=? n) && (n <=? 90))%nat then ascii_of_nat (n + 32)
  else if ((192 <=? n) && (n <=? 222) && negb (n =? 215))%nat
       then ascii_of_nat (n + 32)
  else c.

(** [s.lower()] *)
Fixpoint lower (s : string) : string :=
  match s with
  | EmptyString => EmptyString
  | String c r => String (lower_char c) (lower r)
  end.

(** [c.isspace()] *)
Definition is_space (c : ascii) : bool :=
  let n := nat_of_ascii c in
  ((9 <=? n) && (n <=? 13) || (28 <=? n) && (n <=? 32)
   || (n =? 133) || (n =? 160))%nat.

(** [s.lstrip()] *)
Fixpoint lstrip (s : string) : string :=
  match s with
  | EmptyString => EmptyString
  | String c r => if is_space c then lstrip r else s
  end.

(** [s.rstrip()] *)
Fixpoint rstrip (s : string) : string :=
  match s with
  | EmptyString => EmptyString
  | String c r =>
      match rstrip r with
      | EmptyString => if is_space c then EmptyString else String c EmptyString
      | r' => String c r'
      end
  end.

(** [s.strip()] *)
Definition strip (s : string) : string := rstrip (lstrip s).

(** [s.rstrip(c)] for a one-character argument. *)
Fixpoint rstrip_char (c : ascii) (s : string) : string :=
  match s with
  | EmptyString => EmptyString
  | String a r =>
      match rstrip_char c r with
      | EmptyString => if Ascii.eqb a c then EmptyString else String a EmptyString
      | r' => String a r'
      end
  end.

(** [s == c * len(s)] *)
Fixpoint all_char (c : ascii) (s : string) : bool :=
  match s with
  | EmptyString => true
  | String a r => Ascii.eqb a c && all_char c r
  end.

(** [c in s] *)
Fixpoint contains (c : ascii) (s : string) : bool :=
  match s with
  | EmptyString => false
  | String a r => Ascii.eqb a c || contains c r
  end.

(** [s.rfind(c)]: the index of the last occurrence of [c], [-1] when there
    is none. *)
Fixpoint rfind (c : ascii) (s : string) : Z :=
  match s with
  | EmptyString => -1
  | String a r =>
      let k := rfind c r in
      if 0 <=? k then k + 1
      else if Ascii.eqb a c then 0 else -1
  end.

(** [s.replace(old, new)] for one-character arguments. *)
Fixpoint replace_char (old new : ascii) (s : string) : string :=
  match s with
  | EmptyString => EmptyString
  | String a r =>
      String (if Ascii.eqb a old then new else a) (replace_char old new r)
  end.

(** [s.split(sep)] for a non-empty separator: the pieces between the
    non-overlapping occurrences of [sep], found from the left.  [skip]
    counts the characters of a separator that has just been recognised and
    [cur] is the current piece. *)
Fixpoint split_go (sep : string) (skip : nat) (cur : string) (s : string)
  : list string :=
  match s with
  | EmptyString => [cur]
  | String c r =>
      match skip with
      | S k => split_go sep k cur r
      | O =>
          if String.prefix sep s
          then cur :: split_go sep (len sep - 1) EmptyString r
          else split_go sep O (cur ++ String c EmptyString) r
      end
  end.

Definition split (sep s : string) : list string := split_go sep 0 EmptyString s.

(** [s.split()]: the maximal runs of non-whitespace characters. *)
Fixpoint words_go (cur : string) (s : string) : list string :=
  match s with
  | EmptyString => match cur with EmptyString => [] | _ => [cur] end
  | String c r =>
      if is_space c
      then match cur with
           | EmptyString => words_go EmptyString r
           | _ => cur :: words_go EmptyString r
           end
      else words_go (cur ++ String c EmptyString) r
  end.

Definition split_ws (s : string) : list string := words_go EmptyString s.

(** [s.zfill(width)] *)
Fixpoint zeros (n : nat) : string :=
  match n with
  | O => EmptyString
  | S n' => String "0" (zeros n')
  end.

Definition zfill (width : nat) (s : string) : string :=
  if (width <=? len s)%nat then s
  else match s with
       | String c r =>
           if Ascii.eqb c "+" || Ascii.eqb c "-"
           then String c (zeros (width - len s) ++ r)
           else zeros (width - len s) ++ s
       | EmptyString => zeros width
       end.

(** [str(n)] for a natural number. *)
Definition digit (d : nat) : ascii := ascii_of_nat (48 + d).

Fixpoint str_of_nat_go (fuel n : nat) (acc : string) : string :=
  match fuel with
  | O => acc
  | S fuel' =>
      let acc' := String (digit (n mod 10)) acc in
      if (n <? 10)%nat then acc' else str_of_nat_go fuel' (n / 10) acc'
  end.

Definition str_of_nat (n : nat) : string := str_of_nat_go (S n) n EmptyString.

End PyStr.

(** ** os.path (posixpath) *)

Module PosixPath.
Import PyStr.

Definition sep : ascii := "/"%char.

(** [os.path.basename(p)]: [i = p.rfind('/') + 1; return p[i:]] *)
Definition basename (p : string) : string :=
  let i := rfind sep p + 1 in
  sdrop (Z.to_nat i) p.

(** [os.path.dirname(p)]: the head [p[:i]], without its trailing slashes
    unless it consists of slashes only. *)
Definition dirname (p : string) : string :=
  let i := rfind sep p + 1 in
  let head := stake (Z.to_nat i) p in
  if negb (String.eqb head EmptyString) && negb (all_char sep head)
  then rstrip_char sep head
  else head.

(** [os.path.join(a, b)] *)
Definition join (a b : string) : string :=
  if startswith b (String sep EmptyString) then b
  else if String.eqb a EmptyString || endswith a (String sep EmptyString)
       then a +:+ b
  else a +:+ String sep b.

(** The scan of [genericpath._splitext] over the leading dots of the file
    name: [true] as soon as a character other than ['.'] is met between
    [filenameIndex] and [dotIndex]. *)
Fixpoint has_non_dot (count : nat) (s : string) : bool :=
  match count, s with
  | S k, String c r => if Ascii.eqb c "." then has_non_dot k r else true
  | _, _ => false
  end.

(** [os.path.splitext(p)] *)
Definition splitext (p : string) : string * string :=
  let sepIndex := rfind sep p in
  let dotIndex := rfind "."%char p in
  if (sepIndex <? dotIndex)
     && has_non_dot (Z.to_nat (dotIndex - (sepIndex + 1)))
                    (sdrop (Z.to_nat (sepIndex + 1)) p)
  then (stake (Z.to_nat dotIndex) p, sdrop (Z.to_nat dotIndex) p)
  else (p, EmptyString).

End PosixPath.

Import PyStr PosixPath.

(** ** pandas Timestamps and numpy datetime64 arrays *)

(** A [pd.Timestamp]: the instant in nanoseconds since the epoch (UTC) and
    the attached time zone, if any; or [NaT], what [pd.to_datetime(...,
    errors='coerce')] gives for a value that does not parse. *)
Inductive Timestamp : Type :=
  | NaT
  | Instant (ns : Z) (tz : option string).

Global Instance Timestamp_eq_dec : EqDecision Timestamp.
Proof. solve_decision. Defined.

(** A DataFrame cell: a string (object column), a float or a timestamp; a
    missing value is the float NaN ([np.nan]). *)
Inductive cell : Type :=
  | Str (s : string)
  | Float (x : pyfloat)
  | Time (t : Timestamp).

Definition NaN : cell := Float FNaN.

Definition tzinfo (x : Timestamp) : option string :=
  match x with
  | Instant _ tz => tz
  | NaT => None
  end.

(** [pytz.utc.localize(x)]: attaches UTC to a naive timestamp, whose
    instant is then read as UTC. *)
Definition utc_localize (x : Timestamp) : Timestamp :=
  match x with
  | Instant ns _ => Instant ns (Some "UTC")
  | NaT => NaT
  end.

(** [lambda x: x if x.tzinfo else pytz.utc.localize(x)] *)
Definition ensure_utc (x : Timestamp) : Timestamp :=
  match tzinfo x with
  | Some _ => x
  | None => utc_localize x
  end.

Definition Timestamp_min : Z := - 2 ^ 63 + 1.
Definition Timestamp_max : Z := 2 ^ 63 - 1.
Definition ns_per_s : Z := 10 ^ 9.

(** matchdepth.py, [add_seconds]: [dt + timedelta(seconds=seconds)].  The
    sum of a Timestamp and a timedelta raises when it leaves the
    representable range. *)
Definition add_seconds (dt : Timestamp) (seconds : Z) : result Timestamp :=
  match dt with
  | NaT => Ok NaT
  | Instant ns tz =>
      let r := ns + seconds * ns_per_s in
      if (Timestamp_min <=? r) && (r <=? Timestamp_max)
      then Ok (Instant r tz)
      else Raise OverflowError
  end.

(** [series.values]: the datetime64[ns] payloads; [None] is NaT. *)
Definition np_value (x : Timestamp) : option Z :=
  match x with
  | NaT => None
  | Instant ns _ => Some ns
  end.

(** Two's complement wrap-around of 64-bit arithmetic. *)
Definition int64_wrap (z : Z) : Z := (z + 2 ^ 63) mod 2 ^ 64 - 2 ^ 63.

(** [a - b] on datetime64[ns]: a timedelta64[ns], NaT when an operand is
    NaT; the payload [-2^63] is NaT. *)
Definition dt64_sub (a b : option Z) : option Z :=
  match a, b with
  | Some x, Some y =>
      let d := int64_wrap (x - y) in
      if d =? - 2 ^ 63 then None else Some d
  | _, _ => None
  end.

(** [.astype('timedelta64[s]')] from nanoseconds: numpy scales by
    [num/denom = 1/10^9], rounding towards minus infinity. *)
Definition td64_ns_to_s (d : option Z) : option Z :=
  match d with
  | Some dt =>
      Some (if dt <? 0
            then Z.quot (int64_wrap (dt - (ns_per_s - 1))) ns_per_s
            else Z.quot dt ns_per_s)
  | None => None
  end.

(** The float64 entries of [diff_matrix] are whole numbers of seconds, far
    below [2^53] in size, or NaN: [Some z] stands for the float [z] and
    [None] for NaN. *)
Abbreviation secs := (option Z).

(** [np.abs(x.astype(float))] *)
Definition np_abs (d : secs) : secs :=
  match d with
  | Some z => Some (Z.abs z)
  | None => None
  end.

(** [x >= mp] on floats: false when either side is NaN. *)
Definition float_ge (x mp : secs) : bool :=
  match x, mp with
  | Some a, Some b => b <=? a
  | _, _ => false
  end.

(** [x <= t] on floats, for an integer [t]. *)
Definition float_le (x : secs) (t : Z) : bool :=
  match x with
  | Some a => a <=? t
  | None => false
  end.

(** [np.argmin] along one row: the index of the first minimal entry, of the
    first NaN if there is one; raises on an empty row. *)
Fixpoint argmin_go (mp : secs) (min_ind i : nat) (l : list secs) : nat :=
  match l with
  | [] => min_ind
  | x :: l' =>
      if float_ge x mp then argmin_go mp min_ind (S i) l'
      else match x with
           | None => i
           | Some _ => argmin_go x i (S i) l'
           end
  end.

Definition np_argmin (row : list secs) : result nat :=
  match row with
  | [] => Raise ValueError
  | None :: _ => Ok O
  | mp :: l => Ok (argmin_go mp 0 1 l)
  end.

(** [np.minimum(a, b)]: NaN when either is NaN. *)
Definition np_minimum (a b : secs) : secs :=
  match a, b with
  | Some x, Some y => Some (Z.min x y)
  | _, _ => None
  end.

(** [np.min] along one row; raises on an empty row. *)
Definition np_min (row : list secs) : result secs :=
  match row with
  | [] => Raise ValueError
  | x :: l => Ok (fold_left np_minimum l x)
  end.

(** [df.iloc[i]] and [a[i]] *)
Definition iloc {A : Type} (l : list A) (i : nat) : result A :=
  match l !! i with
  | Some x => Ok x
  | None => Raise IndexError
  end.

(** ** pandas DataFrames *)

(** A DataFrame: the column labels and the rows, each row holding one cell
    per column.  The tables of the scripts label every column once
    ([df_wf]); with distinct labels [df[c]] is the Series of column [c]. *)
Record DataFrame : Type := {
  columns : list string;
  rows : list (list cell)
}.

Definition df_wf (df : DataFrame) : Prop :=
  NoDup (columns df) /\
  Forall (fun row => length row = length (columns df)) (rows df).

(** The position of label [c]. *)
Fixpoint col_index (c : string) (cols : list string) : option nat :=
  match cols with
  | [] => None
  | c' :: cols' =>
      if String.eqb c' c then Some O else S <$> col_index c cols'
  end.

(** The cell of [row] in the column at position [i]. *)
Definition cell_at (i : nat) (row : list cell) : cell :=
  nth i row NaN.

(** [df[c]]: the Series of column [c]; KeyError when there is no such
    column. *)
Definition get_column (df : DataFrame) (c : string) : result (list cell) :=
  match col_index c (columns df) with
  | Some i => Ok (map (cell_at i) (rows df))
  | None => Raise KeyError
  end.

(** [df[mask]]: the rows where the boolean Series is true. *)
Fixpoint mask_rows {A : Type} (mask : list bool) (l : list A) : list A :=
  match mask, l with
  | b :: mask', x :: l' => if b then x :: mask_rows mask' l' else mask_rows mask' l'
  | _, _ => []
  end.

Definition df_filter (df : DataFrame) (mask : list bool) : DataFrame :=
  {| columns := columns df; rows := mask_rows mask (rows df) |}.

(** [df[c] = values]: overwrites column [c], or appends it as a new last
    column. *)
Definition set_column (df : DataFrame) (c : string) (values : list cell)
  : DataFrame :=
  match col_index c (columns df) with
  | Some i =>
      {| columns := columns df;
         rows := zip_with (fun row v => <[i := v]> row) (rows df) values |}
  | None =>
      {| columns := columns df ++ [c];
         rows := zip_with (fun row v => row ++ [v]) (rows df) values |}
  end.

(** A row completed with missing values up to [width] cells. *)
Definition fill_row (width : nat) (row : list cell) : list cell :=
  row ++ replicate (width - length row) NaN.

(** [pd.DataFrame(data, columns=cols)] for a list of rows: pandas completes
    the rows with missing values to the length of the longest one, and
    raises when that length is not the number of columns. *)
Definition DataFrame_of_rows (data : list (list cell)) (cols : list string)
  : result DataFrame :=
  match data with
  | [] => Ok {| columns := cols; rows := [] |}
  | _ =>
      let width := max_list (map length data) in
      if Nat.eqb width (length cols)
      then Ok {| columns := cols; rows := map (fill_row width) data |}
      else Raise ValueError
  end.

(** [series.isin(values)] for a list of strings. *)
Definition isin (values : list string) (c : cell) : bool :=
  match c with
  | Str s => bool_decide (s ∈ values)
  | _ => false
  end.

(** What the scripts print, line by line. *)
Inductive message : Type :=
  | ErrorToParse (datetime_str : string)   (* "Error to parse: ..." *)
  | LinesWithErrors                        (* "Lines with errors:" *)
  | ErrorLine (entry : string)             (* a line with errors *)
  | AnErrorOccurred (e : exn)              (* "An error occurred: ..." *)
  | PathsChanged (filename : string)       (* "Image paths in '...' changed successfully." *)
  | Skipping (path : string)               (* "Skipping ... as it ends with 'm'" *)
  | Matched (t : Timestamp * cell * Timestamp * string)  (* "ROV: ... with path ..." *)
  | Renamed (path new_file_path : string)  (* "Renamed ... to ..." *)
  | ErrorRenaming (path : string) (e : exn) (* "Error renaming ..." *)
  | MatchingTimestamps                     (* "Matching timestamps:" *)
  | ProcessingVideo (video_name : string)
  | OutputDirectory (output_dir : string)
  | ExtractionCompleted (video_name : string) (saved_frames : nat).

(** ** matchdepth.py: reading and filtering the raw log *)

Section RawLog.

(** The library conversions that the log functions call:
    - [float(s)], [None] when it raises ValueError;
    - [pd.to_numeric(s, errors='coerce')] on one string, [None] when the
      string is coerced to NaN;
    - [pd.to_datetime(x, unit='s', errors='coerce')] on one number;
    - [datetime.strptime(s, '%Y-%j %H:%M:%S %z')], [None] when it raises
      ValueError, with the [str()] of the datetime it returns. *)
Variable float_of_str : string -> option pyfloat.
Variable to_numeric_str : string -> option pyfloat.
Variable to_datetime_s : pyfloat -> Timestamp.
Variable datetime : Type.
Variable strptime_log : string -> option datetime.
Variable str_of_datetime : datetime -> string.

(** Lines 23-25: the text that [parse_log_date] builds from its
    arguments. *)
Definition log_datetime_str (year yearday time_string timezone : string)
  : string :=
  let date := year +:+ "-" +:+ zfill 3 yearday in
  let time_string := strip time_string in
  date +:+ " " +:+ time_string +:+ " " +:+ timezone.

(** [parse_log_date(year, yearday, time_string, timezone)]: the parsed
    datetime, or [None] after printing the error. *)
Definition parse_log_date (year yearday time_string timezone : string)
  : option datetime * list message :=
  let datetime_str := log_datetime_str year yearday time_string timezone in
  match strptime_log datetime_str with
  | Some parsed_datetime => (Some parsed_datetime, [])
  | None => (None, [ErrorToParse datetime_str])
  end.

(** [series.astype(float)] on one cell. *)
Definition astype_float (c : cell) : result pyfloat :=
  match c with
  | Str s =>
      match float_of_str s with
      | Some x => Ok x
      | None => Raise ValueError
      end
  | Float x => Ok x
  | Time _ => Raise TypeError
  end.

(** Reading a local variable: UnboundLocalError, a NameError, when it has
    not been assigned. *)
Definition read_local {A : Type} (v : option A) : result A :=
  match v with
  | Some a => Ok a
  | None => Raise NameError
  end.

Definition sentinels : list string := ["NO_PUB"; "NO_PROV"].

(** [filter_time_and_pressure_data(df, filter_columns)] *)
Definition filter_time_and_pressure_data (df : DataFrame) (filter_columns : bool)
  : result DataFrame :=
  (* if filter_columns: filter_columns = time_columns + pressure_columns
     else: filtered_df = df *)
  let filtered_df : option DataFrame :=
    if filter_columns then None else Some df in
  (* Filter values of pressure *)
  let* fdf := read_local filtered_df in
  let* ctd := get_column fdf "rov_ctd_pressure" in
  let* rov := get_column fdf "rov_pressure" in
  let mask := zip_with (fun a b => negb (isin sentinels a) && negb (isin sentinels b))
                       ctd rov in
  let filtered_df := df_filter fdf mask in
  (* convert to float and filter by value *)
  let* rov := get_column filtered_df "rov_pressure" in
  let* values := mapM astype_float rov in
  let filtered_df := df_filter filtered_df (map float_gt_zero values) in
  Ok filtered_df.

(** A row that [filter_time_and_pressure_data] is to keep: neither
    pressure is a sentinel and the ROV pressure, read as a number, is
    strictly positive. *)
Definition valid_pressure_row (ci ri : nat) (row : list cell) : bool :=
  negb (isin sentinels (cell_at ci row))
  && negb (isin sentinels (cell_at ri row))
  && match astype_float (cell_at ri row) with
     | Ok x => float_gt_zero x
     | Raise _ => false
     end.

(** [pd.to_numeric(series, errors='coerce')] on one cell. *)
Definition to_numeric (c : cell) : cell :=
  match c with
  | Str s =>
      match to_numeric_str s with
      | Some x => Float x
      | None => NaN
      end
  | Float x => Float x
  | Time _ => NaN
  end.

(** [pd.to_datetime(series, unit='s', errors='coerce')] on one cell of a
    numeric column. *)
Definition to_datetime (c : cell) : cell :=
  match c with
  | Float x => Time (to_datetime_s x)
  | _ => Time NaT
  end.

(** Lines 193-197: the column name of one [#LOG] header line. *)
Definition header_column (line : string) : result string :=
  match split_ws line with
  | _ :: name :: _ => Ok (replace_char "." "_" (lower name))
  | _ => Raise IndexError
  end.

(** Lines 210-231: one log entry.  Returns the row to add to
    [parsed_entries], if any, the line to add to [errors], if any, and what
    was printed. *)
Definition parse_entry (entry : string)
  : option (list cell) * option string * list message :=
  let data := split ", " entry in
  if (20 <=? length data)%nat then
    let year := nth 16 data "" in
    let yearday := nth 17 data "" in
    let time_string := nth 18 data "" in
    let timezone := nth 19 data "" in
    let '(parsed_datetime, printed) :=
      parse_log_date year yearday time_string timezone in
    let data := map Str data in
    let data :=
      match parsed_datetime with
      | Some dt => data ++ [Str (str_of_datetime dt)]
      | None => data ++ [NaN]
      end in
    (Some data, None, printed)
  else (None, Some entry, []).

(** Lines 240-243: rows shorter than the column list are completed with
    NaN. *)
Definition pad_row (width : nat) (data : list cell) : list cell :=
  if (length data <? width)%nat
  then data ++ replicate (width - length data) NaN
  else data.

(** [df[c] = f(df[c'])] *)
Definition convert_column (df : DataFrame) (c c' : string) (f : cell -> cell)
  : result DataFrame :=
  let* series := get_column df c' in
  Ok (set_column df c (map f series)).

(** [parse_log_file_to_dataframe(file_path)], on the lines read from the
    file: the DataFrame and what was printed. *)
Definition parse_log_file_to_dataframe (lines : list string)
  : result (DataFrame * list message) :=
  (* names of the columns, from the lines starting with #LOG *)
  let* column_names :=
    mapM header_column (List.filter (fun line => startswith line "#LOG") lines) in
  let column_names := column_names ++ ["year"; "yearday"; "time"; "timezone"] in
  (* the lines that do not start with # *)
  let log_entries :=
    map strip (List.filter (fun line => negb (startswith line "#")) lines) in
  let parsed := map parse_entry log_entries in
  let parsed_entries := omap (fun p => p.1.1) parsed in
  let errors := omap (fun p => p.1.2) parsed in
  let printed := concat (map (fun p => p.2) parsed) in
  let printed :=
    match errors with
    | [] => printed
    | _ => printed ++ LinesWithErrors :: map ErrorLine errors
    end in
  let parsed_entries :=
    map (pad_row (length column_names + 1)) parsed_entries in
  let* df := DataFrame_of_rows parsed_entries (column_names ++ ["parsed_datetime"]) in
  let* df := convert_column df "loghost_system_utc" "loghost_system_utc" to_numeric in
  let* df := convert_column df "timestamp" "loghost_system_utc" to_datetime in
  let* df := convert_column df "rov_position_lat" "rov_position_lat" to_numeric in
  let* df := convert_column df "rov_position_lon" "rov_position_lon" to_numeric in
  let* df := convert_column df "depth" "rov_ctd_pressure" to_numeric in
  Ok (df, printed).

(** *** Vocabulary of the properties of the log parser *)

(** The [#LOG] lines and the log entries of a file. *)
Definition header_lines (lines : list string) : list string :=
  List.filter (fun line => startswith line "#LOG") lines.

Definition log_entries (lines : list string) : list string :=
  map strip (List.filter (fun line => negb (startswith line "#")) lines).

(** The fields of an entry, and whether it has the twenty fields that the
    parser asks for. *)
Definition fields (entry : string) : list string := split ", " entry.

Definition has_twenty_fields (entry : string) : bool :=
  (20 <=? length (fields entry))%nat.

(** The text that [parse_log_date] hands to [strptime] for an entry, and
    the date it gets back. *)
Definition entry_datetime_str (entry : string) : string :=
  let data := fields entry in
  log_datetime_str (nth 16 data "") (nth 17 data "") (nth 18 data "")
                   (nth 19 data "").

Definition entry_date (entry : string) : option datetime :=
  strptime_log (entry_datetime_str entry).

(** The row that the parser builds for an entry with twenty fields or
    more: its fields, then the parsed date or NaN. *)
Definition entry_row (entry : string) : list cell :=
  map Str (fields entry)
  ++ [match entry_date entry with
      | Some dt => Str (str_of_datetime dt)
      | None => NaN
      end].



End RawLog.

(** ** matchdepth.py: matching image timestamps against the depth log *)

(** A row of the ROV-CTD table [df1], with the columns the matching reads. *)
Record rov_row : Type := {
  timestamp : Timestamp;
  rov_ctd_pressure : string;   (* raw log: an object column of strings *)
  depth : cell
}.

(** A row of the image table [df2] ([iso_datetime_df] of the script). *)
Record img_row : Type := {
  iso_datetime : Timestamp;
  instrument_type : string;
  path : string
}.

(** A result tuple [(ts_img, depth_rovctd, ts_rovctd, img_path)]. *)
Abbreviation match_tuple := (Timestamp * cell * Timestamp * string)%type.

(** Lines 135-148: the loop over [enumerate(min_indices)]. *)
Fixpoint match_loop (raw : bool) (df1 : list rov_row) (df2 : list img_row)
    (min_values : list secs) (threshold : Z)
    (i : nat) (min_indices : list nat) (results : list match_tuple)
  : result (list match_tuple) :=
  match min_indices with
  | [] => Ok results
  | min_idx :: rest =>
      let* v := iloc min_values i in
      if float_le v threshold then
        let* img := iloc df2 i in
        let ts_rovctd := iso_datetime img in
        let* rec := iloc df1 min_idx in
        let depth_rovctd :=
          if raw then Str (strip (rov_ctd_pressure rec)) else depth rec in
        let ts_img := timestamp rec in
        let img_path := path img in
        match_loop raw df1 df2 min_values threshold (S i) rest
          (results ++ [(ts_img, depth_rovctd, ts_rovctd, img_path)])
      else
        match_loop raw df1 df2 min_values threshold (S i) rest results
  end.

(** Lines 112-113: [df['col'] = df['col'].apply(lambda x: x if x.tzinfo
    else pytz.utc.localize(x))] on the time column of each table. *)
Definition rov_in_utc (r : rov_row) : rov_row :=
  {| timestamp := ensure_utc (timestamp r);
     rov_ctd_pressure := rov_ctd_pressure r;
     depth := depth r |}.

Definition img_in_utc (r : img_row) : img_row :=
  {| iso_datetime := ensure_utc (iso_datetime r);
     instrument_type := instrument_type r;
     path := path r |}.

(** [find_matching_timestamps(df1, df2, defase, threshold)].  The tables
    arrive with their time columns already read by [pd.to_datetime]
    (lines 108-109); [raw] is the module-level flag the function reads. *)
Definition find_matching_timestamps (raw : bool)
    (df1 : list rov_row) (df2 : list img_row) (defase threshold : Z)
  : result (list match_tuple) :=
  (* Timestamps in UTC *)
  let df1 := map rov_in_utc df1 in
  let df2 := map img_in_utc df2 in
  (* Applying the defase in the images *)
  let* adjusted_iso_datetime :=
    mapM (fun r => add_seconds (iso_datetime r) defase) df2 in
  let timestamps_img := map np_value adjusted_iso_datetime in
  let timestamps_rovctd := map (fun r => np_value (timestamp r)) df1 in
  (* Absolute difference between the timestamps *)
  let diff_matrix :=
    map (fun t_img =>
           map (fun t_rov => np_abs (td64_ns_to_s (dt64_sub t_rov t_img)))
               timestamps_rovctd)
        timestamps_img in
  match timestamps_rovctd with
  | [] => Raise ValueError
  | _ =>
      let* min_indices := mapM np_argmin diff_matrix in
      let* min_values := mapM np_min diff_matrix in
      match_loop raw df1 df2 min_values threshold 0 min_indices []
  end.

(** The default values of [defase] and [threshold], and the call of line
    335, [find_matching_timestamps(df, iso_datetime_df, defase = -defase)],
    with the module-level [raw = False] and [defase = 60*1 + 9]. *)
Definition default_defase : Z := 0.
Definition default_threshold : Z := 8.

Definition matching_timestamps (df : list rov_row) (iso_datetime_df : list img_row)
  : result (list match_tuple) :=
  let raw := false in
  let defase := 60 * 1 + 9 in
  find_matching_timestamps raw df iso_datetime_df (- defase) default_threshold.

(** *** Vocabulary of the matching properties *)

(** The instant of a timestamp ([0] for NaT, which the properties below
    exclude). *)
Definition instant_of (x : Timestamp) : Z :=
  match x with
  | Instant ns _ => ns
  | NaT => 0
  end.

(** Instants, shifted by [shift] nanoseconds, that lie within 4e18 ns of
    the epoch (the years 1844 to 2096): the differences of two such
    instants fit in 64 bits. *)
Definition in_window (shift : Z) (x : Timestamp) : Prop :=
  match x with
  | Instant ns _ => - (4 * 10 ^ 18) <= ns + shift < 4 * 10 ^ 18
  | NaT => False
  end.










(** ** matchdepth.py: the rename step (lines 345-372) *)

(** A file system: the files by path.  [os.rename(src, dst)] moves a file,
    replacing [dst] if it exists, and raises when [src] does not exist. *)
Abbreviation filesystem content := (gmap string content).

Definition os_rename {content : Type} (fs : filesystem content) (src dst : string)
  : result (filesystem content) :=
  match fs !! src with
  | Some c => Ok (<[dst := c]> (delete src fs))
  | None => Raise FileNotFoundError
  end.

Section Rename.

Variable content : Type.
(** [str(x)] for the floats and the timestamps a depth cell can hold. *)
Variable str_of_float : pyfloat -> string.
Variable str_of_timestamp : Timestamp -> string.

(** [f'{depth}'] *)
Definition format_cell (c : cell) : string :=
  match c with
  | Str s => s
  | Float x => str_of_float x
  | Time t => str_of_timestamp t
  end.

(** The new path of lines 359-365 for an image at [path] matched at depth
    [depth]. *)
Definition new_file_path_of (depth : cell) (path : string) : string :=
  let '(original_name, extension) := splitext (basename path) in
  let suffix := "_" +:+ format_cell depth +:+ "m" in
  let new_file_name := original_name +:+ suffix +:+ extension in
  join (dirname path) new_file_name.

(** One turn of the loop of line 348, for the tuple
    [(ts1, depth, ts2, path)]. *)
Definition rename_one (st : filesystem content * list message)
    (t : match_tuple) : filesystem content * list message :=
  let '(fs, out) := st in
  let '(ts1, depth, ts2, path) := t in
  let '(original_name, extension) := splitext (basename path) in
  if endswith original_name "m" then
    (fs, out ++ [Skipping path])
  else
    let out := out ++ [Matched t] in
    let new_file_path := new_file_path_of depth path in
    match os_rename fs path new_file_path with
    | Ok fs' => (fs', out ++ [Renamed path new_file_path])
    | Raise e => (fs, out ++ [ErrorRenaming path e])
    end.

(** The rename step: [if rename: ... for ... in matching_timestamps]. *)
Definition rename_step (fs : filesystem content) (matching_timestamps : list match_tuple)
  : filesystem content * list message :=
  fold_left rename_one matching_timestamps (fs, [MatchingTimestamps]).

End Rename.

(** ** change-path.py *)

Section ChangePath.

(** A file is read by [pd.read_csv] and written by [df.to_csv(path,
    index=False)]. *)
Variable content : Type.
Variable read_csv : content -> result DataFrame.
Variable to_csv : DataFrame -> content.

(** [lambda x: os.path.join(new_image_path, os.path.basename(x))]; only a
    string is a path. *)
Definition rewrite_path (new_image_path : string) (x : cell) : result cell :=
  match x with
  | Str p => Ok (Str (join new_image_path (basename p)))
  | _ => Raise TypeError
  end.

(** Line 26: [df['image_path'] = df['image_path'].apply(...)] *)
Definition change_column (new_image_path : string) (df : DataFrame)
  : result DataFrame :=
  let* series := get_column df "image_path" in
  let* values := mapM (rewrite_path new_image_path) series in
  Ok (set_column df "image_path" values).

Definition open_file (fs : filesystem content) (p : string) : result content :=
  match fs !! p with
  | Some c => Ok c
  | None => Raise FileNotFoundError
  end.

(** Lines 19-32: the body of the loop for one CSV file.  The state is the
    file system and what has been printed. *)
Definition change_one_csv (csv_folder new_image_path : string)
    (st : filesystem content * list message) (filename : string)
  : filesystem content * list message * result unit :=
  let '(fs, out) := st in
  let file_path := join csv_folder filename in
  match (let* c := open_file fs file_path in
         let* df := read_csv c in
         change_column new_image_path df) with
  | Ok df' =>
      (<[file_path := to_csv df']> fs, out ++ [PathsChanged filename], Ok tt)
  | Raise e => (fs, out, Raise e)
  end.

(** Lines 15-32: the loop over the listing; an exception leaves it. *)
Fixpoint change_loop (csv_folder new_image_path : string)
    (filenames : list string) (st : filesystem content * list message)
  : filesystem content * list message * result unit :=
  match filenames with
  | [] => (st, Ok tt)
  | filename :: rest =>
      if endswith filename ".csv" then
        match change_one_csv csv_folder new_image_path st filename with
        | (st', Ok _) => change_loop csv_folder new_image_path rest st'
        | (st', Raise e) => (st', Raise e)
        end
      else change_loop csv_folder new_image_path rest st
  end.

(** [change_image_paths(csv_folder, new_image_path)]; [listdir] is what
    [os.listdir(csv_folder)] returns or raises.  The [try] encloses the
    whole loop. *)
Definition change_image_paths (csv_folder new_image_path : string)
    (listdir : result (list string)) (fs : filesystem content)
  : filesystem content * list message :=
  match (match listdir with
         | Ok filenames => change_loop csv_folder new_image_path filenames (fs, [])
         | Raise e => ((fs, []), Raise e)
         end) with
  | (st, Ok _) => st
  | ((fs', out), Raise e) => (fs', out ++ [AnErrorOccurred e])
  end.

(** *** Vocabulary of the properties of change-path.py *)

(** What the body of the loop computes for the file at [file_path]: the
    rewritten table, or the exception. *)
Definition csv_outcome (new_image_path : string) (fs : filesystem content)
    (file_path : string) : result DataFrame :=
  let* c := open_file fs file_path in
  let* df := read_csv c in
  change_column new_image_path df.

(** The file at [file_path] is a CSV file as the function assumes it: it
    is read as the table [df], whose column image_path, at position [i],
    holds a string in every row. *)
Definition csv_ok (fs : filesystem content) (file_path : string)
    (df : DataFrame) (i : nat) : Prop :=
  (exists c, fs !! file_path = Some c /\ read_csv c = Ok df) /\
  col_index "image_path" (columns df) = Some i /\
  Forall (fun row => exists p, cell_at i row = Str p) (rows df).

(** The cell of image_path after the rewriting. *)
Definition rewrite_cell (new_image_path : string) (x : cell) : cell :=
  match x with
  | Str p => Str (join new_image_path (basename p))
  | _ => x
  end.

(** The table [df] with the paths of its column [i] rewritten. *)
Definition rewritten (new_image_path : string) (i : nat) (df : DataFrame)
  : DataFrame :=
  {| columns := columns df;
     rows := map (fun row => <[i := rewrite_cell new_image_path (cell_at i row)]> row)
                 (rows df) |}.

(** What [os.listdir] returns: distinct names, none with a slash. *)
Definition listing_ok (filenames : list string) : Prop :=
  NoDup filenames /\ Forall (fun f => contains sep f = false) filenames.

Definition is_csv (filename : string) : bool := endswith filename ".csv".

End ChangePath.

(** ** choosing-data.py: [get_all_images] *)

(** A directory: its name, its files and its sub-directories. *)
#[warnings="-register-all"]
Inductive directory : Type :=
  | Dir (name : string) (files : list string) (subdirs : list directory).

Definition dir_name (d : directory) : string :=
  match d with Dir name _ _ => name end.

(** [os.walk(root)], top-down, for the directory [d] found at path [root]:
    the triples [(root, dirs, files)]. *)
Fixpoint os_walk (root : string) (d : directory)
  : list (string * list string * list string) :=
  match d with
  | Dir _ files subdirs =>
      (root, map dir_name subdirs, files)
      :: (fix walk_all (l : list directory) :=
            match l with
            | [] => []
            | sub :: l' => os_walk (join root (dir_name sub)) sub ++ walk_all l'
            end) subdirs
  end.

Definition image_extensions : list string :=
  [".png"; ".jpg"; ".jpeg"; ".gif"; ".bmp"; ".tiff"].

(** The test of line 32: [file.lower().endswith(image_extensions) and
    file.startswith('CFE') and file.endswith('m' + file[-4:])]. *)
Definition is_depth_image (file : string) : bool :=
  endswith_any (lower file) image_extensions
  && startswith file "CFE"
  && endswith file ("m" +:+ slice_last 4 file).

(** [get_all_images(directory)] *)
Definition get_all_images (root : string) (d : directory) : list string :=
  flat_map (fun '(root, _, files) =>
              map (fun file => join root file)
                  (List.filter is_depth_image files))
           (os_walk root d).

(** ** videos2frames.py: [extract_frames] *)

Section Frames.

Variable frame : Type.

(** What [cv2.VideoCapture(video_path)] gives: whether the file could be
    opened, [int(cap.get(CAP_PROP_FPS))], and the frames that the
    successive [cap.read()] return before the first failed read. *)
Record capture : Type := {
  isOpened : bool;
  fps : Z;
  frames : list frame
}.

(** The state of the loop: the files written, [count] and
    [saved_frames]. *)
Record loop_state : Type := {
  written : filesystem frame;
  count : Z;
  saved_frames : nat
}.

(** [f"{video_name}_{saved_frames:04d}.jpg"] *)
Definition frame_name (video_name : string) (saved_frames : nat) : string :=
  video_name +:+ "_" +:+ zfill 4 (str_of_nat saved_frames) +:+ ".jpg".

(** [a % b] *)
Definition py_mod (a b : Z) : result Z :=
  if b =? 0 then Raise ZeroDivisionError else Ok (a mod b).

(** [a // b] *)
Definition py_floordiv (a b : Z) : result Z :=
  if b =? 0 then Raise ZeroDivisionError else Ok (a / b).

(** Lines 38-48: the loop, one turn per frame read; it ends at the first
    failed read, that is when the frames are exhausted.  An exception
    leaves the loop with the state reached. *)
Fixpoint frame_loop (video_name output_dir : string) (frame_interval : Z)
    (remaining : list frame) (st : loop_state) : loop_state * result unit :=
  match remaining with
  | [] => (st, Ok tt)
  | fr :: rest =>
      match py_mod (count st) frame_interval with
      | Raise e => (st, Raise e)
      | Ok r =>
          let st :=
            if r =? 0 then
              let frame_path :=
                join output_dir (frame_name video_name (saved_frames st)) in
              {| written := <[frame_path := fr]> (written st);
                 count := count st;
                 saved_frames := S (saved_frames st) |}
            else st in
          frame_loop video_name output_dir frame_interval rest
            {| written := written st;
               count := count st + 1;
               saved_frames := saved_frames st |}
      end
  end.

(** [extract_frames(video_path, output_dir, frame_rate)] on the capture
    [cap] that [cv2.VideoCapture(video_path)] gives: the files written and
    the printed lines, and whether the call returned or raised. *)
Definition extract_frames (video_path output_dir : string) (frame_rate : Z)
    (cap : capture) (fs : filesystem frame)
  : filesystem frame * list message * result unit :=
  let video_name := (splitext (basename video_path)).1 in
  let out := [ProcessingVideo video_name; OutputDirectory output_dir] in
  match py_floordiv (fps cap) frame_rate with
  | Raise e => (fs, out, Raise e)
  | Ok frame_interval =>
      let st0 := {| written := fs; count := 0; saved_frames := O |} in
      let '(st, r) :=
        if isOpened cap
        then frame_loop video_name output_dir frame_interval (frames cap) st0
        else (st0, Ok tt) in
      match r with
      | Ok _ =>
          (written st,
           out ++ [ExtractionCompleted video_name (saved_frames st)], Ok tt)
      | Raise e => (written st, out, Raise e)
      end
  end.

(** The frames that the loop gets to read: none when the capture is not
    open. *)
Definition delivered (cap : capture) : list frame :=
  if isOpened cap then frames cap else [].

(** The frames of [l] whose index, counted from [start], is a multiple of
    [interval]. *)
Definition multiples_from (start : nat) (interval : Z) (l : list frame)
  : list frame :=
  map snd (List.filter (fun p : nat * frame => Z.of_nat p.1 mod interval =? 0)
                       (imap (fun i fr => ((start + i)%nat, fr)) l)).

Definition multiples_of (interval : Z) (l : list frame) : list frame :=
  multiples_from 0 interval l.

(** The files written for the frames [saved], numbered from [first]. *)
Definition save_from (first : nat) (video_name output_dir : string)
    (saved : list frame) (fs : filesystem frame) : filesystem frame :=
  fold_left (fun fs (p : nat * frame) =>
               <[join output_dir (frame_name video_name p.1) := p.2]> fs)
            (imap (fun i fr => ((first + i)%nat, fr)) saved) fs.

Definition save_all (video_name output_dir : string)
    (saved : list frame) (fs : filesystem frame) : filesystem frame :=
  save_from 0 video_name output_dir saved fs.

End Frames.

(** ** videos2mp4.py: [convert_avi_to_mp4] *)

Section Mp4.

Variable content : Type.
(** The ffmpeg run [ffmpeg.input(src).output(dst, vcodec='libx264').run()]:
    on success the file written at [dst]; on failure, which raises, the
    partial file left at [dst], if any. *)
Variable transcode : content -> option content.
Variable partial_output : option content -> option content.

Definition ffmpeg_run (fs : filesystem content) (src dst : string)
  : filesystem content * result unit :=
  match fs !! src ≫= transcode with
  | Some mp4 => (<[dst := mp4]> fs, Ok tt)
  | None =>
      (match partial_output (fs !! src) with
       | Some junk => <[dst := junk]> fs
       | None => fs
       end, Raise FfmpegError)
  end.

(** [os.path.exists(p)] *)
Definition path_exists (fs : filesystem content) (p : string) : bool :=
  bool_decide (is_Some (fs !! p)).

Definition output_mp4_of (video_path output_dir : string) : string :=
  let video_name := (splitext (basename video_path)).1 in
  join output_dir (video_name +:+ ".mp4").

(** [convert_avi_to_mp4(video_path, output_dir)] *)
Definition convert_avi_to_mp4 (video_path output_dir : string)
    (fs : filesystem content) : filesystem content * result string :=
  let output_mp4 := output_mp4_of video_path output_dir in
  (* Skip conversion if the MP4 file already exists *)
  if path_exists fs output_mp4 then (fs, Ok output_mp4)
  else
    match ffmpeg_run fs video_path output_mp4 with
    | (fs', Ok _) => (fs', Ok output_mp4)
    | (fs', Raise e) => (fs', Raise e)
    end.

(** A run of the conversion over a list of [(video_path, output_dir)]
    pairs, one after the other; a conversion that raises does not undo the
    earlier ones. *)
Definition convert_all (inputs : list (string * string))
    (fs : filesystem content) : filesystem content :=
  fold_left (fun fs '(video_path, output_dir) =>
               (convert_avi_to_mp4 video_path output_dir fs).1)
            inputs fs.

End Mp4.

(** ** Sample inputs *)




(** Two CSV tables, the second without the column image_path; files hold
    their tables. *)
Definition sample_detections : DataFrame :=
  {| columns := ["image_path"; "label"; "score"];
     rows := [[Str "/old/run1/a.jpg"; Str "fish"; Float (Finite (1 # 2))];
              [Str "/old/run2/b.jpg"; Str "krill"; Float (Finite (3 # 4))]] |}.

Definition sample_no_path_column : DataFrame :=
  {| columns := ["path"; "label"];
     rows := [[Str "/old/run1/a.jpg"; Str "fish"]] |}.

Definition sample_csv_files : gmap string DataFrame :=
  <["/csv/a.csv" := sample_no_path_column]>
    (<["/csv/b.csv" := sample_detections]>
       (<["/csv/c.csv" := sample_detections]> ∅)).

(** A pressure table. *)
Definition sample_pressures : DataFrame :=
  {| columns := ["rov_ctd_pressure"; "rov_pressure"; "note"];
     rows := [[Str "12.5"; Str "12.5"; Str "kept"];
              [Str "NO_PUB"; Str "12.5"; Str "no ctd"];
              [Str "12.5"; Str "NO_PROV"; Str "no rov"];
              [Str "12.5"; Str "-2"; Str "negative"];
              [Str "12.5"; NaN; Str "missing"]] |}.

Definition sample_float_of_str (s : string) : option pyfloat :=
  if String.eqb s "12.5" then Some (Finite (25 # 2))
  else if String.eqb s "-2" then Some (Finite (-2 # 1))
  else None.

(** A raw log: sixteen columns, a good entry, a short line and an entry
    whose year does not parse. *)
Definition sample_header : list string :=
  ["#LOG loghost.system.UTC"; "#LOG rov.position.lat"; "#LOG rov.position.lon";
   "#LOG rov.heading"; "#LOG rov.pitch"; "#LOG rov.roll"; "#LOG rov.altitude";
   "#LOG rov.pressure"; "#LOG rov.ctd.temperature"; "#LOG rov.ctd.salinity";
   "#LOG rov.ctd.oxygen"; "#LOG rov.ctd.light"; "#LOG ship.lat"; "#LOG ship.lon";
   "#LOG ship.heading"; "#LOG rov.ctd.pressure"; "# recorded on the ship"].

Definition sample_entry (year : string) : string :=
  "1724250000, 36.7, -122.0, 90, 1, 2, 30, 12.6, 9.5, 33.4, 5.1, 0.2, 36.7, "
  +:+ "-122.0, 91, 12.5, " +:+ year +:+ ", 234, 14:20:00, +0000".

Definition sample_lines : list string :=
  sample_header ++ [sample_entry "2024"; "lost, line"; sample_entry "20x4"].

Definition sample_strptime (s : string) : option string :=
  if String.prefix "2024-" s then Some s else None.

(** A capture of seven frames at 30 frames per second, a file that could
    not be opened, and a file that opens but gives no frame. *)
Definition sample_capture : capture nat :=
  {| isOpened := true; fps := 30; frames := [10; 11; 12; 13; 14; 15; 16]%nat |}.

Definition unopened_capture : capture nat :=
  {| isOpened := false; fps := 0; frames := [] |}.

Definition empty_capture : capture nat :=
  {| isOpened := true; fps := 10; frames := [] |}.


(** ** Further vocabulary: the scripts beyond the stated properties *)

(** The extensions of [image_extensions] that have four characters. *)
Definition short_image_extensions : list string :=
  [".png"; ".jpg"; ".gif"; ".bmp"].

(** The names of the files of a directory and of its sub-directories. *)
Fixpoint file_names (d : directory) : list string :=
  match d with
  | Dir _ files subdirs => files ++ flat_map file_names subdirs
  end.

(** ** choosing-data.py: copying and reviewing images *)

(** What choosing-data.py prints, line by line. *)
Inductive notice : Type :=
  | OnlyFound (total_images : nat) (num_images : Z)
      (* "Only ... images found, but ... were requested. ..." *)
  | AlreadyExists (image_filename destination_dir : string)
      (* "File ... already exists in .... Skipping..." *)
  | ErrorCopying (image : string) (e : exn)     (* "Error copying ...: ..." *)
  | Copied (copied_count : nat) (destination_dir : string)
      (* "Copied ... images to ..." *)
  | ErrorReading (path : string) (e : exn)      (* "Error reading image ...: ..." *)
  | ErrorConverting                             (* "Error converting image data: ..." *)
  | NoValidImages (directory : string)          (* "No valid images in .... Exiting..." *)
  | ShowingPrevious (index : Z)    (* "Showing previous image. New index: ..." *)
  | ShowingNext (index : Z)        (* "Showing next image. New index: ..." *)
  | MarkedForDeletion (index : Z)  (* "Image marked for deletion: ..." *)
  | ImageDeleted (path : string)                (* "Image deleted: ..." *)
  | ErrorDeleting (path : string) (e : exn).    (* "Error deleting image ...: ..." *)

(** [shutil.copy(src, dst)] for a path [dst] that is not a directory: the
    file at [dst] is written with the content of [src]; raises when there
    is no file at [src]. *)
Definition shutil_copy {content : Type} (fs : filesystem content) (src dst : string)
  : result (filesystem content) :=
  match fs !! src with
  | Some c => Ok (<[dst := c]> fs)
  | None => Raise FileNotFoundError
  end.

(** [os.remove(p)] *)
Definition os_remove {content : Type} (fs : filesystem content) (p : string)
  : result (filesystem content) :=
  match fs !! p with
  | Some _ => Ok (delete p fs)
  | None => Raise FileNotFoundError
  end.

Section CopyImages.

Variable content : Type.
(** [random.sample(population, k)] for [0 <= k <= len(population)]. *)
Variable random_sample : list string -> nat -> list string.

(** Lines 72-89: one turn of the loop over the selected images.  The
    state is the file system, what has been printed and [copied_count]. *)
Definition copy_one (destination_dir : string)
    (st : filesystem content * list notice * nat) (image : string)
  : filesystem content * list notice * nat :=
  let '(fs, out, copied_count) := st in
  let image_filename := basename image in
  let destination_path := join destination_dir image_filename in
  (* Check if file already exists in destination *)
  if path_exists content fs destination_path then
    (fs, out ++ [AlreadyExists image_filename destination_dir], copied_count)
  else
    match shutil_copy fs image destination_path with
    | Ok fs' => (fs', out, S copied_count)
    | Raise e => (fs, out ++ [ErrorCopying image e], copied_count)
    end.

(** [copy_images(source_dir, destination_dir, num_images)], where [source]
    is the directory found at [source_dir].  The file system holds files
    only: creating the destination directory changes none of them. *)
Definition copy_images (source_dir : string) (source : directory)
    (destination_dir : string) (num_images : Z) (fs : filesystem content)
  : filesystem content * list notice * result nat :=
  let all_images := get_all_images source_dir source in
  let total_images := length all_images in
  let '(out, num_images) :=
    if Z.of_nat total_images <? num_images
    then ([OnlyFound total_images num_images], Z.of_nat total_images)
    else ([], num_images) in
  (* random.sample raises on a negative number of images *)
  if num_images <? 0 then (fs, out, Raise ValueError)
  else
    let selected_images := random_sample all_images (Z.to_nat num_images) in
    let '(fs', out, copied_count) :=
      fold_left (copy_one destination_dir) selected_images (fs, out, O) in
    (fs', out ++ [Copied copied_count destination_dir], Ok copied_count).

End CopyImages.

(** The keys and the events that the viewer tells apart. *)
Inductive key : Type := K_LEFT | K_RIGHT | K_UP | K_other.

Inductive event : Type :=
  | QUIT
  | KEYDOWN (k : key)
  | other_event.

(** The variables of the main loop of [show_images]. *)
Record viewer : Type := {
  index_actual_image : Z;
  images_to_delete : list Z;
  running : bool
}.

(** Lines 200-215: one event. *)
Definition handle_event (num_images : Z) (st : viewer * list notice) (ev : event)
  : viewer * list notice :=
  let '(v, out) := st in
  match ev with
  | QUIT =>
      ({| index_actual_image := index_actual_image v;
          images_to_delete := images_to_delete v;
          running := false |}, out)
  | KEYDOWN K_LEFT =>
      let index := (index_actual_image v - 1) mod num_images in
      ({| index_actual_image := index;
          images_to_delete := images_to_delete v;
          running := running v |}, out ++ [ShowingPrevious index])
  | KEYDOWN K_RIGHT =>
      let index := (index_actual_image v + 1) mod num_images in
      ({| index_actual_image := index;
          images_to_delete := images_to_delete v;
          running := running v |}, out ++ [ShowingNext index])
  | KEYDOWN K_UP =>
      if bool_decide (index_actual_image v ∈ images_to_delete v) then (v, out)
      else
        ({| index_actual_image := index_actual_image v;
            images_to_delete := images_to_delete v ++ [index_actual_image v];
            running := running v |},
         out ++ [MarkedForDeletion (index_actual_image v)])
  | KEYDOWN K_other | other_event => (v, out)
  end.

(** Lines 196-226: [while running: for event in pygame.event.get(): ...],
    on the successive lists of events that [pygame.event.get()] returns.
    The loop goes on as long as no list held a QUIT; with [running] still
    true at the end of [batches] it is waiting for more events. *)
Fixpoint main_loop (num_images : Z) (batches : list (list event))
    (st : viewer * list notice) : viewer * list notice :=
  match batches with
  | [] => st
  | events :: rest =>
      let st := fold_left (handle_event num_images) events st in
      if running st.1 then main_loop num_images rest st else st
  end.

Section ShowImages.

Variables content surface : Type.
(** Lines 148-156: the conversion of the bytes of a file to a scaled
    pygame surface, [None] when it raises. *)
Variable convert : content -> option surface.

(** [read_image(path)]: the bytes, or [None] after printing the error. *)
Definition read_image (fs : filesystem content) (path : string)
  : option content * list notice :=
  match fs !! path with
  | Some data => (Some data, [])
  | None => (None, [ErrorReading path FileNotFoundError])
  end.

(** [upload_images_multiprocessing(directory)], where [d] is the
    directory found at the path [root]: the surfaces and the paths.  The
    lines of the workers are given in the order of the paths. *)
Definition upload_images_multiprocessing (root : string) (d : directory)
    (fs : filesystem content) : list surface * list string * list notice :=
  (* the test of line 130 is that of line 32 *)
  let paths := get_all_images root d in
  let read := map (read_image fs) paths in
  (* Filter out None values *)
  let images_data := omap fst read in
  let converted := map convert images_data in
  let images := omap id converted in
  (images, paths,
   concat (map snd read)
   ++ omap (fun c => match c with None => Some ErrorConverting | Some _ => None end)
           converted).

(** Lines 231-237: the deletion of one marked image.  The handler prints
    [current_image_path], which line 233 has not assigned when the look-up
    of the very first index raises. *)
Definition delete_one (image_paths : list string)
    (st : filesystem content * list notice * option string) (index : Z)
  : result (filesystem content * list notice * option string) :=
  let '(fs, out, current_image_path) := st in
  match (if index <? 0 then image_paths !! Z.to_nat (Z.of_nat (length image_paths) + index)
         else image_paths !! Z.to_nat index) with
  | Some p =>
      match os_remove fs p with
      | Ok fs' => Ok (fs', out ++ [ImageDeleted p], Some p)
      | Raise e => Ok (fs, out ++ [ErrorDeleting p e], Some p)
      end
  | None =>
      let* p := read_local current_image_path in
      Ok (fs, out ++ [ErrorDeleting p IndexError], Some p)
  end.

Fixpoint delete_marked (image_paths : list string) (marked : list Z)
    (st : filesystem content * list notice * option string)
  : result (filesystem content * list notice) :=
  match marked with
  | [] => Ok (st.1.1, st.1.2)
  | index :: rest =>
      let* st := delete_one image_paths st index in
      delete_marked image_paths rest st
  end.

(** [show_images(directory)] on the lists of events [batches]: [None]
    while the viewer is still waiting for events at the end of [batches],
    and otherwise the file system and the printed lines, or the exception,
    once the window is closed. *)
Definition show_images (root : string) (d : directory)
    (batches : list (list event)) (fs : filesystem content)
  : option (result (filesystem content * list notice)) :=
  let '(images, image_paths, out) := upload_images_multiprocessing root d fs in
  let num_images := Z.of_nat (length images) in
  if num_images =? 0 then Some (Ok (fs, out ++ [NoValidImages root]))
  else
    let '(v, out) :=
      main_loop num_images batches
        ({| index_actual_image := 0; images_to_delete := []; running := true |}, out) in
    if running v then None
    else Some (delete_marked image_paths (images_to_delete v) (fs, out, None)).

(** The paths whose files are read and converted: the images shown come
    from them, in their order. *)
Definition shown_paths (fs : filesystem content) (paths : list string) : list string :=
  List.filter (fun p => bool_decide (is_Some (fs !! p ≫= convert))) paths.

End ShowImages.

(** The viewer shows an image that exists and has marked every image once
    at most. *)
Definition viewer_ok (num_images : Z) (v : viewer) : Prop :=
  0 <= index_actual_image v < num_images /\
  NoDup (images_to_delete v) /\
  Forall (fun index => 0 <= index < num_images) (images_to_delete v).

(** The viewer when the main loop starts. *)
Definition viewer_start : viewer :=
  {| index_actual_image := 0; images_to_delete := []; running := true |}.

(** ** videos2frames.py: the numbers in the names of the frames *)

(** [int(s)] for a string of decimal digits. *)
Definition digit_value (c : ascii) : nat := (nat_of_ascii c - 48)%nat.

Fixpoint int_of_digits (acc : nat) (s : string) : nat :=
  match s with
  | EmptyString => acc
  | String c r => int_of_digits (10 * acc + digit_value c) r
  end.

(** [c.isdigit()] on an ASCII character, and on every character of a
    string. *)
Definition is_digit (c : ascii) : bool :=
  ((48 <=? nat_of_ascii c) && (nat_of_ascii c <=? 57))%nat.

Fixpoint all_digits (s : string) : bool :=
  match s with
  | EmptyString => true
  | String c r => is_digit c && all_digits r
  end.

(** ** os.path, continued (posixpath) *)

(** [os.path.isabs(s)] *)
Definition isabs (s : string) : bool := startswith s "/".

(** [sep.join(l)] *)
Fixpoint str_join (sep : string) (l : list string) : string :=
  match l with
  | [] => ""
  | [x] => x
  | x :: l' => x +:+ sep +:+ str_join sep l'
  end.

(** [s * n] *)
Fixpoint str_repeat (s : string) (n : nat) : string :=
  match n with
  | O => ""
  | S n' => s +:+ str_repeat s n'
  end.

(** [os.path.join(a, *p)] *)
Definition join_all (a : string) (p : list string) : string := fold_left join p a.

(** One turn of the loop of [normpath] over the components. *)
Definition normpath_step (initial_slashes : nat) (new_comps : list string)
    (comp : string) : list string :=
  if String.eqb comp "" || String.eqb comp "." then new_comps
  else if negb (String.eqb comp "..")
          || (Nat.eqb initial_slashes 0 && bool_decide (new_comps = []))
          || match last new_comps with
             | Some c => String.eqb c ".."
             | None => false
             end
       then new_comps ++ [comp]
  else removelast new_comps.

(** [os.path.normpath(path)] *)
Definition normpath (path : string) : string :=
  if String.eqb path "" then "."
  else
    let initial_slashes :=
      if startswith path "/" then
        if startswith path "//" && negb (startswith path "///") then 2%nat else 1%nat
      else 0%nat in
    let comps := split "/" path in
    let new_comps := fold_left (normpath_step initial_slashes) comps [] in
    let path := str_join "/" new_comps in
    let path := str_repeat "/" initial_slashes +:+ path in
    if String.eqb path "" then "." else path.

(** [os.path.abspath(path)], with [cwd] what [os.getcwd()] returns. *)
Definition abspath (cwd path : string) : string :=
  normpath (if isabs path then path else join cwd path).

(** The longest common prefix of two lists: what [commonprefix] returns
    for them, the common prefix of the smaller and of the larger of two
    lists being that of the two. *)
Fixpoint common_prefix (a b : list string) : list string :=
  match a, b with
  | x :: a', y :: b' => if String.eqb x y then x :: common_prefix a' b' else []
  | _, _ => []
  end.

(** [os.path.relpath(path, start)] *)
Definition relpath (cwd path start : string) : result string :=
  if String.eqb path "" then Raise ValueError
  else
    let nonempty := fun x => negb (String.eqb x "") in
    let start_list := List.filter nonempty (split "/" (abspath cwd start)) in
    let path_list := List.filter nonempty (split "/" (abspath cwd path)) in
    (* Work out how much of the filepath is shared by start and path. *)
    let i := length (common_prefix start_list path_list) in
    let rel_list := replicate (length start_list - i) ".." ++ drop i path_list in
    match rel_list with
    | [] => Ok "."
    | a :: p => Ok (join_all a p)
    end.

(** A name that a file or a directory can have: not empty, neither ['.']
    nor ['..'], and without a slash. *)
Definition is_name (c : string) : bool :=
  negb (String.eqb c "") && negb (String.eqb c ".") && negb (String.eqb c "..")
  && negb (contains sep c).

(** The names of the sub-directories of a directory, at every depth. *)
Fixpoint subdir_names (d : directory) : list string :=
  match d with
  | Dir _ _ subdirs => flat_map (fun sub => dir_name sub :: subdir_names sub) subdirs
  end.

(** ** The video scripts: one task for each video *)

(** The values that the parameter tuples of videos2frames.py hold. *)
Inductive pyval : Type :=
  | PStr (s : string)
  | PInt (z : Z).

(** What [process_videos] prints, and the lines of its workers. *)
Inductive progress : Type :=
  | Scanning                      (* "Scanning for video files..." *)
  | Found (video_files : nat)     (* "Found ... video files to process." *)
  | UsingCores (num_cores : Z)    (* "Using ... cores for parallel processing." *)
  | Starting                      (* "Starting conversion and frame extraction..." *)
  | Completed                     (* "Conversion and frame extraction completed." *)
  | Worker (m : message).

(** [list(pool.imap(task, tasks))]: the tasks are given here in the order
    of the list, in which the results are collected and the first
    exception is raised. *)
Fixpoint pool_imap {A S M : Type} (task : A -> S -> S * list M * result unit)
    (tasks : list A) (s : S) : S * list M * result unit :=
  match tasks with
  | [] => (s, [], Ok tt)
  | a :: rest =>
      match task a s with
      | (s', out, Ok _) =>
          let '(s'', out', r) := pool_imap task rest s' in
          (s'', out ++ out', r)
      | (s', out, Raise e) => (s', out, Raise e)
      end
  end.

Module Videos2Frames.
Section Tasks.

Variable frame : Type.
(** [cv2.VideoCapture(video_path)] and [os.getcwd()] *)
Variable VideoCapture : string -> capture frame.
Variable cwd : string.

(** [process_video_file(params)] *)
Definition process_video_file (params : list pyval) (fs : filesystem frame)
  : filesystem frame * list message * result unit :=
  match params with
  | [video_path; base_output_dir; frame_rate; input_dir] =>
      match video_path, input_dir with
      | PStr video_path, PStr input_dir =>
          match relpath cwd video_path input_dir with
          | Raise e => (fs, [], Raise e)
          | Ok relative_path =>
              let sub_dirs := split "/" relative_path in
              match base_output_dir with
              | PStr base_output_dir =>
                  let output_dir := join_all base_output_dir (removelast sub_dirs) in
                  match frame_rate with
                  | PInt frame_rate =>
                      extract_frames frame video_path output_dir frame_rate
                        (VideoCapture video_path) fs
                  | PStr _ =>
                      (* extract_frames raises at [fps // frame_rate] *)
                      (fs, [ProcessingVideo (splitext (basename video_path)).1;
                            OutputDirectory output_dir], Raise TypeError)
                  end
              | PInt _ => (fs, [], Raise TypeError)
              end
          end
      | _, _ => (fs, [], Raise TypeError)
      end
  | _ => (fs, [], Raise ValueError)   (* the tuple does not unpack *)
  end.

(** [process_videos(input_dir, output_dir)], where [d] is the directory
    found at [input_dir] and [cpu_count] what [cpu_count()] returns;
    [Pool(n)] raises ValueError for [n < 1]. *)
Definition process_videos (cpu_count : Z) (input_dir : string) (d : directory)
    (output_dir : string) (fs : filesystem frame)
  : filesystem frame * list progress * result unit :=
  let video_files :=
    flat_map (fun '(root, dirs, files) =>
                map (fun filename =>
                       [PStr (join root filename); PStr output_dir; PStr input_dir])
                    (List.filter (fun filename => endswith filename ".avi") files))
             (os_walk input_dir d) in
  let num_cores := cpu_count - 1 in
  let out := [Scanning; Found (length video_files); UsingCores num_cores; Starting] in
  if num_cores <? 1 then (fs, out, Raise ValueError)
  else
    match pool_imap process_video_file video_files fs with
    | (fs', printed, Ok _) => (fs', out ++ map Worker printed ++ [Completed], Ok tt)
    | (fs', printed, Raise e) => (fs', out ++ map Worker printed, Raise e)
    end.

End Tasks.
End Videos2Frames.

Module Videos2Mp4.
Section Tasks.

Variable content : Type.
Variable transcode : content -> option content.
Variable partial_output : option content -> option content.
Variable cwd : string.

(** The output directory of lines 38-40. *)
Definition output_dir_of (video_path base_output_dir input_dir : string)
  : result string :=
  let* relative_path := relpath cwd video_path input_dir in
  let sub_dirs := split "/" relative_path in
  Ok (join_all base_output_dir (removelast sub_dirs)).

(** [process_video_file(params)] *)
Definition process_video_file (params : string * string * string)
    (fs : filesystem content) : filesystem content * result unit :=
  let '(video_path, base_output_dir, input_dir) := params in
  match output_dir_of video_path base_output_dir input_dir with
  | Raise e => (fs, Raise e)
  | Ok output_dir =>
      match convert_avi_to_mp4 content transcode partial_output
              video_path output_dir fs with
      | (fs', Ok mp4_video_path) => (fs', Ok tt)
      | (fs', Raise e) => (fs', Raise e)
      end
  end.

(** The tasks that [process_videos] builds (lines 61-65), where [d] is the
    directory found at [input_dir]. *)
Definition video_files (input_dir : string) (d : directory) (output_dir : string)
  : list (string * string * string) :=
  flat_map (fun '(root, dirs, files) =>
              map (fun filename => (join root filename, output_dir, input_dir))
                  (List.filter (fun filename => endswith filename ".avi") files))
           (os_walk input_dir d).

End Tasks.
End Videos2Mp4.

(** ** decreasing-data.py *)

(** What decreasing-data.py prints, and the exceptions of
    [shutil.copyfile] that end it. *)
Inductive report : Type :=
  | FileCopied (file_name destination_folder : string)  (* "File '...' copied to '...'" *)
  | CopyingCompleted                                    (* "Copying completed." *)
  | NumberOfCsvFiles (n : nat).
      (* "Number of CSV files in the destination folder: ..." *)

Inductive copyfile_error : Type :=
  | SameFileError
  | SourceNotFound.     (* FileNotFoundError *)

(** [shutil.copyfile(src, dst)]: raises when there is no file at [src],
    and when [src] and [dst] are the same file. *)
Definition shutil_copyfile {content : Type} (fs : filesystem content) (src dst : string)
  : filesystem content + copyfile_error :=
  match fs !! src with
  | None => inr SourceNotFound
  | Some c => if String.eqb src dst then inr SameFileError else inl (<[dst := c]> fs)
  end.

Section DecreasingData.

Variable content : Type.
(** [os.listdir(folder)] on a file system. *)
Variable listdir : filesystem content -> string -> list string.

(** Lines 18-23: the loop over [enumerate(csv_files)], from index [i]
    on. *)
Fixpoint copy_every_tenth (source_folder destination_folder : string) (i : Z)
    (csv_files : list string) (st : filesystem content * list report)
  : filesystem content * list report * option copyfile_error :=
  match csv_files with
  | [] => (st, None)
  | file_name :: rest =>
      if i mod 10 =? 0 then
        let source_file_path := join source_folder file_name in
        let destination_file_path := join destination_folder file_name in
        match shutil_copyfile st.1 source_file_path destination_file_path with
        | inl fs' =>
            copy_every_tenth source_folder destination_folder (i + 1) rest
              (fs', st.2 ++ [FileCopied file_name destination_folder])
        | inr e => (st, Some e)
        end
      else copy_every_tenth source_folder destination_folder (i + 1) rest st
  end.

(** The script, from line 15 on: the file system and the lines printed,
    and the exception that ended it, if any. *)
Definition decreasing_data (source_folder destination_folder : string)
    (fs : filesystem content)
  : filesystem content * list report * option copyfile_error :=
  let csv_files := List.filter (fun file => endswith file ".csv")
                               (listdir fs source_folder) in
  match copy_every_tenth source_folder destination_folder 0 csv_files (fs, []) with
  | (st, Some e) => (st, Some e)
  | ((fs', out), None) =>
      let copied_csv_files := List.filter (fun file => endswith file ".csv")
                                          (listdir fs' destination_folder) in
      (fs', out ++ [CopyingCompleted; NumberOfCsvFiles (length copied_csv_files)], None)
  end.

End DecreasingData.

(** ** Sample inputs, continued *)


(** Raw logs that do not parse: a '#LOG' line without a name, an entry of
    twenty-one fields, and a header that names the latitude otherwise. *)
Definition sample_lines_unnamed : list string := sample_lines ++ ["#LOG"].

Definition sample_lines_long : list string :=
  sample_header ++ [sample_entry "2024" +:+ ", extra"].

Definition sample_lines_without_lat : list string :=
  map (fun line => if String.eqb line "#LOG rov.position.lat"
                   then "#LOG rov.position.latitude" else line)
      sample_lines.

(** A directory of depth images, one of them in a sub-directory, and a
    file system that holds two of the three. *)
Definition sample_directory : directory :=
  Dir "review" ["CFE_a_0001_12.5m.jpg"; "CFE_b_0002_13.0m.jpg"; "notes.txt"]
      [Dir "deep" ["CFE_c_0003_40.0m.png"] []].

Definition sample_review_files : gmap string nat :=
  <["/review/CFE_b_0002_13.0m.jpg" := 2%nat]>
    (<["/review/deep/CFE_c_0003_40.0m.png" := 3%nat]>
       (<["/review/notes.txt" := 0%nat]> ∅)).

(** The right arrow, a mark, the left arrow twice, a mark, and the window
    is closed. *)
Definition sample_events : list (list event) :=
  [[KEYDOWN K_RIGHT; KEYDOWN K_UP]; []; [KEYDOWN K_LEFT; other_event];
   [KEYDOWN K_LEFT; KEYDOWN K_UP; KEYDOWN K_UP; QUIT]; [KEYDOWN K_UP]].

(** A file system with one video. *)
Definition sample_videos : gmap string nat := <["/in/cast1.avi" := 7%nat]> ∅.

(** A tree of videos, two levels deep. *)
Definition sample_video_tree : directory :=
  Dir "RAW" ["cast1.avi"; "notes.txt"]
      [Dir "day1" ["cast2.avi"] [Dir "am" ["cast3.avi"; "cast3.log"] []];
       Dir "day2" [] []].

(** A folder of twelve CSV files and a text file, and a listing of the
    files of a folder, in the order in which the map holds them. *)
Definition sample_csv_folder : gmap string nat :=
  list_to_map
    (imap (fun i name => ("/data/csv/" +:+ name, i))
          ["d00.csv"; "d01.csv"; "d02.csv"; "d03.csv"; "d04.csv"; "d05.csv";
           "d06.csv"; "d07.csv"; "d08.csv"; "d09.csv"; "d10.csv"; "d11.csv";
           "notes.txt"]).

Definition sample_listdir (fs : gmap string nat) (folder : string) : list string :=
  omap (fun p : string =>
          if startswith p (folder +:+ "/") then
            let name := sdrop (len folder + 1) p in
            if contains sep name then None else Some name
          else None)
       (map fst (map_to_list fs)).
(* ===================================================================== *)
(** * Part II: lemmas and theorems                                         *)
(* ===================================================================== *)

(** ** Facts about results and tables *)

Lemma mapM_Ok {A B} (f : A -> result B) l : forall ys,
  Forall2 (fun x y => f x = Ok y) l ys -> mapM f l = Ok ys.
Proof.
  induction l as [|x l IH]; intros ys Hall.
  - by apply Forall2_nil_inv_l in Hall as ->.
  - apply Forall2_cons_inv_l in Hall as (y & ys' & Hy & Hall & ->).
    cbn [mapM]. rewrite Hy. cbn [bind]. rewrite (IH _ Hall). done.
Qed.

Lemma mapM_total {A B} (f : A -> result B) l :
  Forall (fun x => exists y, f x = Ok y) l ->
  exists ys, mapM f l = Ok ys /\ Forall2 (fun x y => f x = Ok y) l ys.
Proof.
  induction 1 as [|x l [y Hy] _ (ys & Hys & Hall)].
  - exists []. split; [done|constructor].
  - exists (y :: ys). split; [|by constructor].
    cbn [mapM]. by rewrite Hy, Hys.
Qed.

Lemma zip_with_map_map {A B C D} (f : B -> C -> D) (g : A -> B) (h : A -> C) l :
  zip_with f (map g l) (map h l) = map (fun x => f (g x) (h x)) l.
Proof. induction l as [|x l IH]; [done|]. cbn. by rewrite IH. Qed.

Lemma mask_rows_map {A} (p : A -> bool) l :
  mask_rows (map p l) l = List.filter p l.
Proof. induction l as [|x l IH]; [done|]. cbn. rewrite IH. by destruct (p x). Qed.

Lemma filter_filter {A} (p q : A -> bool) l :
  List.filter p (List.filter q l) = List.filter (fun x => q x && p x) l.
Proof.
  induction l as [|x l IH]; [done|]. cbn.
  destruct (q x); cbn; rewrite IH; done.
Qed.

Lemma col_index_Some c cols :
  c ∈ cols -> exists i, col_index c cols = Some i.
Proof.
  induction cols as [|c' cols IH]; intros Hc; [by apply elem_of_nil in Hc|].
  cbn [col_index]. destruct (String.eqb_spec c' c) as [->|Hne]; [by eexists|].
  apply elem_of_cons in Hc as [->|Hc]; [done|].
  destruct (IH Hc) as [i ->]. by eexists.
Qed.

Lemma col_index_lookup c cols i :
  col_index c cols = Some i -> cols !! i = Some c.
Proof.
  revert i. induction cols as [|c' cols IH]; intros i; [done|].
  cbn [col_index]. destruct (String.eqb_spec c' c) as [->|Hne].
  - by intros [= <-].
  - destruct (col_index c cols) as [j|]; [|done]. intros [= <-]. by apply IH.
Qed.

Lemma col_index_None c cols : col_index c cols = None -> c ∉ cols.
Proof.
  intros Hn Hc. destruct (col_index_Some c cols Hc) as [i Hi]. congruence.
Qed.

Lemma cell_at_insert_eq i v (row : list cell) :
  (i < length row)%nat -> cell_at i (<[i := v]> row) = v.
Proof.
  intros Hi. unfold cell_at. rewrite nth_lookup, list_lookup_insert_eq; done.
Qed.





Lemma max_list_same n l :
  l <> [] -> Forall (fun x => x = n) l -> max_list l = n.
Proof.
  intros Hne Hall. induction Hall as [|x l -> _ IH]; [done|].
  cbn [max_list]. destruct l as [|y l].
  - cbn [max_list]. apply Nat.max_0_r.
  - rewrite IH by done. apply Nat.max_id.
Qed.

Lemma fill_row_full width row : length row = width -> fill_row width row = row.
Proof.
  intros <-. unfold fill_row. rewrite Nat.sub_diag. cbn. apply app_nil_r.
Qed.

Lemma DataFrame_of_rows_rectangular data cols :
  Forall (fun row => length row = length cols) data ->
  DataFrame_of_rows data cols = Ok {| columns := cols; rows := data |}.
Proof.
  intros Hall. unfold DataFrame_of_rows. destruct data as [|row data]; [done|].
  set (rows := row :: data) in *.
  rewrite (max_list_same (length cols)).
  - rewrite Nat.eqb_refl. do 2 f_equal.
    rewrite <- (map_id rows) at 2. apply map_ext_Forall.
    eapply Forall_impl; [exact Hall|]. intros r Hr. by apply fill_row_full.
  - done.
  - by apply Forall_fmap.
Qed.

(** ** Facts about Python strings *)

Lemma str_app_cons c a b : String c a +:+ b = String c (a +:+ b).
Proof. reflexivity. Qed.

Lemma str_app_nil_l s : "" +:+ s = s.
Proof. reflexivity. Qed.

Lemma str_app_nil_r s : s +:+ "" = s.
Proof. induction s as [|c s IH]; [done|]. by rewrite str_app_cons, IH. Qed.

Lemma str_app_assoc a b c : (a +:+ b) +:+ c = a +:+ b +:+ c.
Proof. induction a as [|x a IH]; [done|]. by rewrite !str_app_cons, IH. Qed.

Lemma str_len_app a b : len (a +:+ b) = (len a + len b)%nat.
Proof. induction a as [|x a IH]; [done|]. rewrite str_app_cons. cbn. by rewrite IH. Qed.

Lemma str_app_inv_head a b c : a +:+ b = a +:+ c -> b = c.
Proof. induction a as [|x a IH]; [done|]. rewrite !str_app_cons. intros [= H]. auto. Qed.

Lemma sdrop_app a b : sdrop (len a) (a +:+ b) = b.
Proof. induction a as [|x a IH]; [by destruct b|]. by rewrite str_app_cons. Qed.

Lemma stake_app a b : stake (len a) (a +:+ b) = a.
Proof.
  induction a as [|x a IH]; [by destruct b|].
  rewrite str_app_cons. cbn. by rewrite IH.
Qed.

Lemma stake_sdrop n s : stake n s +:+ sdrop n s = s.
Proof.
  revert s. induction n as [|n IH]; intros [|c s]; try done.
  cbn [stake sdrop]. by rewrite str_app_cons, IH.
Qed.

Lemma len_stake n s : (n <= len s)%nat -> len (stake n s) = n.
Proof.
  revert s. induction n as [|n IH]; intros [|c s] Hn; cbn in *; try done; try lia.
  rewrite IH; lia.
Qed.

Lemma len_sdrop n s : len (sdrop n s) = (len s - n)%nat.
Proof. revert s. induction n as [|n IH]; intros [|c s]; cbn; try done; lia. Qed.

Lemma sdrop_0 s : sdrop 0 s = s.
Proof. by destruct s. Qed.

Lemma sdrop_all s n : (len s <= n)%nat -> sdrop n s = "".
Proof.
  revert s. induction n as [|n IH]; intros [|c s] Hn; cbn in *; try done; try lia.
  apply IH. lia.
Qed.

Lemma str_eqb_eq a b : String.eqb a b = true <-> a = b.
Proof. apply String.eqb_eq. Qed.

Lemma slice_last_app a suf : slice_last (len suf) (a +:+ suf) = suf.
Proof.
  unfold slice_last. rewrite str_len_app.
  replace (len a + len suf - len suf)%nat with (len a) by lia.
  apply sdrop_app.
Qed.

Lemma endswith_app a suf : endswith (a +:+ suf) suf = true.
Proof.
  unfold endswith. rewrite slice_last_app, String.eqb_refl, str_len_app.
  rewrite andb_true_r. apply Nat.leb_le. lia.
Qed.

Lemma endswith_inv s suf :
  endswith s suf = true -> exists a, s = a +:+ suf.
Proof.
  unfold endswith, slice_last. intros [_ H%str_eqb_eq]%andb_true_iff.
  exists (stake (len s - len suf) s).
  rewrite <- (stake_sdrop (len s - len suf) s) at 1. by rewrite H.
Qed.

Lemma contains_app c a b : contains c (a +:+ b) = contains c a || contains c b.
Proof.
  induction a as [|x a IH]; [done|].
  rewrite str_app_cons. cbn. by rewrite IH, orb_assoc.
Qed.

Lemma rfind_bounds c s : -1 <= rfind c s < Z.of_nat (len s).
Proof.
  induction s as [|a s IH]; cbn [rfind len]; [lia|].
  destruct (Z.leb_spec 0 (rfind c s)); [lia|].
  destruct (Ascii.eqb a c); lia.
Qed.

Lemma rfind_absent c s : contains c s = false -> rfind c s = -1.
Proof.
  induction s as [|a s IH]; cbn [rfind contains]; [done|].
  intros [Ha Hs]%orb_false_iff. rewrite (IH Hs), Ha. done.
Qed.

Lemma rfind_present c s : contains c s = true -> 0 <= rfind c s.
Proof.
  induction s as [|a s IH]; cbn [rfind contains]; [done|].
  destruct (Z.leb_spec 0 (rfind c s)) as [H|H]; [lia|].
  destruct (Ascii.eqb a c); [lia|]. cbn. intros Hs. specialize (IH Hs). lia.
Qed.

Lemma rfind_app_absent c a b :
  contains c b = false -> rfind c (a +:+ b) = rfind c a.
Proof.
  intros Hb. induction a as [|x a IH].
  - by rewrite str_app_nil_l, !rfind_absent.
  - rewrite str_app_cons. cbn [rfind]. by rewrite IH.
Qed.

Lemma rfind_app_present c a b :
  contains c b = true -> rfind c (a +:+ b) = Z.of_nat (len a) + rfind c b.
Proof.
  intros Hb. induction a as [|x a IH].
  - rewrite str_app_nil_l. cbn [len]. lia.
  - rewrite str_app_cons. cbn [rfind len].
    rewrite IH. pose proof (rfind_present c b Hb).
    destruct (Z.leb_spec 0 (Z.of_nat (len a) + rfind c b)); lia.
Qed.

Lemma rfind_cons_absent c b : contains c b = false -> rfind c (String c b) = 0.
Proof. intros Hb. cbn [rfind]. rewrite (rfind_absent _ _ Hb), Ascii.eqb_refl. done. Qed.

(** The last occurrence splits the string. *)
Lemma rfind_split c s :
  0 <= rfind c s ->
  exists a b, s = a +:+ String c b /\ Z.of_nat (len a) = rfind c s /\
              contains c b = false.
Proof.
  induction s as [|x s IH]; cbn [rfind]; [lia|].
  destruct (Z.leb_spec 0 (rfind c s)) as [H|H].
  - intros _. destruct (IH H) as (a & b & -> & Hlen & Hb).
    exists (String x a), b. rewrite str_app_cons. cbn [len].
    split; [done|]. split; [lia|done].
  - destruct (Ascii.eqb_spec x c) as [->|Hne]; [|lia]. intros _.
    exists "", s. split; [done|]. split; [done|].
    destruct (contains c s) eqn:Hs; [|done].
    apply rfind_present in Hs. lia.
Qed.

Lemma contains_cons_same c s : contains c (String c s) = true.
Proof. cbn. by rewrite Ascii.eqb_refl. Qed.

(** ** Facts about os.path *)

(** A path is its head, up to and including the last slash, followed by
    its base name, which has no slash. *)
Lemma basename_split p :
  exists head, p = head +:+ basename p /\
    contains sep (basename p) = false /\
    (head = "" \/ exists a, head = a +:+ String sep "").
Proof.
  unfold basename. destruct (Z.leb_spec 0 (rfind sep p)) as [H|H].
  - destruct (rfind_split sep p H) as (a & b & -> & Hlen & Hb).
    rewrite <- Hlen.
    replace (Z.to_nat (Z.of_nat (len a) + 1)) with (len (a +:+ String sep "")).
    2:{ rewrite str_len_app. cbn. lia. }
    replace (a +:+ String sep b) with ((a +:+ String sep "") +:+ b)
      by (by rewrite str_app_assoc).
    rewrite sdrop_app. exists (a +:+ String sep ""). split; [done|].
    split; [done|]. right. by exists a.
  - pose proof (rfind_bounds sep p).
    replace (rfind sep p) with (-1) by lia. cbn. rewrite sdrop_0.
    exists "". split; [done|]. split; [|by left].
    destruct (contains sep p) eqn:Hc; [|done]. apply rfind_present in Hc. lia.
Qed.

Lemma basename_plain f : contains sep f = false -> basename f = f.
Proof. intros Hf. unfold basename. rewrite (rfind_absent _ _ Hf). cbn. apply sdrop_0. Qed.

Lemma basename_app_sep a f :
  contains sep f = false -> basename (a +:+ String sep f) = f.
Proof.
  intros Hf. unfold basename.
  rewrite rfind_app_present by apply contains_cons_same.
  rewrite (rfind_cons_absent _ _ Hf).
  replace (Z.to_nat (Z.of_nat (len a) + 0 + 1)) with (len (a +:+ String sep ""))
    by (rewrite str_len_app; cbn; lia).
  replace (a +:+ String sep f) with ((a +:+ String sep "") +:+ f)
    by (by rewrite str_app_assoc).
  apply sdrop_app.
Qed.

Lemma startswith_sep_contains f :
  startswith f (String sep "") = true -> contains sep f = true.
Proof.
  unfold startswith. destruct f as [|c f]; [done|].
  cbn [String.prefix contains].
  destruct (Ascii.ascii_dec _ c) as [E|E]; intros H; [|discriminate].
  subst c. by rewrite Ascii.eqb_refl.
Qed.

(** The three shapes of a joined path. *)
Lemma join_cases d f :
  contains sep f = false ->
  join d f = f /\ d = "" \/
  (exists a, d = a +:+ String sep "" /\ join d f = a +:+ String sep f) \/
  (d <> "" /\ endswith d (String sep "") = false /\ join d f = d +:+ String sep f).
Proof.
  intros Hf. unfold join.
  destruct (startswith f (String sep "")) eqn:Hs.
  { apply startswith_sep_contains in Hs. congruence. }
  destruct (String.eqb_spec d "") as [->|Hd]; [by left|].
  cbn [orb]. destruct (endswith d (String sep "")) eqn:He.
  - right. left. apply endswith_inv in He as [a ->]. exists a. split; [done|].
    by rewrite str_app_assoc.
  - right. right. done.
Qed.

Lemma basename_join d f : contains sep f = false -> basename (join d f) = f.
Proof.
  intros Hf. destruct (join_cases d f Hf) as [[-> _]|[(a & _ & ->)|(_ & _ & ->)]].
  - by apply basename_plain.
  - by apply basename_app_sep.
  - by apply basename_app_sep.
Qed.

Lemma join_inj d f1 f2 :
  contains sep f1 = false -> contains sep f2 = false ->
  join d f1 = join d f2 -> f1 = f2.
Proof.
  intros H1 H2 Heq.
  rewrite <- (basename_join d f1 H1), Heq. by apply basename_join.
Qed.

(** *** Trailing slashes *)








Lemma all_char_last c s :
  all_char c s = true -> s <> "" -> exists a, s = a +:+ String c "".
Proof.
  induction s as [|x s IH]; [done|]. cbn [all_char].
  intros [Hx%Ascii.eqb_eq Hs]%andb_true_iff _. subst x.
  destruct s as [|y s]; [by exists ""|].
  destruct (IH Hs) as [a Ha]; [done|]. exists (String c a).
  by rewrite str_app_cons, <- Ha.
Qed.

(** *** Directory names *)





(** *** Extensions *)

Lemma has_non_dot_app a x : has_non_dot (len a) (a +:+ x) = has_non_dot (len a) a.
Proof.
  induction a as [|c a IH]; [by destruct x|].
  rewrite str_app_cons. cbn [len has_non_dot]. by rewrite IH.
Qed.


(** The two parts that [splitext] gives for a file name make up the name,
    and a non-empty extension is a dot followed by characters other than
    the dot. *)
Lemma splitext_split b n e :
  contains sep b = false -> splitext b = (n, e) ->
  b = n +:+ e /\
  (e <> "" -> exists e', e = String "." e' /\ contains "." e' = false).
Proof.
  intros Hb. unfold splitext. rewrite (rfind_absent _ _ Hb).
  destruct ((-1 <? rfind "." b) && _) eqn:Hcond.
  - apply andb_true_iff in Hcond as [Hdot%Z.ltb_lt _].
    destruct (rfind_split "." b) as (a & e' & Hsplit & Hlen & He'); [lia|].
    rewrite <- Hlen, Nat2Z.id. intros [= <- <-].
    split; [by rewrite stake_sdrop|]. intros _. exists e'.
    rewrite Hsplit at 1. by rewrite sdrop_app.
  - intros [= <- <-]. split; [by rewrite str_app_nil_r|done].
Qed.

Lemma splitext_app a e' :
  contains sep a = false -> contains sep e' = false -> contains "." e' = false ->
  has_non_dot (len a) a = true ->
  splitext (a +:+ String "." e') = (a, String "." e').
Proof.
  intros Ha He'sep He'dot Hnd. unfold splitext.
  rewrite rfind_absent.
  2:{ rewrite contains_app, Ha. cbn [contains orb]. by rewrite He'sep. }
  rewrite rfind_app_present by apply contains_cons_same.
  rewrite (rfind_cons_absent _ _ He'dot).
  replace (Z.of_nat (len a) + 0 - (-1 + 1)) with (Z.of_nat (len a)) by lia.
  replace (Z.of_nat (len a) + 0) with (Z.of_nat (len a)) by lia.
  rewrite Nat2Z.id. cbn [Z.add Z.to_nat]. rewrite sdrop_0, has_non_dot_app, Hnd.
  destruct (Z.ltb_spec (-1) (Z.of_nat (len a))); [|lia]. cbn [andb].
  by rewrite stake_app, sdrop_app.
Qed.













Lemma in_window_ensure_utc shift x :
  in_window shift x -> in_window shift (ensure_utc x).
Proof. by destruct x as [|ns [tz|]]. Qed.

Lemma add_seconds_in_window defase x :
  in_window (defase * ns_per_s) x ->
  exists y, add_seconds (ensure_utc x) defase = Ok y /\
            np_value y = Some (instant_of x + defase * ns_per_s).
Proof.
  destruct x as [|ns tz]; [intros []|]. cbn [in_window]. intros Hw.
  assert (Hok : (Timestamp_min <=? ns + defase * ns_per_s)
                && (ns + defase * ns_per_s <=? Timestamp_max) = true).
  { unfold Timestamp_min, Timestamp_max. apply andb_true_iff.
    split; apply Z.leb_le; lia. }
  destruct tz as [tz|]; cbn [ensure_utc tzinfo utc_localize add_seconds];
    rewrite Hok; eexists; (split; [reflexivity|done]).
Qed.



Lemma adjusted_in_window defase df2 :
  Forall (fun r => in_window (defase * ns_per_s) (iso_datetime r)) df2 ->
  exists ys,
    mapM (fun r => add_seconds (iso_datetime r) defase) (map img_in_utc df2) = Ok ys /\
    Forall2 (fun img y =>
               np_value y = Some (instant_of (iso_datetime img) + defase * ns_per_s))
            df2 ys.
Proof.
  induction 1 as [|img df2 Himg _ (ys & Hys & Hall)].
  - exists []. split; [done|constructor].
  - destruct (add_seconds_in_window _ _ Himg) as (y & Hy & Hv).
    exists (y :: ys). split.
    + cbn [map mapM img_in_utc iso_datetime]. rewrite Hy, Hys. done.
    + by constructor.
Qed.















(** ** choosing-data.py: the image filter *)

Lemma len_lower s : len (lower s) = len s.
Proof. induction s as [|c s IH]; [done|]. cbn. by rewrite IH. Qed.

Lemma sdrop_lower n s : lower (sdrop n s) = sdrop n (lower s).
Proof. revert s. induction n as [|n IH]; intros [|c s]; try done. cbn. apply IH. Qed.

Lemma slice_last_lower n s : lower (slice_last n s) = slice_last n (lower s).
Proof. unfold slice_last. by rewrite sdrop_lower, len_lower. Qed.

(** A name whose extension has five characters never passes the test of
    line 32: the test wants an ['m'] where such a name has the dot. *)
Lemma is_depth_image_five_character_extension file :
  endswith (lower file) ".jpeg" = true \/ endswith (lower file) ".tiff" = true ->
  is_depth_image file = false.
Proof.
  intros Hext. unfold is_depth_image.
  destruct (endswith file ("m" +:+ slice_last 4 file)) eqn:Hm;
    [|by rewrite andb_false_r].
  exfalso.
  assert (Hlen : (5 <= len file)%nat).
  { destruct Hext as [H|H]; unfold endswith in H;
      apply andb_true_iff in H as [H%Nat.leb_le _];
      rewrite len_lower in H; exact H. }
  assert (Hfive : slice_last 5 file = "m" +:+ slice_last 4 file).
  { unfold endswith in Hm. apply andb_true_iff in Hm as [_ Hm%String.eqb_eq].
    rewrite str_len_app in Hm. unfold slice_last at 2 in Hm.
    rewrite len_sdrop in Hm.
    replace (len "m" + (len file - (len file - 4)))%nat with 5%nat in Hm
      by (cbn; lia).
    exact Hm. }
  apply (f_equal lower) in Hfive. rewrite slice_last_lower in Hfive.
  destruct Hext as [H|H]; unfold endswith in H;
    apply andb_true_iff in H as [_ H%String.eqb_eq];
    cbn [len] in H; rewrite H in Hfive; discriminate Hfive.
Qed.

(** C6.  The filter of [get_all_images] drops the depth-annotated files
    whose extension has five characters: no file name ending in [.jpeg] or
    [.tiff], in any case of letters, passes the test of line 32; in a
    directory that holds depth-annotated [.jpeg], [.tiff], [.jpg] and
    [.PNG] images whose names start with CFE, only the [.jpg] and the
    [.PNG] are returned. *)
Theorem get_all_images_drops_jpeg_and_tiff :
  (forall file,
     endswith (lower file) ".jpeg" = true \/ endswith (lower file) ".tiff" = true ->
     is_depth_image file = false) /\
  get_all_images "/data"
    (Dir "data" ["CFE_cast1_0001_12.5m.jpeg"; "CFE_cast1_0002_12.5m.tiff";
                 "CFE_cast1_0003_12.5m.jpg"]
         [Dir "deep" ["CFE_cast2_0001_40.0m.JPEG"; "CFE_cast2_0002_40.0m.PNG"] []])
  = ["/data/CFE_cast1_0003_12.5m.jpg"; "/data/deep/CFE_cast2_0002_40.0m.PNG"].
Proof.
  split; [exact is_depth_image_five_character_extension|].
  vm_compute. reflexivity.
Qed.

(** ** videos2mp4.py: conversions never touch an existing file *)

Section Mp4Facts.

Context {content : Type}.
Variable transcode : content -> option content.
Variable partial_output : option content -> option content.

Local Abbreviation convert := (convert_avi_to_mp4 content transcode partial_output).
Local Abbreviation run_all := (convert_all content transcode partial_output).

Lemma path_exists_true (fs : gmap string content) p :
  path_exists content fs p = true <-> is_Some (fs !! p).
Proof. unfold path_exists. apply bool_decide_eq_true. Qed.

Lemma path_exists_false (fs : gmap string content) p :
  path_exists content fs p = false <-> fs !! p = None.
Proof.
  unfold path_exists. by rewrite bool_decide_eq_false, eq_None_not_Some.
Qed.

(** When the target exists the call returns its path and leaves the file
    system as it is. *)
Lemma convert_skips_existing video_path output_dir (fs : gmap string content) :
  is_Some (fs !! output_mp4_of video_path output_dir) ->
  convert video_path output_dir fs = (fs, Ok (output_mp4_of video_path output_dir)).
Proof.
  intros H%path_exists_true. unfold convert_avi_to_mp4. by rewrite H.
Qed.

(** The three ways a call can go. *)
Lemma convert_cases video_path output_dir (fs : gmap string content) :
  let output_mp4 := output_mp4_of video_path output_dir in
  is_Some (fs !! output_mp4) /\ (convert video_path output_dir fs).1 = fs \/
  fs !! output_mp4 = None /\
    (exists c, (convert video_path output_dir fs).1 = <[output_mp4 := c]> fs) \/
  fs !! output_mp4 = None /\ (convert video_path output_dir fs).1 = fs /\
    fs !! video_path ≫= transcode = None /\ partial_output (fs !! video_path) = None.
Proof.
  intros output_mp4. unfold convert_avi_to_mp4. fold output_mp4.
  destruct (path_exists content fs output_mp4) eqn:Hex.
  { left. by apply path_exists_true in Hex. }
  apply path_exists_false in Hex. right. unfold ffmpeg_run.
  destruct (fs !! video_path ≫= transcode) as [mp4|] eqn:Ht.
  { left. split; [done|]. by exists mp4. }
  destruct (partial_output (fs !! video_path)) as [junk|] eqn:Hp.
  { left. split; [done|]. by exists junk. }
  right. done.
Qed.

(** A call only ever adds the target, and only when it is absent. *)
Lemma convert_extends video_path output_dir (fs : gmap string content) :
  fs ⊆ (convert video_path output_dir fs).1.
Proof.
  destruct (convert_cases video_path output_dir fs)
    as [[_ ->]|[[Hnone [c ->]]|(_ & -> & _)]]; [done| |done].
  by apply insert_subseteq.
Qed.

Lemma convert_twice video_path output_dir (fs : gmap string content) :
  (convert video_path output_dir (convert video_path output_dir fs).1).1
  = (convert video_path output_dir fs).1.
Proof.
  destruct (convert_cases video_path output_dir fs)
    as [[Hex ->]|[[Hnone [c ->]]|(Hnone & -> & Ht & Hp)]].
  - by rewrite convert_skips_existing.
  - rewrite convert_skips_existing; [done|]. rewrite lookup_insert_eq. by eexists.
  - unfold convert_avi_to_mp4, ffmpeg_run.
    apply path_exists_false in Hnone. by rewrite Hnone, Ht, Hp.
Qed.

Lemma convert_all_extends inputs : forall fs : gmap string content,
  fs ⊆ run_all inputs fs.
Proof.
  unfold convert_all.
  induction inputs as [|[video_path output_dir] inputs IH]; intros fs; [done|].
  cbn [fold_left]. etrans; [|apply IH]. apply convert_extends.
Qed.

(** C10.  [convert_avi_to_mp4] is idempotent on its output.  When the
    target MP4 exists the call returns its path and leaves the file system
    as it is; a call never changes a file that exists; a second call with
    the same arguments leaves the file system as the first call left it;
    and a second run over the same inputs keeps every file that the first
    run left, the MP4 files it produced among them. *)
Theorem convert_avi_to_mp4_keeps_existing_output
    video_path output_dir inputs (fs : gmap string content) (mp4 : content) :
  let output_mp4 := output_mp4_of video_path output_dir in
  convert video_path output_dir (<[output_mp4 := mp4]> fs)
    = (<[output_mp4 := mp4]> fs, Ok output_mp4) /\
  fs ⊆ (convert video_path output_dir fs).1 /\
  (convert video_path output_dir (convert video_path output_dir fs).1).1
    = (convert video_path output_dir fs).1 /\
  run_all inputs fs ⊆ run_all inputs (run_all inputs fs).
Proof.
  intros output_mp4. split; [|split; [|split]].
  - apply convert_skips_existing. fold output_mp4.
    rewrite lookup_insert_eq. by eexists.
  - apply convert_extends.
  - apply convert_twice.
  - apply convert_all_extends.
Qed.

End Mp4Facts.

(** ** videos2frames.py: which frames are saved *)

Section FramesFacts.

Context {frame : Type}.

Lemma multiples_from_cons start interval (fr : frame) l :
  multiples_from frame start interval (fr :: l)
  = (if Z.of_nat start mod interval =? 0 then [fr] else [])
    ++ multiples_from frame (S start) interval l.
Proof.
  unfold multiples_from. rewrite imap_cons. cbn [List.filter fst].
  rewrite Nat.add_0_r.
  rewrite (imap_ext _ (fun i fr => ((S start + i)%nat, fr))).
  2:{ intros i x _. cbn. f_equal. lia. }
  by destruct (Z.of_nat start mod interval =? 0).
Qed.

Lemma save_from_cons first video_name output_dir (fr : frame) saved fs :
  save_from frame first video_name output_dir (fr :: saved) fs
  = save_from frame (S first) video_name output_dir saved
      (<[join output_dir (frame_name video_name first) := fr]> fs).
Proof.
  unfold save_from. rewrite imap_cons. cbn [fold_left fst snd].
  rewrite Nat.add_0_r. f_equal.
  apply imap_ext. intros i x _. cbn. f_equal. lia.
Qed.

(** The loop with a non-zero interval runs to the end and saves the frames
    at the multiples of the interval. *)
Lemma frame_loop_nonzero video_name output_dir interval l :
  interval <> 0 ->
  forall fs k n,
    frame_loop frame video_name output_dir interval l
      {| written := fs; count := Z.of_nat k; saved_frames := n |}
    = ({| written := save_from frame n video_name output_dir
                       (multiples_from frame k interval l) fs;
          count := Z.of_nat (k + length l);
          saved_frames := n + length (multiples_from frame k interval l) |},
       Ok tt).
Proof.
  intros Hi. induction l as [|fr l IH]; intros fs k n.
  - cbn. by rewrite !Nat.add_0_r.
  - cbn [frame_loop count written saved_frames]. unfold py_mod.
    destruct (Z.eqb_spec interval 0) as [|_]; [done|].
    rewrite multiples_from_cons.
    destruct (Z.of_nat k mod interval =? 0);
      cbn [count written saved_frames];
      replace (Z.of_nat k + 1) with (Z.of_nat (S k)) by lia;
      rewrite IH; cbn [app length].
    + rewrite save_from_cons. do 2 f_equal; lia.
    + do 2 f_equal; lia.
Qed.

(** With a zero interval the first frame read raises. *)
Lemma frame_loop_zero video_name output_dir (fr : frame) l st :
  frame_loop frame video_name output_dir 0 (fr :: l) st
  = (st, Raise ZeroDivisionError).
Proof. reflexivity. Qed.

Lemma zero_interval fps frame_rate : 0 <= fps < frame_rate -> fps / frame_rate = 0.
Proof. intros H. by apply Z.div_small. Qed.

(** C9, as amended.  [extract_frames] takes as interval the integer
    quotient of the frame rate of the video by the requested [frame_rate].
    With a non-zero interval it saves, under successive numbers, the
    frames read whose index is a multiple of the interval, and returns.
    When the frame rate of the video is below the requested one the
    interval is zero; then, if a first frame is read, the modulo raises
    ZeroDivisionError on it, and if no frame is read (the file could not
    be opened or has no frame) the call returns; either way no frame is
    saved. *)
Theorem extract_frames_sampling
    video_path output_dir frame_rate (cap : capture frame) (fs : gmap string frame) :
  frame_rate <> 0 ->
  let frame_interval := fps frame cap / frame_rate in
  let video_name := (splitext (basename video_path)).1 in
  let saved := multiples_of frame frame_interval (delivered frame cap) in
  (frame_interval <> 0 ->
   extract_frames frame video_path output_dir frame_rate cap fs
   = (save_all frame video_name output_dir saved fs,
      [ProcessingVideo video_name; OutputDirectory output_dir;
       ExtractionCompleted video_name (length saved)],
      Ok tt)) /\
  (0 <= fps frame cap < frame_rate -> frame_interval = 0) /\
  (frame_interval = 0 -> delivered frame cap <> [] ->
   extract_frames frame video_path output_dir frame_rate cap fs
   = (fs, [ProcessingVideo video_name; OutputDirectory output_dir],
      Raise ZeroDivisionError)) /\
  (frame_interval = 0 -> delivered frame cap = [] ->
   extract_frames frame video_path output_dir frame_rate cap fs
   = (fs, [ProcessingVideo video_name; OutputDirectory output_dir;
           ExtractionCompleted video_name 0],
      Ok tt)).
Proof.
  intros Hrate frame_interval video_name saved.
  assert (Hdiv : py_floordiv (fps frame cap) frame_rate = Ok frame_interval).
  { unfold py_floordiv. by destruct (Z.eqb_spec frame_rate 0). }
  split; [|split; [|split]].
  - intros Hi. unfold extract_frames. rewrite Hdiv. fold video_name.
    unfold saved, multiples_of, save_all, delivered.
    destruct (isOpened frame cap).
    + rewrite (frame_loop_nonzero video_name output_dir frame_interval _ Hi fs 0 0).
      done.
    + done.
  - apply zero_interval.
  - intros Hz Hne. unfold extract_frames. rewrite Hdiv, Hz. fold video_name.
    unfold delivered in Hne. destruct (isOpened frame cap); [|done].
    destruct (frames frame cap) as [|fr l]; [done|].
    by rewrite frame_loop_zero.
  - intros Hz He. unfold extract_frames. rewrite Hdiv, Hz. fold video_name.
    unfold delivered in He. destruct (isOpened frame cap); [|done].
    by rewrite He.
Qed.

End FramesFacts.

(** ** matchdepth.py: [filter_time_and_pressure_data] *)

Section FilterFacts.

Variable float_of_str : string -> option pyfloat.

Local Abbreviation filter_data := (filter_time_and_pressure_data float_of_str).

Lemma filter_columns_true_raises df :
  filter_data df true = Raise NameError.
Proof. reflexivity. Qed.

Lemma get_column_Some df c i :
  col_index c (columns df) = Some i ->
  get_column df c = Ok (map (cell_at i) (rows df)).
Proof. intros H. unfold get_column. by rewrite H. Qed.

Lemma mask_rows_values {A B} (f : A -> result B) (g : B -> bool) l values :
  Forall2 (fun x y => f x = Ok y) l values ->
  mask_rows (map g values) l
  = List.filter (fun x => match f x with Ok y => g y | Raise _ => false end) l.
Proof.
  induction 1 as [|x y l values Hx _ IH]; [done|].
  cbn [map mask_rows List.filter]. by rewrite Hx, IH.
Qed.

(** C8.  [filter_time_and_pressure_data] raises NameError whenever it is
    called with [filter_columns=True], whatever the table.  With
    [filter_columns=False], on a table that has the two pressure columns and
    whose ROV pressures, sentinels apart, read as numbers, it returns the
    table of the rows in which neither pressure is 'NO_PUB' or 'NO_PROV' and
    the ROV pressure, read as a number, is strictly positive. *)
Theorem filter_time_and_pressure_data_total_only_without_columns
    (df : DataFrame) (ci ri : nat) :
  df_wf df ->
  col_index "rov_ctd_pressure" (columns df) = Some ci ->
  col_index "rov_pressure" (columns df) = Some ri ->
  Forall (fun row =>
            isin sentinels (cell_at ci row) = false ->
            isin sentinels (cell_at ri row) = false ->
            exists x, astype_float float_of_str (cell_at ri row) = Ok x)
         (rows df) ->
  (forall df0, filter_data df0 true = Raise NameError) /\
  filter_data df false
  = Ok {| columns := columns df;
          rows := List.filter (valid_pressure_row float_of_str ci ri) (rows df) |}.
Proof.
  intros _ Hci Hri Hnum. split; [apply filter_columns_true_raises|].
  unfold filter_time_and_pressure_data, get_column, df_filter.
  cbn [read_local bind rows columns]. rewrite Hci, Hri.
  cbn [bind]. rewrite zip_with_map_map, mask_rows_map.
  set (sane := fun row : list cell =>
                 negb (isin sentinels (cell_at ci row))
                 && negb (isin sentinels (cell_at ri row))).
  destruct (mapM_total (astype_float float_of_str)
              (map (cell_at ri) (List.filter sane (rows df))))
    as (values & -> & Hvalues).
  { apply Forall_fmap. apply Forall_forall. intros row Hrow.
    apply list_elem_of_In, filter_In in Hrow as [Hrow Hsane].
    apply list_elem_of_In in Hrow.
    rewrite Forall_forall in Hnum. unfold sane in Hsane.
    apply andb_true_iff in Hsane as [H1%negb_true_iff H2%negb_true_iff].
    by apply Hnum. }
  cbn [bind]. do 2 f_equal.
  apply Forall2_fmap_l in Hvalues.
  rewrite (mask_rows_values _ float_gt_zero _ _ Hvalues).
  rewrite filter_filter. done.
Qed.

End FilterFacts.

(** ** change-path.py *)

Section ChangePathFacts.

Context {content : Type}.
Variable read_csv : content -> result DataFrame.
Variable to_csv : DataFrame -> content.
Variables csv_folder new_image_path : string.

Local Abbreviation one_csv := (change_one_csv content read_csv to_csv csv_folder new_image_path).
Local Abbreviation loop := (change_loop content read_csv to_csv csv_folder new_image_path).
Local Abbreviation outcome := (csv_outcome content read_csv new_image_path).
Local Abbreviation ok := (csv_ok content read_csv).
Local Abbreviation file_path_of := (join csv_folder).

Lemma change_one_csv_outcome (fs : gmap string content) out filename :
  one_csv (fs, out) filename
  = match outcome fs (file_path_of filename) with
    | Ok df' => (<[file_path_of filename := to_csv df']> fs,
                 out ++ [PathsChanged filename], Ok tt)
    | Raise e => (fs, out, Raise e)
    end.
Proof. reflexivity. Qed.

Lemma change_column_ok df i :
  col_index "image_path" (columns df) = Some i ->
  Forall (fun row => exists p, cell_at i row = Str p) (rows df) ->
  change_column new_image_path df = Ok (rewritten new_image_path i df).
Proof.
  intros Hi Hrows. unfold change_column, get_column. rewrite Hi. cbn [bind].
  rewrite (mapM_Ok _ _ (map (rewrite_cell new_image_path) (map (cell_at i) (rows df)))).
  2:{ apply Forall2_fmap_r, Forall_Forall2_diag, Forall_fmap.
      eapply Forall_impl; [exact Hrows|]. intros row [p Hp]. cbn. by rewrite Hp. }
  cbn [bind]. unfold set_column, rewritten. rewrite Hi. do 2 f_equal.
  rewrite map_map.
  rewrite <- (map_id (rows df)) at 1. rewrite zip_with_map_map. done.
Qed.

Lemma csv_ok_outcome (fs : gmap string content) p df i :
  ok fs p df i -> outcome fs p = Ok (rewritten new_image_path i df).
Proof.
  intros ((c & Hc & Hdf) & Hi & Hrows). unfold csv_outcome, open_file.
  rewrite Hc. cbn [bind]. rewrite Hdf. cbn [bind]. by apply change_column_ok.
Qed.

Lemma outcome_ext (fs fs' : gmap string content) p :
  fs' !! p = fs !! p -> outcome fs' p = outcome fs p.
Proof. intros H. unfold csv_outcome, open_file. by rewrite H. Qed.

Lemma csv_ok_ext (fs fs' : gmap string content) p df i :
  fs' !! p = fs !! p -> ok fs p df i -> ok fs' p df i.
Proof. intros H ((c & Hc & Hdf) & Hrest). split; [|done]. exists c. by rewrite H. Qed.

Lemma loop_app pre rest st :
  loop (pre ++ rest) st
  = match loop pre st with
    | (st', Ok _) => loop rest st'
    | (st', Raise e) => (st', Raise e)
    end.
Proof.
  revert st. induction pre as [|f pre IH]; intros st; [done|].
  cbn [app change_loop]. destruct (endswith f ".csv"); [|apply IH].
  destruct (one_csv st f) as [st' [[]|e]]; [apply IH|done].
Qed.

(** The loop over a listing whose CSV files are all as assumed. *)
Lemma loop_ok filenames : forall (fs : gmap string content) out,
  listing_ok filenames ->
  Forall (fun f => is_csv f = true -> exists df i, ok fs (file_path_of f) df i)
         filenames ->
  exists fs',
    loop filenames (fs, out)
    = (fs', out ++ map PathsChanged (List.filter is_csv filenames), Ok tt) /\
    (forall f df i, f ∈ filenames -> is_csv f = true ->
       ok fs (file_path_of f) df i ->
       fs' !! file_path_of f = Some (to_csv (rewritten new_image_path i df))) /\
    (forall p, (forall f, f ∈ filenames -> is_csv f = true -> p <> file_path_of f) ->
       fs' !! p = fs !! p).
Proof.
  induction filenames as [|f filenames IH]; intros fs out [Hnd Hsep] Hall.
  { exists fs. cbn [change_loop List.filter map]. rewrite app_nil_r.
    split; [done|]. split; [|done].
    intros f df i Hf. by apply elem_of_nil in Hf. }
  apply NoDup_cons in Hnd as [Hf Hnd].
  apply Forall_cons in Hsep as [Hfsep Hsep].
  apply Forall_cons in Hall as [Hfok Hall].
  assert (Hdistinct : forall g, g ∈ filenames -> file_path_of g <> file_path_of f).
  { intros g Hg Heq. apply join_inj in Heq; [by subst|..|done].
    rewrite Forall_forall in Hsep. by apply Hsep. }
  cbn [change_loop List.filter]. fold (is_csv f).
  destruct (is_csv f) eqn:Hcsv.
  - destruct (Hfok eq_refl) as (df & i & Hok).
    rewrite change_one_csv_outcome, (csv_ok_outcome _ _ _ _ Hok).
    set (fs1 := <[file_path_of f := to_csv (rewritten new_image_path i df)]> fs).
    destruct (IH fs1 (out ++ [PathsChanged f]) (conj Hnd Hsep))
      as (fs' & Hrun & Hdone & Hother).
    { rewrite Forall_forall in Hall |- *. intros g Hg Hgcsv.
      destruct (Hall g Hg Hgcsv) as (dfg & ig & Hgok).
      exists dfg, ig. eapply csv_ok_ext; [|exact Hgok].
      unfold fs1. rewrite lookup_insert_ne; [done|]. intros E. by eapply Hdistinct. }
    exists fs'. split; [|split].
    + rewrite Hrun. cbn [map]. by rewrite <- app_assoc.
    + intros g dfg ig Hg Hgcsv Hgok.
      apply elem_of_cons in Hg as [->|Hg].
      * rewrite Hother.
        2:{ intros h Hh _ E. by eapply Hdistinct. }
        unfold fs1. rewrite lookup_insert_eq.
        destruct Hok as ((c & Hc & Hdf) & Hi & _), Hgok as ((c' & Hc' & Hdf') & Hi' & _).
        congruence.
      * apply (Hdone g dfg ig Hg Hgcsv). eapply csv_ok_ext; [|exact Hgok].
        unfold fs1. rewrite lookup_insert_ne; [done|]. intros E. by eapply Hdistinct.
    + intros p Hp. rewrite Hother.
      2:{ intros g Hg Hgcsv. apply Hp; [by apply list_elem_of_further|done]. }
      unfold fs1. rewrite lookup_insert_ne; [done|].
      intros E. eapply Hp; [apply list_elem_of_here|done|done].
  - destruct (IH fs out (conj Hnd Hsep) Hall) as (fs' & Hrun & Hdone & Hother).
    exists fs'. split; [done|]. split.
    + intros g dfg ig Hg Hgcsv Hgok.
      apply elem_of_cons in Hg as [->|Hg]; [congruence|]. by eapply Hdone.
    + intros p Hp. apply Hother. intros g Hg Hgcsv.
      apply Hp; [by apply list_elem_of_further|done].
Qed.


Local Abbreviation run := (change_image_paths content read_csv to_csv csv_folder new_image_path).


(** C4, as amended.  A failure while processing one CSV file is caught and
    a message is printed, and the function returns at once: the files
    listed before the failing one have been processed, exactly as by a
    call on that part of the listing alone, and the failing file and the
    files listed after it are left as they were. *)
Theorem change_image_paths_stops_at_first_failure
    (fs : gmap string content) pre bad post e :
  listing_ok (pre ++ bad :: post) ->
  Forall (fun f => is_csv f = true -> exists df i, ok fs (file_path_of f) df i) pre ->
  is_csv bad = true ->
  outcome fs (file_path_of bad) = Raise e ->
  run (Ok (pre ++ bad :: post)) fs
  = ((run (Ok pre) fs).1, (run (Ok pre) fs).2 ++ [AnErrorOccurred e]) /\
  forall f, f ∈ bad :: post ->
    (run (Ok (pre ++ bad :: post)) fs).1 !! file_path_of f = fs !! file_path_of f.
Proof.
  intros [Hnd Hsep] Hpre Hcsv Hbad.
  apply NoDup_app in Hnd as (Hndpre & Hdisj & _).
  apply Forall_app in Hsep as [Hseppre Hseprest].
  destruct (loop_ok pre fs [] (conj Hndpre Hseppre) Hpre) as (fs1 & Hrun & _ & Hother).
  assert (Huntouched : forall f, f ∈ bad :: post ->
            fs1 !! file_path_of f = fs !! file_path_of f).
  { intros f Hf. apply Hother. intros g Hg _ Heq.
    apply join_inj in Heq.
    - subst g. by apply (Hdisj f).
    - rewrite Forall_forall in Hseprest. by apply Hseprest.
    - rewrite Forall_forall in Hseppre. by apply Hseppre. }
  assert (Hfull : run (Ok (pre ++ bad :: post)) fs
                  = (fs1, map PathsChanged (List.filter is_csv pre) ++ [AnErrorOccurred e])).
  { unfold change_image_paths. rewrite loop_app, Hrun. cbn [change_loop app].
    fold (is_csv bad). rewrite Hcsv, change_one_csv_outcome.
    rewrite (outcome_ext fs fs1), Hbad; [done|].
    apply Huntouched, list_elem_of_here. }
  rewrite Hfull. unfold change_image_paths. rewrite Hrun. cbn [fst snd app].
  split; [done|]. exact Huntouched.
Qed.

End ChangePathFacts.

(** ** matchdepth.py: the rename step *)

Section RenameFacts.

Context {content : Type}.
Variable str_of_float : pyfloat -> string.
Variable str_of_timestamp : Timestamp -> string.

Local Abbreviation step := (rename_one content str_of_float str_of_timestamp).
Local Abbreviation fmt := (format_cell str_of_float str_of_timestamp).



End RenameFacts.

(** ** matchdepth.py: [parse_log_file_to_dataframe] *)

Section LogFacts.

Variable to_numeric_str : string -> option pyfloat.
Variable to_datetime_s : pyfloat -> Timestamp.
Variable datetime : Type.
Variable strptime_log : string -> option datetime.
Variable str_of_datetime : datetime -> string.

Local Abbreviation parse_one := (parse_entry datetime strptime_log str_of_datetime).
Local Abbreviation date_of := (entry_date datetime strptime_log).
Local Abbreviation row_of := (entry_row datetime strptime_log str_of_datetime).
Local Abbreviation parse_file :=
  (parse_log_file_to_dataframe to_numeric_str to_datetime_s datetime
     strptime_log str_of_datetime).

Lemma parse_entry_long entry :
  has_twenty_fields entry = true ->
  parse_one entry
  = (Some (row_of entry), None,
     match date_of entry with
     | Some _ => []
     | None => [ErrorToParse (entry_datetime_str entry)]
     end).
Proof.
  unfold has_twenty_fields, fields. intros H. unfold parse_entry. rewrite H.
  unfold parse_log_date, entry_row, entry_date, entry_datetime_str, fields.
  by destruct (strptime_log _).
Qed.

Lemma parse_entry_short entry :
  has_twenty_fields entry = false -> parse_one entry = (None, Some entry, []).
Proof.
  unfold has_twenty_fields, fields. intros H. unfold parse_entry. by rewrite H.
Qed.

Lemma parsed_rows entries :
  omap (fun p : option (list cell) * option string * list message => p.1.1)
       (map parse_one entries)
  = map row_of (List.filter has_twenty_fields entries).
Proof.
  induction entries as [|entry entries IH]; [done|].
  cbn [map List.filter]. destruct (has_twenty_fields entry) eqn:H.
  - rewrite (parse_entry_long _ H). csimpl. by rewrite IH.
  - rewrite (parse_entry_short _ H). csimpl. by rewrite IH.
Qed.



(** *** Padding *)

Lemma pad_row_length width data :
  (length data <= width)%nat -> length (pad_row width data) = width.
Proof.
  intros H. unfold pad_row. destruct (Nat.ltb_spec (length data) width).
  - rewrite length_app, length_replicate. lia.
  - lia.
Qed.



Lemma entry_row_length entry : length (row_of entry) = S (length (fields entry)).
Proof. unfold entry_row. rewrite length_app, length_map. cbn. lia. Qed.



(** *** The conversions of lines 249-253 *)







End LogFacts.

(** ** The theorems at work on the sample inputs *)

(** Decidable side conditions on the samples are settled by evaluation. *)
Ltac by_evaluation := apply (bool_decide_unpack _); by vm_compute.





Lemma change_image_paths_stops_at_first_failure_witness :
  change_image_paths DataFrame Ok id "/csv/" "/new/"
    (Ok (["c.csv"] ++ "a.csv" :: ["b.csv"])) sample_csv_files
  = ((change_image_paths DataFrame Ok id "/csv/" "/new/" (Ok ["c.csv"])
        sample_csv_files).1,
     (change_image_paths DataFrame Ok id "/csv/" "/new/" (Ok ["c.csv"])
        sample_csv_files).2 ++ [AnErrorOccurred KeyError]) /\
  forall f, f ∈ ["a.csv"; "b.csv"] ->
    (change_image_paths DataFrame Ok id "/csv/" "/new/"
       (Ok (["c.csv"] ++ "a.csv" :: ["b.csv"])) sample_csv_files).1 !! join "/csv/" f
    = sample_csv_files !! join "/csv/" f.
Proof.
  apply (change_image_paths_stops_at_first_failure (content := DataFrame)
           Ok id "/csv/" "/new/" sample_csv_files ["c.csv"] "a.csv" ["b.csv"] KeyError).
  - split; [by_evaluation|]. repeat constructor.
  - repeat constructor. intros _. exists sample_detections, 0%nat.
    split; [eexists; split; [by vm_compute|done]|].
    split; [done|]. repeat constructor; by eexists.
  - done.
  - by vm_compute.
Defined.


Lemma filter_time_and_pressure_data_total_only_without_columns_witness :
  (forall df0, filter_time_and_pressure_data sample_float_of_str df0 true
               = Raise NameError) /\
  filter_time_and_pressure_data sample_float_of_str sample_pressures false
  = Ok {| columns := columns sample_pressures;
          rows := [[Str "12.5"; Str "12.5"; Str "kept"]] |}.
Proof.
  apply (filter_time_and_pressure_data_total_only_without_columns
           sample_float_of_str sample_pressures 0 1).
  - split; [by_evaluation|]. by repeat constructor.
  - done.
  - done.
  - repeat constructor; intros H1 H2; try discriminate H1; try discriminate H2;
      by eexists.
Defined.

Lemma extract_frames_sampling_witness :
  extract_frames nat "/videos/cast1.avi" "/frames" 10 sample_capture ∅
  = (save_all nat "cast1" "/frames" [10; 13; 16]%nat ∅,
     [ProcessingVideo "cast1"; OutputDirectory "/frames";
      ExtractionCompleted "cast1" 3],
     Ok tt) /\
  extract_frames nat "/videos/cast1.avi" "/frames" 60 sample_capture ∅
  = (∅, [ProcessingVideo "cast1"; OutputDirectory "/frames"],
     Raise ZeroDivisionError).
Proof.
  split.
  - destruct (extract_frames_sampling (frame := nat) "/videos/cast1.avi" "/frames"
                10 sample_capture ∅) as (Hsave & _); [done|].
    apply Hsave. done.
  - destruct (extract_frames_sampling (frame := nat) "/videos/cast1.avi" "/frames"
                60 sample_capture ∅) as (_ & Hzero & Hraise & _); [done|].
    apply Hraise; [|done]. apply Hzero. by vm_compute.
Defined.

(** ** Counterexamples *)

(** C4 as stated fails: [b.csv] is a good file, which the function rewrites
    when it meets it, but it comes after [a.csv], which has no column
    image_path; the failure of [a.csv] ends the loop and [b.csv] is left as
    it was. *)
Lemma change_image_paths_does_not_continue_after_failure :
  let run := change_image_paths DataFrame Ok id "/csv/" "/new/" in
  csv_outcome DataFrame Ok "/new/" sample_csv_files "/csv/a.csv" = Raise KeyError /\
  (run (Ok ["b.csv"]) sample_csv_files).1 !! "/csv/b.csv"
    = Some (rewritten "/new/" 0 sample_detections) /\
  rewritten "/new/" 0 sample_detections <> sample_detections /\
  (run (Ok ["a.csv"; "b.csv"]) sample_csv_files).1 !! "/csv/b.csv"
    = Some sample_detections /\
  (run (Ok ["a.csv"; "b.csv"]) sample_csv_files).2 = [AnErrorOccurred KeyError].
Proof.
  intros run. split; [by vm_compute|]. split; [by vm_compute|].
  split; [by vm_compute|]. split; by vm_compute.
Qed.

(** C9 as stated fails: for a file that could not be opened the frame rate
    read is 0, below the requested rate, and the interval is zero; but no
    frame is read, the modulo is never computed and the call returns.  The
    same happens for a file that opens, at 10 frames per second against 30
    requested, and gives no frame. *)
Lemma extract_frames_zero_interval_without_frames_returns :
  (fps nat unopened_capture < 1 /\
   fps nat unopened_capture / 1 = 0 /\
   extract_frames nat "/videos/cast1.avi" "/frames" 1 unopened_capture ∅
   = (∅, [ProcessingVideo "cast1"; OutputDirectory "/frames";
          ExtractionCompleted "cast1" 0],
      Ok tt)) /\
  (fps nat empty_capture < 30 /\
   fps nat empty_capture / 30 = 0 /\
   extract_frames nat "/videos/cast1.avi" "/frames" 30 empty_capture ∅
   = (∅, [ProcessingVideo "cast1"; OutputDirectory "/frames";
          ExtractionCompleted "cast1" 0],
      Ok tt)).
Proof. repeat split; by vm_compute. Qed.

(** ** More on the matching of timestamps *)

Lemma mapM_inv {A B} (f : A -> result B) l : forall ys,
  mapM f l = Ok ys -> Forall2 (fun x y => f x = Ok y) l ys.
Proof.
  induction l as [|x l IH]; intros ys; cbn [mapM].
  - intros [= <-]. constructor.
  - destruct (f x) as [y|e] eqn:Hx; [|done]. cbn [bind].
    destruct (mapM f l) as [ys'|e]; [|done]. cbn [bind].
    intros [= <-]. constructor; [done|]. by apply IH.
Qed.

Lemma mapM_Raise {A B} (f : A -> result B) l x e :
  x ∈ l -> (forall y e', y ∈ l -> f y = Raise e' -> e' = e) ->
  (exists e', f x = Raise e') -> mapM f l = Raise e.
Proof.
  induction l as [|y l IH]; intros Hx Hall Hbad.
  - by apply elem_of_nil in Hx.
  - cbn [mapM]. destruct (f y) as [b|e'] eqn:Hy.
    + cbn [bind]. rewrite IH; [done| |..|done].
      * apply elem_of_cons in Hx as [->|Hx]; [|done].
        destruct Hbad as [e' He']. congruence.
      * intros z e' Hz. apply Hall. by apply list_elem_of_further.
    + cbn [bind]. f_equal. apply (Hall y); [apply list_elem_of_here|done].
Qed.








Lemma ensure_utc_NaT x : ensure_utc x <> NaT -> x <> NaT.
Proof. by destruct x. Qed.

Lemma ensure_utc_not_NaT x : x <> NaT -> ensure_utc x <> NaT.
Proof. by destruct x as [|ns [tz|]]. Qed.












(** X4.  With an empty log table the matching does not return, whatever
    the images: [np.argmin] finds no entry to look at in a row and raises
    ValueError. *)
Theorem find_matching_timestamps_empty_log raw df2 defase threshold :
  (forall results,
     find_matching_timestamps raw [] df2 defase threshold <> Ok results) /\
  (Forall (fun r => in_window (defase * ns_per_s) (iso_datetime r)) df2 ->
   find_matching_timestamps raw [] df2 defase threshold = Raise ValueError).
Proof.
  unfold find_matching_timestamps. cbn [map]. split.
  - intros results. by destruct (mapM _ (map img_in_utc df2)).
  - intros Hdf2. by destruct (adjusted_in_window defase df2 Hdf2) as (ys & -> & _).
Qed.



(** ** More on [filter_time_and_pressure_data] *)

Lemma col_index_absent c cols : c ∉ cols -> col_index c cols = None.
Proof.
  intros Hc. destruct (col_index c cols) as [i|] eqn:Hi; [|done].
  destruct Hc. eapply list_elem_of_lookup_2, col_index_lookup, Hi.
Qed.

Lemma filter_all {A} (p : A -> bool) l :
  Forall (fun x => p x = true) l -> List.filter p l = l.
Proof. induction 1 as [|x l Hx _ IH]; [done|]. cbn. by rewrite Hx, IH. Qed.

Lemma filter_Forall {A} (p : A -> bool) l :
  Forall (fun x => p x = true) (List.filter p l).
Proof.
  induction l as [|x l IH]; [constructor|]. cbn.
  destruct (p x) eqn:Hx; [by constructor|done].
Qed.

Lemma filter_sublist {A} (p : A -> bool) l : sublist (List.filter p l) l.
Proof.
  induction l as [|x l IH]; [constructor|]. cbn.
  destruct (p x); by constructor.
Qed.

Section FilterMore.

Variable float_of_str : string -> option pyfloat.

Local Abbreviation filter_data := (filter_time_and_pressure_data float_of_str).
Local Abbreviation valid := (valid_pressure_row float_of_str).

(** The rows that pass the test on the sentinels. *)
Local Abbreviation sane ci ri :=
  (fun row : list cell => negb (isin sentinels (cell_at ci row))
                          && negb (isin sentinels (cell_at ri row))).

(** The function as one test on the rows, once the columns are found and
    the conversion of the ROV pressures to floats goes through. *)
Lemma filter_data_rows df ci ri values :
  col_index "rov_ctd_pressure" (columns df) = Some ci ->
  col_index "rov_pressure" (columns df) = Some ri ->
  mapM (astype_float float_of_str)
       (map (cell_at ri) (List.filter (sane ci ri) (rows df))) = Ok values ->
  filter_data df false
  = Ok {| columns := columns df; rows := List.filter (valid ci ri) (rows df) |}.
Proof.
  intros Hci Hri Hvalues.
  unfold filter_time_and_pressure_data, get_column, df_filter.
  cbn [read_local bind rows columns]. rewrite Hci, Hri.
  cbn [bind]. rewrite zip_with_map_map, mask_rows_map, Hvalues.
  cbn [bind]. do 2 f_equal.
  apply mapM_inv, Forall2_fmap_l in Hvalues.
  rewrite (mask_rows_values _ float_gt_zero _ _ Hvalues).
  rewrite filter_filter. done.
Qed.

Lemma filter_data_Ok_inv df df' :
  filter_data df false = Ok df' ->
  exists ci ri values,
    col_index "rov_ctd_pressure" (columns df) = Some ci /\
    col_index "rov_pressure" (columns df) = Some ri /\
    mapM (astype_float float_of_str)
         (map (cell_at ri) (List.filter (sane ci ri) (rows df))) = Ok values.
Proof.
  unfold filter_time_and_pressure_data, get_column, df_filter.
  cbn [read_local bind rows columns].
  destruct (col_index "rov_ctd_pressure" (columns df)) as [ci|]; [|done].
  destruct (col_index "rov_pressure" (columns df)) as [ri|]; [|done].
  cbn [bind]. rewrite zip_with_map_map, mask_rows_map.
  destruct (mapM _ _) as [values|] eqn:Hvalues; [|done].
  intros _. by exists ci, ri, values.
Qed.

(** X6.  Filtering is idempotent: the table that
    [filter_time_and_pressure_data] returns is left as it is by a second
    call.  The table returned has the columns of the argument and a part of
    its rows, in their order. *)
Theorem filter_time_and_pressure_data_idempotent df df' :
  filter_time_and_pressure_data float_of_str df false = Ok df' ->
  filter_time_and_pressure_data float_of_str df' false = Ok df' /\
  columns df' = columns df /\
  sublist (rows df') (rows df).
Proof.
  intros Hok.
  destruct (filter_data_Ok_inv _ _ Hok) as (ci & ri & values & Hci & Hri & Hvalues).
  rewrite (filter_data_rows _ _ _ _ Hci Hri Hvalues) in Hok.
  injection Hok as <-. cbn [columns rows].
  split; [|split; [done|apply filter_sublist]].
  pose proof (filter_Forall (valid ci ri) (rows df)) as Hvalid.
  destruct (mapM_total (astype_float float_of_str)
              (map (cell_at ri)
                 (List.filter (sane ci ri) (List.filter (valid ci ri) (rows df)))))
    as (values' & Hvalues' & _).
  { apply Forall_fmap, Forall_forall. intros row Hrow. cbn [compose].
    apply list_elem_of_In, filter_In in Hrow as [Hrow _].
    apply list_elem_of_In in Hrow. rewrite Forall_forall in Hvalid.
    specialize (Hvalid _ Hrow). unfold valid_pressure_row in Hvalid.
    apply andb_true_iff in Hvalid as [_ Hvalid].
    destruct (astype_float float_of_str (cell_at ri row)); [by eexists|done]. }
  rewrite (filter_data_rows _ ci ri values'); [|done..].
  cbn [columns rows]. by rewrite (filter_all _ _ Hvalid).
Qed.

(** X7.  The failures of [filter_time_and_pressure_data]: KeyError when
    one of the two pressure columns is missing; and no table is returned
    when a row that passes the test on the sentinels has a ROV pressure
    that [astype(float)] cannot convert. *)
Theorem filter_time_and_pressure_data_failures df :
  ("rov_ctd_pressure" ∉ columns df \/ "rov_pressure" ∉ columns df ->
   filter_data df false = Raise KeyError) /\
  (forall ci ri row e,
     col_index "rov_ctd_pressure" (columns df) = Some ci ->
     col_index "rov_pressure" (columns df) = Some ri ->
     row ∈ rows df ->
     isin sentinels (cell_at ci row) = false ->
     isin sentinels (cell_at ri row) = false ->
     astype_float float_of_str (cell_at ri row) = Raise e ->
     exists e', filter_data df false = Raise e').
Proof.
  split.
  - intros Hmiss.
    unfold filter_time_and_pressure_data, get_column.
    cbn [read_local bind].
    destruct Hmiss as [H|H]; rewrite (col_index_absent _ _ H); [done|].
    by destruct (col_index "rov_ctd_pressure" (columns df)).
  - intros ci ri row e Hci Hri Hrow Hc Hr Hbad.
    destruct (filter_data df false) as [df'|e'] eqn:Hok; [|by eexists].
    destruct (filter_data_Ok_inv _ _ Hok) as (ci' & ri' & values & Hci' & Hri' & Hvalues).
    replace ci' with ci in * by congruence. replace ri' with ri in * by congruence.
    apply mapM_inv in Hvalues.
    assert (Hin : cell_at ri row
                  ∈ map (cell_at ri) (List.filter (sane ci ri) (rows df))).
    { apply (list_elem_of_fmap_2 (cell_at ri)).
      apply list_elem_of_In, filter_In. split; [by apply list_elem_of_In|].
      by rewrite Hc, Hr. }
    apply list_elem_of_lookup_1 in Hin as [k Hk].
    destruct (Forall2_lookup_l _ _ _ _ _ Hvalues Hk) as (y & _ & Hy). congruence.
Qed.

End FilterMore.

(** ** The failures of [parse_log_file_to_dataframe] *)

Lemma set_column_columns df c values x :
  x ∈ columns (set_column df c values) <-> x ∈ columns df \/ x = c.
Proof.
  unfold set_column. destruct (col_index c (columns df)) as [i|] eqn:Hi; cbn [columns].
  - split; [by left|]. intros [H| ->]; [done|].
    eapply list_elem_of_lookup_2, col_index_lookup, Hi.
  - rewrite elem_of_app, list_elem_of_singleton. done.
Qed.

(** [df[c] = f(df[c'])] raises KeyError when there is no column [c'], and
    otherwise sets the column [c]. *)
Lemma convert_column_cases df c c' f :
  ((c' ∉ columns df) /\ convert_column df c c' f = Raise KeyError) \/
  (c' ∈ columns df /\
   exists df', convert_column df c c' f = Ok df' /\
               forall x, x ∈ columns df' <-> x ∈ columns df \/ x = c).
Proof.
  unfold convert_column, get_column.
  destruct (col_index c' (columns df)) as [i|] eqn:Hi; cbn [bind].
  - right. split; [eapply list_elem_of_lookup_2, col_index_lookup, Hi|].
    eexists. split; [done|]. apply set_column_columns.
  - left. split; [by apply col_index_None|done].
Qed.

Section LogFailures.

Variable to_numeric_str : string -> option pyfloat.
Variable to_datetime_s : pyfloat -> Timestamp.
Variable datetime : Type.
Variable strptime_log : string -> option datetime.
Variable str_of_datetime : datetime -> string.

Local Abbreviation row_of := (entry_row datetime strptime_log str_of_datetime).
Local Abbreviation parse_file :=
  (parse_log_file_to_dataframe to_numeric_str to_datetime_s datetime
     strptime_log str_of_datetime).

(** X8.  A line that starts with '#LOG' and has no second word, where the
    name of the column is expected, makes the function raise IndexError:
    nothing is parsed. *)
Theorem parse_log_file_header_without_name lines line :
  line ∈ lines -> startswith line "#LOG" = true ->
  (length (split_ws line) < 2)%nat ->
  parse_file lines = Raise IndexError.
Proof.
  intros Hin Hlog Hshort. unfold parse_log_file_to_dataframe.
  rewrite (mapM_Raise header_column _ line IndexError); [done|..].
  - apply list_elem_of_In, filter_In. split; [by apply list_elem_of_In|done].
  - intros y e' _. unfold header_column.
    destruct (split_ws y) as [|? [|? ?]]; congruence.
  - unfold header_column.
    destruct (split_ws line) as [|? [|? ?]]; [by eexists..|].
    cbn [length] in Hshort. lia.
Qed.

(** X9.  An entry with twenty fields or more that has more fields than
    the table has columns (the columns of the header and the four of the
    date) makes the function raise ValueError, whatever the other lines:
    [pd.DataFrame] refuses the row. *)
Theorem parse_log_file_entry_too_long lines names entry :
  mapM header_column (header_lines lines) = Ok names ->
  entry ∈ log_entries lines ->
  has_twenty_fields entry = true ->
  (length names + 4 < length (fields entry))%nat ->
  parse_file lines = Raise ValueError.
Proof.
  intros Hnames Hin Hlong Hwide. unfold parse_log_file_to_dataframe.
  fold (header_lines lines). rewrite Hnames. cbn [bind].
  fold (log_entries lines). rewrite parsed_rows.
  set (column_names := names ++ ["year"; "yearday"; "time"; "timezone"]).
  set (data := map (pad_row (length column_names + 1)) _).
  assert (Hrow : pad_row (length column_names + 1) (row_of entry) ∈ data).
  { apply (list_elem_of_fmap_2 (pad_row _)), (list_elem_of_fmap_2 row_of).
    apply list_elem_of_In, filter_In. split; [by apply list_elem_of_In|done]. }
  assert (Hlen : (length column_names = length names + 4)%nat)
    by (unfold column_names; by rewrite length_app).
  assert (Hwidth : (length (column_names ++ ["parsed_datetime"])
                    < max_list (map length data))%nat).
  { eapply Nat.lt_le_trans;
      [|apply max_list_elem_of_le, (list_elem_of_fmap_2 length), Hrow].
    rewrite length_app. cbn [length]. unfold pad_row.
    rewrite entry_row_length.
    destruct (Nat.ltb_spec (S (length (fields entry))) (length column_names + 1));
      [lia|]. rewrite entry_row_length. lia. }
  unfold DataFrame_of_rows.
  destruct data as [|row data']; [by apply elem_of_nil in Hrow|].
  destruct (Nat.eqb_spec (max_list (map length (row :: data')))
              (length (column_names ++ ["parsed_datetime"]))) as [Heq|_]; [lia|done].
Qed.

(** The columns that lines 249-253 read. *)
Local Abbreviation read_columns :=
  ["loghost_system_utc"; "rov_position_lat"; "rov_position_lon"; "rov_ctd_pressure"].

(** X10.  When the header does not name one of the columns that lines
    249-253 read, the function raises KeyError after it has parsed every
    entry. *)
Theorem parse_log_file_missing_column lines names c :
  mapM header_column (header_lines lines) = Ok names ->
  let column_names := names ++ ["year"; "yearday"; "time"; "timezone"] in
  NoDup (column_names ++ ["parsed_datetime"]) ->
  Forall (fun entry => (length (fields entry) <= length column_names)%nat)
         (log_entries lines) ->
  c ∈ read_columns -> c ∉ column_names ->
  parse_file lines = Raise KeyError.
Proof.
  intros Hnames column_names _ Hwidth Hc Hmiss.
  unfold parse_log_file_to_dataframe.
  fold (header_lines lines). rewrite Hnames. cbn [bind].
  fold column_names. fold (log_entries lines). rewrite parsed_rows.
  set (kept := List.filter has_twenty_fields (log_entries lines)).
  set (cols0 := column_names ++ ["parsed_datetime"]).
  set (rows0 := map (pad_row (length column_names + 1)) (map row_of kept)).
  assert (Hlen0 : Forall (fun row => length row = length cols0) rows0).
  { unfold rows0. rewrite map_map. apply Forall_fmap, Forall_forall.
    intros entry Hin. cbn [compose].
    apply list_elem_of_In, filter_In in Hin as [Hin _].
    rewrite Forall_forall in Hwidth. apply list_elem_of_In, Hwidth in Hin.
    unfold cols0. rewrite length_app. cbn [length].
    apply pad_row_length. rewrite entry_row_length. lia. }
  rewrite (DataFrame_of_rows_rectangular _ _ Hlen0). cbn [bind].
  assert (Hin0 : forall x, x ∈ read_columns ->
            x ∈ cols0 <-> x ∈ column_names).
  { intros x Hx. unfold cols0. rewrite elem_of_app, list_elem_of_singleton.
    split; [|by left]. intros [H| ->]; [done|].
    rewrite !elem_of_cons, elem_of_nil in Hx. by destruct Hx as [?|[?|[?|[?|?]]]]. }
  assert (Hr : forall x, x ∈ read_columns <->
            x = "loghost_system_utc" \/ x = "rov_position_lat"
            \/ x = "rov_position_lon" \/ x = "rov_ctd_pressure").
  { intros x. rewrite !elem_of_cons, elem_of_nil. tauto. }
  destruct (convert_column_cases {| columns := cols0; rows := rows0 |}
              "loghost_system_utc" "loghost_system_utc" (to_numeric to_numeric_str))
    as [[_ ->]|[H1 (df1 & -> & Hc1)]]; [done|]. cbn [bind columns] in *.
  destruct (convert_column_cases df1
              "timestamp" "loghost_system_utc" (to_datetime to_datetime_s))
    as [[_ ->]|[H2 (df2 & -> & Hc2)]]; [done|]. cbn [bind].
  destruct (convert_column_cases df2
              "rov_position_lat" "rov_position_lat" (to_numeric to_numeric_str))
    as [[_ ->]|[H3 (df3 & -> & Hc3)]]; [done|]. cbn [bind].
  destruct (convert_column_cases df3
              "rov_position_lon" "rov_position_lon" (to_numeric to_numeric_str))
    as [[_ ->]|[H4 (df4 & -> & Hc4)]]; [done|]. cbn [bind].
  destruct (convert_column_cases df4
              "depth" "rov_ctd_pressure" (to_numeric to_numeric_str))
    as [[_ ->]|[H5 (df5 & -> & Hc5)]]; [done|]. cbn [bind].
  exfalso. apply Hmiss.
  apply Hr in Hc as [->|[->|[->| ->]]]; (apply Hin0; [apply Hr; tauto|]).
  - done.
  - apply Hc2 in H3 as [H3|H3]; [|discriminate H3].
    apply Hc1 in H3 as [H3|H3]; [done|discriminate H3].
  - apply Hc3 in H4 as [H4|H4]; [|discriminate H4].
    apply Hc2 in H4 as [H4|H4]; [|discriminate H4].
    apply Hc1 in H4 as [H4|H4]; [done|discriminate H4].
  - apply Hc4 in H5 as [H5|H5]; [|discriminate H5].
    apply Hc3 in H5 as [H5|H5]; [|discriminate H5].
    apply Hc2 in H5 as [H5|H5]; [|discriminate H5].
    apply Hc1 in H5 as [H5|H5]; [done|discriminate H5].
Qed.

End LogFailures.

(** ** The rename loop as a whole *)

Section RenameLoop.

Context {content : Type}.
Variable str_of_float : pyfloat -> string.
Variable str_of_timestamp : Timestamp -> string.

Local Abbreviation step := (rename_one content str_of_float str_of_timestamp).
Local Abbreviation new_path := (new_file_path_of str_of_float str_of_timestamp).

(** One turn of the loop leaves the file system as it is, or moves the
    file of the tuple to its new path. *)
Lemma rename_one_cases (fs : gmap string content) out (t : match_tuple) :
  (step (fs, out) t).1 = fs \/
  exists c, fs !! t.2 = Some c /\
            (step (fs, out) t).1 = <[new_path t.1.1.2 t.2 := c]> (delete t.2 fs).
Proof.
  destruct t as [[[ts1 depth] ts2] path]. cbn [rename_one fst snd].
  destruct (splitext (basename path)) as [original_name extension].
  destruct (endswith original_name "m"); [by left|].
  unfold os_rename. destruct (fs !! path) as [c|] eqn:Hc; [|by left].
  right. by exists c.
Qed.

Lemma rename_loop_inv (P : gmap string content -> Prop) tuples :
  forall st : gmap string content * list message,
    P st.1 ->
    (forall fs out t, t ∈ tuples -> P fs -> P (step (fs, out) t).1) ->
    P (fold_left step tuples st).1.
Proof.
  induction tuples as [|t tuples IH]; intros [fs out] HP Hstep; [done|].
  cbn [fold_left]. apply IH.
  - destruct (step (fs, out) t) as [fs' out'] eqn:E.
    replace fs' with (step (fs, out) t).1 by (by rewrite E).
    apply Hstep; [apply list_elem_of_here|done].
  - intros fs0 out0 t0 Ht0. apply Hstep. by apply list_elem_of_further.
Qed.

(** X11.  The rename loop only moves files.  Every file that is there
    after the loop holds the content of a file that was there before, the
    number of files does not grow, and a path that is neither the path of
    a tuple nor the new path of one holds after the loop what it held
    before. *)
Theorem rename_step_only_moves_files (fs : gmap string content) tuples :
  let fs' := (rename_step content str_of_float str_of_timestamp fs tuples).1 in
  (forall p c, fs' !! p = Some c -> exists p0, fs !! p0 = Some c) /\
  (size fs' <= size fs)%nat /\
  (forall p,
     (forall t : match_tuple, t ∈ tuples ->
        p <> t.2 /\
        p <> new_file_path_of str_of_float str_of_timestamp t.1.1.2 t.2) ->
     fs' !! p = fs !! p).
Proof.
  cbn zeta. unfold rename_step. split; [|split].
  - apply (rename_loop_inv
             (fun fs' => forall p c, fs' !! p = Some c -> exists p0, fs !! p0 = Some c));
      [by eauto|].
    intros fs0 out t _ IH p c.
    destruct (rename_one_cases fs0 out t) as [->|(c0 & Hc0 & ->)]; [by apply IH|].
    destruct (decide (p = new_path t.1.1.2 t.2)) as [->|Hne].
    + rewrite lookup_insert_eq. intros [= <-]. by eapply IH.
    + rewrite lookup_insert_ne by done. intros H.
      apply lookup_delete_Some in H as [_ H]. by eapply IH.
  - apply (rename_loop_inv (fun fs' => (size fs' <= size fs)%nat)); [done|].
    intros fs0 out t _ IH.
    destruct (rename_one_cases fs0 out t) as [->|(c0 & Hc0 & ->)]; [done|].
    rewrite map_size_insert, map_size_delete, Hc0.
    assert (size fs0 <> 0)%nat by (eapply map_size_ne_0_lookup_2; by eexists).
    destruct (delete t.2 fs0 !! new_path t.1.1.2 t.2); cbn [id]; lia.
  - intros p Hp.
    apply (rename_loop_inv (fun fs' => fs' !! p = fs !! p)); [done|].
    intros fs0 out t Ht IH. destruct (Hp t Ht) as [Hsrc Hdst].
    destruct (rename_one_cases fs0 out t) as [->|(c0 & Hc0 & ->)]; [done|].
    by rewrite lookup_insert_ne, lookup_delete_ne.
Qed.

End RenameLoop.

(** ** More on change-path.py *)

Section ChangePathMore.

Context {content : Type}.
Variable read_csv : content -> result DataFrame.
Variable to_csv : DataFrame -> content.
Variables csv_folder new_image_path : string.

Local Abbreviation one_csv := (change_one_csv content read_csv to_csv csv_folder new_image_path).
Local Abbreviation loop := (change_loop content read_csv to_csv csv_folder new_image_path).
Local Abbreviation outcome := (csv_outcome content read_csv new_image_path).
Local Abbreviation ok := (csv_ok content read_csv).
Local Abbreviation file_path_of := (join csv_folder).
Local Abbreviation run := (change_image_paths content read_csv to_csv csv_folder new_image_path).

Lemma outcome_Ok_lookup (fs : gmap string content) p df' :
  outcome fs p = Ok df' -> is_Some (fs !! p).
Proof.
  unfold csv_outcome, open_file. destruct (fs !! p); [by eexists|done].
Qed.

(** The loop keeps the set of paths that hold a file and only writes the
    CSV files of the listing. *)
Lemma loop_frame filenames : forall st : gmap string content * list message,
  dom (loop filenames st).1.1 = dom st.1 /\
  forall p, (forall f, f ∈ filenames -> is_csv f = true -> p <> file_path_of f) ->
            (loop filenames st).1.1 !! p = st.1 !! p.
Proof.
  induction filenames as [|f filenames IH]; intros [fs out]; [done|].
  cbn [change_loop]. fold (is_csv f). destruct (is_csv f) eqn:Hcsv.
  - rewrite change_one_csv_outcome.
    destruct (outcome fs (file_path_of f)) as [df'|e] eqn:Hout.
    + destruct (IH (<[file_path_of f := to_csv df']> fs, out ++ [PathsChanged f]))
        as [Hdom Hother].
      cbn [fst] in *. split.
      * rewrite Hdom. apply dom_insert_lookup_L. by eapply outcome_Ok_lookup.
      * intros p Hp. rewrite Hother.
        -- apply lookup_insert_ne. intros E.
           eapply Hp; [apply list_elem_of_here|done|done].
        -- intros g Hg. apply Hp. by apply list_elem_of_further.
    + done.
  - destruct (IH (fs, out)) as [Hdom Hother]. split; [done|].
    intros p Hp. apply Hother. intros g Hg. apply Hp. by apply list_elem_of_further.
Qed.

(** X12.  Whatever the folder holds and however the call ends,
    [change_image_paths] creates no file and deletes none, and a path that
    is not that of a CSV file of the listing holds after the call what it
    held before. *)
Theorem change_image_paths_touches_only_listed_csv_files
    (fs : gmap string content) listdir :
  let fs' := (run listdir fs).1 in
  dom fs' = dom fs /\
  forall p,
    (forall filenames f, listdir = Ok filenames -> f ∈ filenames ->
                         is_csv f = true -> p <> file_path_of f) ->
    fs' !! p = fs !! p.
Proof.
  cbn zeta. unfold change_image_paths. destruct listdir as [filenames|e]; [|done].
  destruct (loop_frame filenames (fs, [])) as [Hdom Hother].
  destruct (loop filenames (fs, [])) as [[fs' out] [[]|e]]; cbn [fst] in *.
  - split; [done|]. intros p Hp. apply Hother. intros f. by apply Hp.
  - split; [done|]. intros p Hp. apply Hother. intros f. by apply Hp.
Qed.

Lemma rewrite_path_Ok_inv x y :
  rewrite_path new_image_path x = Ok y ->
  exists p, x = Str p /\ y = Str (join new_image_path (basename p)).
Proof. destruct x as [p| |]; [|done..]. intros [= <-]. by exists p. Qed.

Lemma change_column_Ok_inv df df' :
  change_column new_image_path df = Ok df' ->
  exists i, col_index "image_path" (columns df) = Some i /\
            Forall (fun row => exists p, cell_at i row = Str p) (rows df) /\
            df' = rewritten new_image_path i df.
Proof.
  intros Hok. pose proof Hok as Hok'. revert Hok'.
  unfold change_column at 1, get_column.
  destruct (col_index "image_path" (columns df)) as [i|] eqn:Hi; [|done].
  cbn [bind]. destruct (mapM _ _) as [values|] eqn:Hvalues; [|done].
  intros _. apply mapM_inv, Forall2_fmap_l in Hvalues.
  assert (Hrows : Forall (fun row => exists p, cell_at i row = Str p) (rows df)).
  { apply Forall_forall. intros row Hrow.
    apply list_elem_of_lookup_1 in Hrow as [k Hk].
    destruct (Forall2_lookup_l _ _ _ _ _ Hvalues Hk) as (y & _ & Hy).
    cbn [compose] in Hy. apply rewrite_path_Ok_inv in Hy as (p & Hp & _). by exists p. }
  exists i. split; [done|]. split; [done|].
  rewrite (change_column_ok _ _ _ Hi Hrows) in Hok. congruence.
Qed.

Lemma cell_at_Str_lt i (row : list cell) p :
  cell_at i row = Str p -> (i < length row)%nat.
Proof.
  unfold cell_at. intros H. destruct (Nat.lt_ge_cases i (length row)) as [|Hge]; [done|].
  by rewrite nth_overflow in H.
Qed.

Lemma rewrite_cell_idem x :
  rewrite_cell new_image_path (rewrite_cell new_image_path x)
  = rewrite_cell new_image_path x.
Proof.
  destruct x as [p| |]; [|done..]. cbn [rewrite_cell]. f_equal. f_equal.
  apply basename_join. by destruct (basename_split p) as (_ & _ & ? & _).
Qed.

Lemma rewritten_idem i df :
  Forall (fun row => exists p, cell_at i row = Str p) (rows df) ->
  rewritten new_image_path i (rewritten new_image_path i df)
  = rewritten new_image_path i df.
Proof.
  intros Hrows. unfold rewritten. cbn [columns rows]. f_equal.
  rewrite map_map. apply map_ext_Forall.
  eapply Forall_impl; [exact Hrows|]. intros row [p Hp]. cbn beta.
  rewrite cell_at_insert_eq by (by eapply cell_at_Str_lt).
  by rewrite rewrite_cell_idem, list_insert_insert_eq.
Qed.

Lemma rewritten_Str i df :
  Forall (fun row => exists p, cell_at i row = Str p) (rows df) ->
  Forall (fun row => exists p, cell_at i row = Str p)
         (rows (rewritten new_image_path i df)).
Proof.
  intros Hrows. unfold rewritten. cbn [rows]. apply Forall_fmap.
  eapply Forall_impl; [exact Hrows|]. intros row [p Hp]. cbn [compose].
  rewrite cell_at_insert_eq by (by eapply cell_at_Str_lt).
  rewrite Hp. by eexists.
Qed.

(** X13.  The rewriting of the column image_path is idempotent: on the
    table that line 26 produced, the same rewriting succeeds and changes
    nothing, the base name of a path joined to [new_image_path] being the
    base name it was joined from. *)
Theorem change_column_idempotent df df' :
  change_column new_image_path df = Ok df' ->
  change_column new_image_path df' = Ok df'.
Proof.
  intros Hok. destruct (change_column_Ok_inv _ _ Hok) as (i & Hi & Hrows & ->).
  rewrite (change_column_ok _ (rewritten new_image_path i df) i Hi (rewritten_Str _ _ Hrows)).
  by rewrite rewritten_idem.
Qed.

(** X14.  When a CSV file is read back as the table that was written to
    it, a second call of [change_image_paths] on the same folder leaves
    every file as the first call left it and prints the same lines. *)
Theorem change_image_paths_second_run (fs : gmap string content) filenames :
  (forall df, read_csv (to_csv df) = Ok df) ->
  listing_ok filenames ->
  Forall (fun f => is_csv f = true -> exists df i, ok fs (file_path_of f) df i)
         filenames ->
  run (Ok filenames) (run (Ok filenames) fs).1 = run (Ok filenames) fs.
Proof.
  intros Hround Hlist Hall. unfold change_image_paths.
  destruct (loop_ok read_csv to_csv csv_folder new_image_path filenames fs [] Hlist Hall)
    as (fs1 & -> & Hdone1 & Hother1).
  cbn [fst].
  assert (Hall1 : Forall (fun f => is_csv f = true ->
                            exists df i, ok fs1 (file_path_of f) df i) filenames).
  { rewrite Forall_forall in Hall |- *. intros f Hf Hcsv.
    destruct (Hall f Hf Hcsv) as (df & i & Hok).
    exists (rewritten new_image_path i df), i.
    destruct Hok as (Hfile & Hi & Hrows). split; [|split].
    - eexists. split; [eapply Hdone1; [done..|by split]|apply Hround].
    - done.
    - by apply rewritten_Str. }
  destruct (loop_ok read_csv to_csv csv_folder new_image_path filenames fs1 [] Hlist Hall1)
    as (fs2 & -> & Hdone2 & Hother2).
  f_equal. apply map_eq. intros p.
  destruct (decide (Exists (fun f => is_csv f = true /\ p = file_path_of f) filenames))
    as [(f & Hf & Hcsv & ->)%Exists_exists|Hno].
  - rewrite Forall_forall in Hall, Hall1.
    destruct (Hall f Hf Hcsv) as (df & i & Hok).
    assert (Hok1 : ok fs1 (file_path_of f) (rewritten new_image_path i df) i).
    { destruct Hok as (Hfile & Hi & Hrows). split; [|split].
      - eexists. split; [eapply Hdone1; [done..|by split]|apply Hround].
      - done.
      - by apply rewritten_Str. }
    rewrite (Hdone2 _ _ _ Hf Hcsv Hok1), (Hdone1 _ _ _ Hf Hcsv Hok).
    rewrite rewritten_idem; [done|]. apply Hok.
  - rewrite Hother2; [done|]. intros f Hf Hcsv ->. apply Hno, Exists_exists. by exists f.
Qed.

End ChangePathMore.

(** ** More on the image filter of choosing-data.py *)

Lemma lower_app a b : lower (a +:+ b) = lower a +:+ lower b.
Proof.
  induction a as [|c a IH]; [by rewrite !str_app_nil_l|].
  rewrite str_app_cons. cbn [lower]. by rewrite str_app_cons, IH.
Qed.

Lemma startswith_app pre s : startswith (pre +:+ s) pre = true.
Proof.
  unfold startswith. induction pre as [|a pre IH].
  - rewrite str_app_nil_l. by destruct s.
  - rewrite str_app_cons. cbn [String.prefix]. by destruct (ascii_dec a a).
Qed.

Lemma endswith_slice s suf : endswith s suf = true -> slice_last (len suf) s = suf.
Proof. unfold endswith. by intros [_ H%String.eqb_eq]%andb_true_iff. Qed.

Lemma len_slice_last n s : len (slice_last n s) = Nat.min n (len s).
Proof. unfold slice_last. rewrite len_sdrop. lia. Qed.

Lemma short_extension_length ext :
  lower ext ∈ short_image_extensions -> len ext = 4%nat.
Proof.
  intros H. rewrite <- len_lower. unfold short_image_extensions in H.
  rewrite !elem_of_cons, elem_of_nil in H.
  destruct H as [->|[->|[->|[->|[]]]]]; done.
Qed.

(** What a name that passes the test of line 32 is made of. *)
Lemma is_depth_image_shape file :
  is_depth_image file = true ->
  exists stem ext,
    file = "CFE" +:+ stem +:+ "m" +:+ ext /\
    lower ext ∈ short_image_extensions.
Proof.
  intros Hfile. pose proof Hfile as H. unfold is_depth_image in H.
  apply andb_true_iff in H as [H Hm]. apply andb_true_iff in H as [Hext Hcfe].
  assert (Hlen : (5 <= len file)%nat).
  { unfold endswith in Hm. apply andb_true_iff in Hm as [Hm%Nat.leb_le _].
    rewrite str_len_app, len_slice_last in Hm. cbn [len] in Hm. lia. }
  destruct (endswith_inv _ _ Hm) as [a Ha].
  assert (Hshort : lower (slice_last 4 file) ∈ short_image_extensions).
  { rewrite slice_last_lower. unfold endswith_any, image_extensions in Hext.
    cbn [existsb] in Hext. rewrite !orb_true_iff in Hext.
    unfold short_image_extensions. rewrite !elem_of_cons.
    destruct Hext as [H|[H|[H|[H|[H|[H|H]]]]]]; [| | | | | |done].
    + apply endswith_slice in H. auto.
    + apply endswith_slice in H. auto.
    + rewrite is_depth_image_five_character_extension in Hfile by auto. done.
    + apply endswith_slice in H. auto.
    + apply endswith_slice in H. auto.
    + rewrite is_depth_image_five_character_extension in Hfile by auto. done. }
  set (ext := slice_last 4 file) in *.
  assert (Ha3 : exists stem, a = "CFE" +:+ stem).
  { unfold startswith in Hcfe. rewrite Ha in Hcfe.
    destruct a as [|c1 [|c2 [|c3 a']]];
      rewrite ?str_app_cons, ?str_app_nil_l in Hcfe; cbn [String.prefix] in Hcfe;
      repeat match type of Hcfe with
             | (if ascii_dec ?x ?y then _ else _) = true =>
                 destruct (ascii_dec x y) as [E|]; [|done];
                 try discriminate E; try subst y
             end.
    by exists a'. }
  destruct Ha3 as [stem ->].
  exists stem, ext. split; [|done]. etrans; [exact Ha|]. unfold ext. by rewrite !str_app_assoc.
Qed.

Lemma is_depth_image_intro stem ext :
  lower ext ∈ short_image_extensions ->
  is_depth_image ("CFE" +:+ stem +:+ "m" +:+ ext) = true.
Proof.
  intros Hext.
  pose proof (short_extension_length _ Hext) as Hlen.
  unfold is_depth_image. rewrite !andb_true_iff. split; [split|].
  - replace ("CFE" +:+ stem +:+ "m" +:+ ext)
      with (("CFE" +:+ stem +:+ "m") +:+ ext) by (by rewrite !str_app_assoc).
    rewrite lower_app. unfold endswith_any, image_extensions. cbn [existsb].
    unfold short_image_extensions in Hext.
    rewrite !elem_of_cons, elem_of_nil in Hext. rewrite !orb_true_iff.
    destruct Hext as [E|[E|[E|[E|[]]]]]; rewrite E, endswith_app; auto 10.
  - apply startswith_app.
  - replace (slice_last 4 ("CFE" +:+ stem +:+ "m" +:+ ext)) with ext.
    + replace ("CFE" +:+ stem +:+ "m" +:+ ext)
        with (("CFE" +:+ stem) +:+ "m" +:+ ext) at 1 by (by rewrite !str_app_assoc).
      apply endswith_app.
    + rewrite <- Hlen.
      replace ("CFE" +:+ stem +:+ "m" +:+ ext)
        with (("CFE" +:+ stem +:+ "m") +:+ ext) by (by rewrite !str_app_assoc).
      by rewrite slice_last_app.
Qed.

(** X15.  The names that pass the test of line 32 are exactly the names
    made of 'CFE', any characters, an 'm' and, in upper or lower case, one
    of the extensions .png, .jpg, .gif and .bmp. *)
Theorem is_depth_image_iff file :
  is_depth_image file = true <->
  exists stem ext,
    file = "CFE" +:+ stem +:+ "m" +:+ ext /\
    lower ext ∈ short_image_extensions.
Proof.
  split; [apply is_depth_image_shape|].
  intros (stem & ext & -> & Hext). by apply is_depth_image_intro.
Qed.

(** ** The depth suffix between matchdepth.py and choosing-data.py *)

Lemma startswith_inv s pre : startswith s pre = true -> exists r, s = pre +:+ r.
Proof.
  unfold startswith. revert s. induction pre as [|a pre IH]; intros s H.
  - exists s. by rewrite str_app_nil_l.
  - destruct s as [|b s]; [done|]. cbn [String.prefix] in H.
    destruct (ascii_dec a b) as [<-|]; [|done].
    destruct (IH _ H) as [r ->]. exists r. by rewrite str_app_cons.
Qed.

Lemma contains_lower x s :
  lower_char x = x -> contains x s = true -> contains x (lower s) = true.
Proof.
  intros Hx. induction s as [|a s IH]; [done|]. cbn [contains lower].
  intros [H|H]%orb_true_iff; apply orb_true_iff.
  - left. apply Ascii.eqb_eq in H as ->. rewrite Hx. apply Ascii.eqb_refl.
  - right. by apply IH.
Qed.

Lemma lower_char_dot c : lower_char c = "."%char -> c = "."%char.
Proof.
  destruct c as [[] [] [] [] [] [] [] []]; vm_compute; intros H;
    first [reflexivity|discriminate H].
Qed.

(** A short extension is a dot and three characters that are neither a dot
    nor a slash. *)
Lemma short_extension_shape ext :
  lower ext ∈ short_image_extensions ->
  exists e', ext = String "." e' /\
             contains sep e' = false /\ contains "." e' = false.
Proof.
  intros H. destruct ext as [|c e'].
  { unfold short_image_extensions in H. rewrite !elem_of_cons, elem_of_nil in H.
    by destruct H as [?|[?|[?|[?|?]]]]. }
  assert (Hl : lower_char c = "."%char /\
               lower e' ∈ ["png"; "jpg"; "gif"; "bmp"]).
  { unfold short_image_extensions in H. cbn [lower] in H.
    rewrite !elem_of_cons, elem_of_nil in H. rewrite !elem_of_cons.
    destruct H as [[= -> ->]|[[= -> ->]|[[= -> ->]|[[= -> ->]|[]]]]]; auto 10. }
  destruct Hl as [Hc He]. apply lower_char_dot in Hc as ->.
  exists e'. split; [done|].
  rewrite !elem_of_cons, elem_of_nil in He.
  split.
  - destruct (contains sep e') eqn:E; [|done].
    apply (contains_lower sep) in E; [|done].
    destruct He as [He|[He|[He|[He|[]]]]]; rewrite He in E; discriminate E.
  - destruct (contains "." e') eqn:E; [|done].
    apply (contains_lower ".") in E; [|done].
    destruct He as [He|[He|[He|[He|[]]]]]; rewrite He in E; discriminate E.
Qed.

(** The name of a depth image splits before its extension, into a name
    that ends with ['m']. *)
Lemma depth_image_splitext file :
  is_depth_image file = true -> contains sep file = false ->
  exists original_name extension,
    splitext file = (original_name, extension) /\
    endswith original_name "m" = true.
Proof.
  intros Hfile Hsep.
  destruct (is_depth_image_shape _ Hfile) as (stem & ext & -> & Hext).
  destruct (short_extension_shape _ Hext) as (e' & -> & Hes & Hed).
  exists ("CFE" +:+ stem +:+ "m"), (String "." e').
  replace ("CFE" +:+ stem +:+ "m" +:+ String "." e')
    with (("CFE" +:+ stem +:+ "m") +:+ String "." e') in * by (by rewrite !str_app_assoc).
  split.
  - apply splitext_app; [|done..|by rewrite !str_app_cons].
    rewrite contains_app in Hsep. by apply orb_false_iff in Hsep as [? _].
  - replace ("CFE" +:+ stem +:+ "m") with (("CFE" +:+ stem) +:+ "m")
      by (by rewrite !str_app_assoc).
    apply endswith_app.
Qed.

(** The files that [os.walk] lists are files of the directory. *)
Lemma os_walk_files : forall d root r dirs files,
  (r, dirs, files) ∈ os_walk root d -> forall f, f ∈ files -> f ∈ file_names d.
Proof.
  fix IH 1. intros [name files subdirs] root r dirs fs Hin f Hf.
  cbn [os_walk] in Hin. cbn [file_names]. apply elem_of_app.
  apply elem_of_cons in Hin as [E|Hin].
  - injection E as -> -> ->. by left.
  - right. induction subdirs as [|sub subdirs IHs]; [by apply elem_of_nil in Hin|].
    cbn [flat_map]. apply elem_of_app.
    apply elem_of_app in Hin as [Hin|Hin].
    + left. eapply IH; eauto.
    + right. by apply IHs.
Qed.

Lemma get_all_images_elem root d p :
  p ∈ get_all_images root d ->
  exists r file, p = join r file /\ file ∈ file_names d /\
                 is_depth_image file = true.
Proof.
  unfold get_all_images. intros Hp.
  apply list_elem_of_In, in_flat_map in Hp as ([[r dirs] files] & Hwalk & Hp).
  apply in_map_iff in Hp as (file & <- & Hfile).
  apply filter_In in Hfile as [Hfile Hdepth].
  exists r, file. split; [done|]. split; [|done].
  eapply os_walk_files; [by apply list_elem_of_In|by apply list_elem_of_In].
Qed.

Section Pipeline.

Context {content : Type}.
Variable str_of_float : pyfloat -> string.
Variable str_of_timestamp : Timestamp -> string.

Local Abbreviation step := (rename_one content str_of_float str_of_timestamp).

(** X16.  The two scripts agree on the depth suffix.  The name that
    matchdepth.py gives to an image whose name starts with 'CFE' and has a
    short image extension passes the test of [get_all_images]; and, in a
    directory whose file names have no slash, every image that
    [get_all_images] returns is one that the rename loop skips. *)
Theorem depth_suffix_agreement :
  (forall original_name depth extension,
     startswith original_name "CFE" = true ->
     lower extension ∈ short_image_extensions ->
     is_depth_image (original_name +:+ "_" +:+ depth +:+ "m" +:+ extension) = true) /\
  (forall root d p,
     Forall (fun f => contains sep f = false) (file_names d) ->
     p ∈ get_all_images root d ->
     forall st ts1 depth ts2,
       step st (ts1, depth, ts2, p) = (st.1, st.2 ++ [Skipping p])).
Proof.
  split.
  - intros original_name depth extension [r ->]%startswith_inv Hext.
    replace (("CFE" +:+ r) +:+ "_" +:+ depth +:+ "m" +:+ extension)
      with ("CFE" +:+ (r +:+ "_" +:+ depth) +:+ "m" +:+ extension)
      by (by rewrite !str_app_assoc).
    by apply is_depth_image_intro.
  - intros root d p Hnames Hp [fs out] ts1 depth ts2.
    destruct (get_all_images_elem _ _ _ Hp) as (r & file & -> & Hfile & Himg).
    rewrite Forall_forall in Hnames. specialize (Hnames _ Hfile).
    destruct (depth_image_splitext _ Himg Hnames) as (n & e & Hsplit & Hm).
    cbn [rename_one fst snd]. rewrite (basename_join _ _ Hnames), Hsplit, Hm. done.
Qed.

End Pipeline.

(** ** choosing-data.py: [copy_images] *)

Section CopyFacts.

Context {content : Type}.
Variable random_sample : list string -> nat -> list string.

Local Abbreviation copy_step := (copy_one content).
Local Abbreviation copy := (copy_images content random_sample).

(** One turn of the loop writes nothing, or writes one file at a path
    that held none. *)
Lemma copy_one_cases destination_dir (fs : gmap string content) out n image :
  (exists out', copy_step destination_dir (fs, out, n) image = (fs, out', n)) \/
  (exists c, fs !! image = Some c /\
             fs !! join destination_dir (basename image) = None /\
             copy_step destination_dir (fs, out, n) image
             = (<[join destination_dir (basename image) := c]> fs, out, S n)).
Proof.
  cbn [copy_one]. unfold path_exists.
  destruct (fs !! join destination_dir (basename image)) as [c'|] eqn:Hdst.
  - left. rewrite bool_decide_eq_true_2 by (by eexists). by eexists.
  - rewrite bool_decide_eq_false_2 by (by intros [? ?]).
    unfold shutil_copy. destruct (fs !! image) as [c|] eqn:Hsrc.
    + right. by exists c.
    + left. by eexists.
Qed.

Lemma copy_loop_inv destination_dir (fs0 : gmap string content) images :
  forall (fs : gmap string content) out n,
    let st := fold_left (copy_step destination_dir) images (fs, out, n) in
    (fs0 ⊆ fs -> fs0 ⊆ st.1.1) /\
    ((forall p c, fs !! p = Some c -> exists p0, fs0 !! p0 = Some c) ->
     forall p c, st.1.1 !! p = Some c -> exists p0, fs0 !! p0 = Some c) /\
    (size st.1.1 + n = size fs + st.2)%nat /\
    (n <= st.2 <= n + length images)%nat.
Proof.
  induction images as [|image images IH]; intros fs out n; cbn zeta.
  { cbn [fold_left fst snd length]. split; [done|]. split; [done|]. lia. }
  cbn [fold_left length].
  destruct (copy_one_cases destination_dir fs out n image)
    as [[out' ->]|(c & Hsrc & Hdst & ->)].
  - specialize (IH fs out' n). cbn zeta in IH.
    destruct IH as (H1 & H2 & H3 & H4). repeat split; [done|done|lia..].
  - specialize (IH (<[join destination_dir (basename image) := c]> fs) out (S n)).
    cbn zeta in IH. destruct IH as (H1 & H2 & H3 & H4).
    rewrite map_size_insert_None in H3 by done.
    split; [|split; [|split; lia]].
    + intros Hsub. apply H1. etrans; [exact Hsub|]. by apply insert_subseteq.
    + intros Hold. apply H2. intros p c' Hp.
      destruct (decide (p = join destination_dir (basename image))) as [->|Hne].
      * rewrite lookup_insert_eq in Hp. injection Hp as <-. by eapply Hold.
      * rewrite lookup_insert_ne in Hp by done. by eapply Hold.
Qed.

(** X17.  [copy_images] never overwrites and never removes a file: every
    file keeps its content, and every file that is new holds the content
    of a file that was there.  When the call returns, the number it
    returns is the number of files added, which is at most the number of
    images of the source, and at most the number asked for when
    [random.sample] gives as many images as it is asked; a negative number
    of images makes the call raise ValueError before any file is
    written. *)
Theorem copy_images_only_adds_files
    source_dir source destination_dir num_images (fs : gmap string content) :
  let r := copy source_dir source destination_dir num_images fs in
  fs ⊆ r.1.1 /\
  (forall p c, r.1.1 !! p = Some c -> exists p0, fs !! p0 = Some c) /\
  (forall copied_count, r.2 = Ok copied_count ->
     size r.1.1 = (size fs + copied_count)%nat /\
     ((forall l k, (k <= length l)%nat -> length (random_sample l k) = k) ->
      (copied_count <= length (get_all_images source_dir source))%nat /\
      Z.of_nat copied_count <= num_images)) /\
  (num_images < 0 -> r = (fs, [], Raise ValueError)).
Proof.
  cbn zeta. unfold copy_images.
  set (all_images := get_all_images source_dir source).
  destruct (Z.ltb_spec (Z.of_nat (length all_images)) num_images) as [Hfew|Hmany].
  - rewrite (proj2 (Z.ltb_ge _ _)) by lia.
    rewrite Nat2Z.id.
    pose proof (copy_loop_inv destination_dir fs
                  (random_sample all_images (length all_images)) fs
                  [OnlyFound (length all_images) num_images] O) as Hinv.
    cbn zeta in Hinv.
    destruct (fold_left _ _ _) as [[fs' out] n]. cbn [fst snd] in *.
    destruct Hinv as (H1 & H2 & H3 & H4).
    split; [by apply H1|]. split; [by apply H2; eauto|]. split; [|lia].
    intros copied_count [= <-]. split; [lia|].
    intros Hsample. rewrite Hsample in H4 by done. lia.
  - destruct (Z.ltb_spec num_images 0) as [Hneg|Hpos].
    { cbn [fst snd]. split; [done|]. split; [by eauto|]. split; [done|]. done. }
    pose proof (copy_loop_inv destination_dir fs
                  (random_sample all_images (Z.to_nat num_images)) fs [] O) as Hinv.
    cbn zeta in Hinv.
    destruct (fold_left _ _ _) as [[fs' out] n]. cbn [fst snd] in *.
    destruct Hinv as (H1 & H2 & H3 & H4).
    split; [by apply H1|]. split; [by apply H2; eauto|]. split; [|lia].
    intros copied_count [= <-]. split; [lia|].
    intros Hsample. rewrite Hsample in H4 by lia. lia.
Qed.

End CopyFacts.

(** ** choosing-data.py: the viewer *)

Lemma handle_event_ok num_images st ev :
  viewer_ok num_images st.1 -> viewer_ok num_images (handle_event num_images st ev).1.
Proof.
  destruct st as [v out]. intros (Hidx & Hnd & Hall). cbn [fst] in *.
  assert (0 < num_images) by lia.
  destruct ev as [|[| | |]|]; cbn [handle_event fst]; try done.
  - split; [|done]. cbn [index_actual_image]. by apply Z.mod_pos_bound.
  - split; [|done]. cbn [index_actual_image]. by apply Z.mod_pos_bound.
  - case_bool_decide as Hin; cbn [fst]; [done|].
    split; [done|]. cbn [images_to_delete]. split.
    + apply NoDup_app. split; [done|]. split; [|apply NoDup_singleton].
      intros x Hx ->%list_elem_of_singleton. done.
    + apply Forall_app. split; [done|]. by constructor.
Qed.

Lemma handle_events_ok num_images events : forall st,
  viewer_ok num_images st.1 ->
  viewer_ok num_images (fold_left (handle_event num_images) events st).1.
Proof.
  induction events as [|ev events IH]; intros st Hok; [done|].
  cbn [fold_left]. by apply IH, handle_event_ok.
Qed.

Lemma main_loop_ok num_images batches : forall st,
  viewer_ok num_images st.1 -> viewer_ok num_images (main_loop num_images batches st).1.
Proof.
  induction batches as [|events batches IH]; intros st Hok; [done|].
  cbn [main_loop].
  pose proof (handle_events_ok num_images events st Hok) as Hok'.
  destruct (running _); [by apply IH|done].
Qed.

(** X18.  Whatever the keys pressed, the index of the image shown stays
    within the images, so that [images[index_actual_image]] is always
    there, and an image is marked for deletion once at most. *)
Theorem main_loop_keeps_index_within_images num_images batches out :
  0 < num_images ->
  let v := (main_loop num_images batches (viewer_start, out)).1 in
  0 <= index_actual_image v < num_images /\
  NoDup (images_to_delete v) /\
  Forall (fun index => 0 <= index < num_images) (images_to_delete v).
Proof.
  intros Hn. apply main_loop_ok. cbn [fst]. split; [cbn; lia|].
  split; [apply NoDup_nil_2|constructor].
Qed.

(** The index after [n] presses of the right arrow. *)
Lemma right_presses num_images n : forall v out,
  (fold_left (handle_event num_images) (replicate n (KEYDOWN K_RIGHT)) (v, out)).1
  = {| index_actual_image :=
         if decide (n = O) then index_actual_image v
         else (index_actual_image v + Z.of_nat n) mod num_images;
       images_to_delete := images_to_delete v;
       running := running v |}.
Proof.
  induction n as [|n IH]; intros v out.
  - by destruct v.
  - cbn [replicate fold_left handle_event]. rewrite IH.
    cbn [index_actual_image images_to_delete running]. f_equal.
    destruct (decide (n = O)) as [->|Hn]; [done|].
    destruct (decide (S n = O)); [done|].
    rewrite Zplus_mod_idemp_l. f_equal. lia.
Qed.

(** X19.  The arrows turn through the images: the right arrow undoes the
    left arrow and the left arrow the right one, and as many presses of
    the right arrow as there are images lead back to the image shown. *)
Theorem arrows_turn_through_the_images num_images v out :
  0 <= index_actual_image v < num_images ->
  let press k st := handle_event num_images st (KEYDOWN k) in
  index_actual_image (press K_RIGHT (press K_LEFT (v, out))).1 = index_actual_image v /\
  index_actual_image (press K_LEFT (press K_RIGHT (v, out))).1 = index_actual_image v /\
  index_actual_image
    (fold_left (handle_event num_images)
       (replicate (Z.to_nat num_images) (KEYDOWN K_RIGHT)) (v, out)).1
  = index_actual_image v.
Proof.
  intros Hidx. cbn zeta. cbn [handle_event fst index_actual_image].
  split; [|split].
  - rewrite Zplus_mod_idemp_l.
    replace (index_actual_image v - 1 + 1) with (index_actual_image v) by lia.
    apply Z.mod_small. lia.
  - rewrite Zminus_mod_idemp_l.
    replace (index_actual_image v + 1 - 1) with (index_actual_image v) by lia.
    apply Z.mod_small. lia.
  - rewrite right_presses. cbn [index_actual_image].
    destruct (decide (Z.to_nat num_images = O)); [lia|].
    rewrite Z2Nat.id by lia.
    rewrite <- (Z.mul_1_l num_images) at 1.
    rewrite Z.mod_add by lia. apply Z.mod_small. lia.
Qed.

Lemma length_omap_le {A B} (f : A -> option B) l : (length (omap f l) <= length l)%nat.
Proof.
  induction l as [|x l IH]; [done|]. csimpl.
  destruct (f x); cbn [length]; lia.
Qed.

(** The elements that [omap] keeps are those of the filtered list, in
    their places. *)
Lemma omap_filter_lookup {A B} (f : A -> option B) l : forall k,
  omap f l !! k = List.filter (fun x => bool_decide (is_Some (f x))) l !! k ≫= f.
Proof.
  induction l as [|x l IH]; intros k; [done|]. csimpl.
  destruct (f x) as [y|] eqn:Hx.
  - rewrite bool_decide_eq_true_2 by (by eexists).
    destruct k as [|k]; [by cbn; rewrite Hx|]. apply IH.
  - rewrite bool_decide_eq_false_2 by (by intros [? ?]). apply IH.
Qed.

Lemma length_omap_filter {A B} (f : A -> option B) l :
  length (omap f l) = length (List.filter (fun x => bool_decide (is_Some (f x))) l).
Proof.
  induction l as [|x l IH]; [done|]. csimpl.
  destruct (f x) as [y|] eqn:Hx.
  - rewrite bool_decide_eq_true_2 by (by eexists). cbn [length]. by rewrite IH.
  - by rewrite bool_decide_eq_false_2 by (by intros [? ?]).
Qed.

(** An element of a filtered list stands in the list at the same place or
    further. *)
Lemma filter_lookup_ge {A} (p : A -> bool) l : forall k x,
  List.filter p l !! k = Some x -> exists j, (k <= j)%nat /\ l !! j = Some x.
Proof.
  induction l as [|y l IH]; intros k x; [done|]. cbn [List.filter].
  destruct (p y).
  - destruct k as [|k]; cbn.
    + intros [= ->]. exists O. split; [lia|done].
    + intros H. destruct (IH _ _ H) as (j & Hj & Hl). exists (S j). split; [lia|done].
  - intros H. destruct (IH _ _ H) as (j & Hj & Hl). exists (S j). split; [lia|done].
Qed.

(** In a list without repetition, the element at place [k] of the filtered
    list is the element at place [k] of the list exactly when the filter
    keeps every element up to that place. *)
Lemma filter_lookup_same {A} (p : A -> bool) l : forall k x,
  NoDup l -> l !! k = Some x ->
  (List.filter p l !! k = Some x <-> Forall (fun y => p y = true) (take (S k) l)).
Proof.
  induction l as [|y l IH]; intros k x Hnd Hk; [done|].
  apply NoDup_cons in Hnd as [Hy Hnd]. cbn [List.filter take].
  destruct (p y) eqn:Hpy.
  - destruct k as [|k]; cbn in Hk |- *.
    + injection Hk as ->. split; [|done]. intros _. rewrite take_0. by repeat constructor.
    + rewrite (IH k x Hnd Hk). split; [by constructor|].
      intros H. by apply Forall_cons in H as [_ H].
  - split.
    + intros H. exfalso. destruct (filter_lookup_ge _ _ _ _ H) as (j & Hj & Hl).
      destruct k as [|k]; cbn in Hk.
      * injection Hk as ->. apply Hy. by eapply list_elem_of_lookup_2.
      * assert (j = k) by (eapply NoDup_lookup; eauto). lia.
    + intros H. apply Forall_cons in H as [H _]. congruence.
Qed.

Section ShowFacts.

Context {content surface : Type}.
Variable convert : content -> option surface.

Local Abbreviation upload := (upload_images_multiprocessing content surface convert).
Local Abbreviation show := (show_images content surface convert).
Local Abbreviation remove_one := (@delete_one content).
Local Abbreviation remove_marked := (@delete_marked content).

(** The image of a path: its file, read and converted. *)
Local Abbreviation image_of fs := (fun p : string => (fs : gmap string content) !! p ≫= convert).

Lemma upload_images_spec root d (fs : gmap string content) :
  (upload root d fs).1.1 = omap (image_of fs) (get_all_images root d) /\
  (upload root d fs).1.2 = get_all_images root d.
Proof.
  unfold upload_images_multiprocessing. cbn [fst snd]. split; [|done].
  induction (get_all_images root d) as [|p paths IH]; [done|].
  csimpl. unfold read_image at 1. destruct (fs !! p) as [data|]; csimpl.
  - destruct (convert data); csimpl; by rewrite IH.
  - exact IH.
Qed.

Lemma delete_one_in_range image_paths (fs : gmap string content) out cur index p :
  0 <= index -> image_paths !! Z.to_nat index = Some p ->
  exists out',
    remove_one image_paths (fs, out, cur) index
    = Ok (match fs !! p with Some _ => delete p fs | None => fs end, out', Some p).
Proof.
  intros Hidx Hp. cbn [delete_one].
  rewrite (proj2 (Z.ltb_ge _ _)) by lia. rewrite Hp. unfold os_remove.
  destruct (fs !! p); by eexists.
Qed.

Lemma delete_marked_in_range image_paths marked :
  Forall (fun index => 0 <= index < Z.of_nat (length image_paths)) marked ->
  forall (fs : gmap string content) out cur,
  exists fs' out',
    remove_marked image_paths marked (fs, out, cur) = Ok (fs', out') /\
    fs' ⊆ fs /\
    forall p, p ∉ image_paths -> fs' !! p = fs !! p.
Proof.
  induction 1 as [|index marked Hidx _ IH]; intros fs out cur.
  { exists fs, out. by cbn. }
  destruct (lookup_lt_is_Some_2 image_paths (Z.to_nat index)) as [p Hp]; [lia|].
  destruct (delete_one_in_range image_paths fs out cur index p) as [out1 Hone];
    [lia|done|].
  cbn [delete_marked]. rewrite Hone. cbn [bind].
  destruct (IH (match fs !! p with Some _ => delete p fs | None => fs end) out1 (Some p))
    as (fs' & out' & -> & Hsub & Hother).
  exists fs', out'. split; [done|]. split.
  - etrans; [exact Hsub|]. destruct (fs !! p); [apply delete_subseteq|done].
  - intros q Hq. rewrite (Hother q Hq).
    destruct (fs !! p) eqn:E; [|done]. apply lookup_delete_ne.
    intros ->. apply Hq. by eapply list_elem_of_lookup_2.
Qed.

(** X20.  Once the window is closed, [show_images] returns without an
    exception: every index marked lies within [image_paths].  It creates
    and changes no file, and the files it removes are among the images
    that the test of line 130 selects in the directory. *)
Theorem show_images_removes_only_listed_images
    root d batches (fs : gmap string content) r :
  show_images content surface convert root d batches fs = Some r ->
  exists fs' out,
    r = Ok (fs', out) /\
    fs' ⊆ fs /\
    forall p, p ∉ get_all_images root d -> fs' !! p = fs !! p.
Proof.
  unfold show_images.
  destruct (upload_images_spec root d fs) as [Himages Hpaths].
  destruct (upload root d fs) as [[images image_paths] out]. cbn [fst snd] in *.
  destruct (Z.eqb_spec (Z.of_nat (length images)) 0) as [Hzero|Hpos].
  { intros [= <-]. by eexists _, _. }
  pose proof (main_loop_ok (Z.of_nat (length images)) batches (viewer_start, out)) as Hok.
  unfold viewer_start in Hok.
  destruct (main_loop _ _ _) as [v out']. cbn [fst] in Hok.
  destruct Hok as (_ & _ & Hall).
  { split; [cbn; lia|]. split; [apply NoDup_nil_2|constructor]. }
  destruct (running v); [done|]. intros [= <-].
  destruct (delete_marked_in_range image_paths (images_to_delete v)) with (fs := fs)
    (out := out') (cur := @None string) as (fs' & out'' & -> & Hsub & Hother).
  { eapply Forall_impl; [exact Hall|]. intros index Hidx. cbn beta in Hidx |- *.
    pose proof (length_omap_le (image_of fs) (get_all_images root d)) as Hle.
    rewrite <- Himages, <- Hpaths in Hle. lia. }
  exists fs', out''. split; [done|]. split; [done|]. by rewrite <- Hpaths.
Qed.

(** X21.  The viewer deletes by position in [image_paths], while the
    image at a position comes from the files that could be read and
    converted.  For the image shown at index [k], the file that a mark
    removes is the file the image comes from exactly when no file up to
    that position of [image_paths] failed to load. *)
Theorem show_images_deletes_by_position root d (fs : gmap string content) k :
  let loaded := upload_images_multiprocessing content surface convert root d fs in
  let images := loaded.1.1 in
  let image_paths := loaded.1.2 in
  NoDup image_paths ->
  (k < length images)%nat ->
  exists deleted displayed,
    image_paths !! k = Some deleted /\
    shown_paths content surface convert fs image_paths !! k = Some displayed /\
    images !! k = image_of fs displayed /\
    (forall (fs0 : gmap string content) out cur c, fs0 !! deleted = Some c ->
       delete_one content image_paths (fs0, out, cur) (Z.of_nat k)
       = Ok (delete deleted fs0, out ++ [ImageDeleted deleted], Some deleted)) /\
    (deleted = displayed <->
     Forall (fun p => is_Some (image_of fs p)) (take (S k) image_paths)).
Proof.
  cbn zeta. destruct (upload_images_spec root d fs) as [-> ->].
  set (paths := get_all_images root d). intros Hnd Hk.
  pose proof (length_omap_le (image_of fs) paths) as Hle.
  destruct (lookup_lt_is_Some_2 paths k) as [deleted Hdel]; [lia|].
  pose proof Hk as Hk'. rewrite length_omap_filter in Hk'.
  destruct (lookup_lt_is_Some_2 _ k Hk') as [displayed Hdis].
  exists deleted, displayed. split; [done|]. split; [exact Hdis|]. split; [|split].
  - rewrite omap_filter_lookup. unfold shown_paths in Hdis.
    by rewrite Hdis.
  - intros fs0 out cur c Hc. cbn [delete_one].
    rewrite (proj2 (Z.ltb_ge _ _)) by lia. rewrite Nat2Z.id, Hdel.
    unfold os_remove. by rewrite Hc.
  - unfold shown_paths in Hdis. split.
    + intros <-. apply (filter_lookup_same _ _ _ _ Hnd Hdel) in Hdis.
      eapply Forall_impl; [exact Hdis|]. intros p Hp. by apply bool_decide_eq_true in Hp.
    + intros Hall. enough (Some deleted = Some displayed) by congruence.
      rewrite <- Hdis. symmetry.
      apply (filter_lookup_same _ _ _ _ Hnd Hdel).
      eapply Forall_impl; [exact Hall|]. intros p Hp. by apply bool_decide_eq_true.
Qed.

End ShowFacts.

(** ** More on [extract_frames] *)

Lemma ceil_div_succ start interval :
  0 < interval -> 0 <= start ->
  (start + 1 + interval - 1) / interval
  = (start + interval - 1) / interval + (if start mod interval =? 0 then 1 else 0).
Proof.
  intros Hi Hs.
  pose proof (Z.div_mod start interval ltac:(lia)) as Hdm.
  pose proof (Z.mod_pos_bound start interval Hi) as Hr.
  set (q := start / interval) in *. set (r := start mod interval) in *.
  destruct (Z.eqb_spec r 0) as [Hz|Hnz].
  - replace (start + 1 + interval - 1) with (r + (q + 1) * interval) by lia.
    replace (start + interval - 1) with (interval - 1 + q * interval) by lia.
    rewrite !Z.div_add by lia. rewrite Z.div_small by lia.
    rewrite (Z.div_small (interval - 1)) by lia. lia.
  - replace (start + 1 + interval - 1) with (r + (q + 1) * interval) by lia.
    replace (start + interval - 1) with (r - 1 + (q + 1) * interval) by lia.
    rewrite !Z.div_add by lia. rewrite !Z.div_small by lia. lia.
Qed.

Section FramesMore.

Context {frame : Type}.

(** The number of indices from [start] on, among [length l], that are
    multiples of a positive interval. *)
Lemma length_multiples_from interval (l : list frame) : forall start,
  0 < interval ->
  Z.of_nat (length (multiples_from frame start interval l))
  = (Z.of_nat (start + length l) + interval - 1) / interval
    - (Z.of_nat start + interval - 1) / interval.
Proof.
  induction l as [|fr l IH]; intros start Hi.
  - cbn [length]. rewrite Nat.add_0_r. unfold multiples_from. cbn. lia.
  - rewrite multiples_from_cons, length_app, Nat2Z.inj_add, (IH (S start) Hi).
    cbn [length]. replace (start + S (length l))%nat with (S start + length l)%nat by lia.
    replace (Z.of_nat (S start)) with (Z.of_nat start + 1) by lia.
    rewrite (ceil_div_succ (Z.of_nat start) interval) by lia.
    destruct (Z.of_nat start mod interval =? 0); cbn [length]; lia.
Qed.

(** The call with a non-zero interval. *)
Lemma extract_frames_nonzero
    video_path output_dir frame_rate (cap : capture frame) (fs : gmap string frame) :
  frame_rate <> 0 -> fps frame cap / frame_rate <> 0 ->
  let video_name := (splitext (basename video_path)).1 in
  let saved := multiples_of frame (fps frame cap / frame_rate) (delivered frame cap) in
  extract_frames frame video_path output_dir frame_rate cap fs
  = (save_all frame video_name output_dir saved fs,
     [ProcessingVideo video_name; OutputDirectory output_dir;
      ExtractionCompleted video_name (length saved)],
     Ok tt).
Proof.
  intros Hrate Hi video_name saved. unfold extract_frames, py_floordiv.
  destruct (Z.eqb_spec frame_rate 0) as [|_]; [done|]. fold video_name.
  unfold saved, multiples_of, save_all, delivered.
  destruct (isOpened frame cap); [|done].
  by rewrite (frame_loop_nonzero video_name output_dir _ _ Hi fs 0 0).
Qed.

(** X22.  With a positive interval, [extract_frames] saves one frame in
    every [frame_interval] frames read, the first one included: the number
    of frames it reports is the number of frames read divided by the
    interval, rounded up. *)
Theorem extract_frames_number_of_frames
    video_path output_dir frame_rate (cap : capture frame) (fs : gmap string frame) :
  frame_rate <> 0 ->
  let frame_interval := fps frame cap / frame_rate in
  0 < frame_interval ->
  let video_name := (splitext (basename video_path)).1 in
  let total := Z.of_nat (length (delivered frame cap)) in
  (extract_frames frame video_path output_dir frame_rate cap fs).1.2
  = [ProcessingVideo video_name; OutputDirectory output_dir;
     ExtractionCompleted video_name
       (Z.to_nat ((total + frame_interval - 1) / frame_interval))] /\
  (extract_frames frame video_path output_dir frame_rate cap fs).2 = Ok tt.
Proof.
  intros Hrate frame_interval Hi video_name total.
  rewrite extract_frames_nonzero by (done || fold frame_interval; lia).
  cbn [fst snd]. split; [|done]. fold frame_interval video_name.
  assert (Hlen : length (multiples_of frame frame_interval (delivered frame cap))
                 = Z.to_nat ((total + frame_interval - 1) / frame_interval)).
  { apply Nat2Z.inj. unfold multiples_of.
    rewrite (length_multiples_from _ _ 0%nat Hi).
    cbn [Nat.add]. fold total.
    replace (Z.of_nat 0 + frame_interval - 1) with (frame_interval - 1) by lia.
    rewrite (Z.div_small (frame_interval - 1)) by lia.
    rewrite Z2Nat.id; [lia|]. apply Z.div_pos; lia. }
  by rewrite Hlen.
Qed.

End FramesMore.

(** ** The names of the frames *)

Lemma int_of_digits_app a b : forall acc,
  int_of_digits acc (a +:+ b) = int_of_digits (int_of_digits acc a) b.
Proof.
  induction a as [|c a IH]; intros acc; [by rewrite str_app_nil_l|].
  rewrite str_app_cons. cbn [int_of_digits]. apply IH.
Qed.

Lemma all_digits_app a b : all_digits (a +:+ b) = all_digits a && all_digits b.
Proof.
  induction a as [|c a IH]; [by rewrite str_app_nil_l|].
  rewrite str_app_cons. cbn [all_digits]. by rewrite IH, andb_assoc.
Qed.

Lemma digit_value_digit d : (d < 10)%nat -> digit_value (digit d) = d.
Proof.
  intros Hd. unfold digit_value, digit. rewrite nat_ascii_embedding by lia. lia.
Qed.

Lemma is_digit_digit d : (d < 10)%nat -> is_digit (digit d) = true.
Proof.
  intros Hd. unfold is_digit, digit. rewrite nat_ascii_embedding by lia.
  apply andb_true_iff. split; apply Nat.leb_le; lia.
Qed.

(** The digits that [str] writes before [acc], and their value. *)
Lemma str_of_nat_go_spec fuel : forall n acc,
  (n < fuel)%nat ->
  exists ds, str_of_nat_go fuel n acc = ds +:+ acc /\
             all_digits ds = true /\
             forall a, int_of_digits a ds = (a * 10 ^ len ds + n)%nat.
Proof.
  induction fuel as [|fuel IH]; intros n acc Hn; [lia|].
  cbn [str_of_nat_go].
  assert (Hmod : (n mod 10 < 10)%nat) by (apply Nat.mod_upper_bound; lia).
  destruct (Nat.ltb_spec n 10) as [Hsmall|Hbig].
  - exists (String (digit n) ""). rewrite Nat.mod_small by done.
    split; [by rewrite str_app_cons, str_app_nil_l|]. split.
    + cbn [all_digits]. by rewrite is_digit_digit.
    + intros a. cbn [int_of_digits len]. rewrite digit_value_digit by done.
      cbn [Nat.pow]. lia.
  - destruct (IH (n / 10)%nat (String (digit (n mod 10)) acc)) as (ds & -> & Hds & Hval).
    { pose proof (Nat.div_lt n 10). lia. }
    exists (ds +:+ String (digit (n mod 10)) ""). split; [|split].
    + by rewrite str_app_assoc, str_app_cons, str_app_nil_l.
    + rewrite all_digits_app, Hds. cbn [all_digits]. by rewrite is_digit_digit.
    + intros a. rewrite int_of_digits_app, Hval. cbn [int_of_digits].
      rewrite digit_value_digit by done. rewrite str_len_app. cbn [len].
      rewrite Nat.add_1_r. cbn [Nat.pow].
      pose proof (Nat.div_mod_eq n 10). lia.
Qed.

(** Reading back the number that [str] wrote gives the number. *)
Lemma int_of_str_of_nat n :
  all_digits (str_of_nat n) = true /\ int_of_digits 0 (str_of_nat n) = n.
Proof.
  unfold str_of_nat.
  destruct (str_of_nat_go_spec (S n) n "") as (ds & -> & Hds & Hval); [lia|].
  rewrite str_app_nil_r. split; [done|]. rewrite Hval. lia.
Qed.

Lemma all_digits_zeros k : all_digits (zeros k) = true.
Proof. induction k as [|k IH]; [done|]. cbn [zeros all_digits]. by rewrite IH. Qed.

Lemma int_of_digits_zeros k : int_of_digits 0 (zeros k) = O.
Proof. induction k as [|k IH]; [done|]. exact IH. Qed.

(** Zero filling a number writes zeros before it. *)
Lemma zfill_digits width s :
  all_digits s = true -> exists k, zfill width s = zeros k +:+ s.
Proof.
  intros Hs. unfold zfill. destruct (width <=? len s)%nat.
  { exists O. by rewrite str_app_nil_l. }
  destruct s as [|c r]; [exists width; by rewrite str_app_nil_r|].
  cbn [all_digits] in Hs. apply andb_true_iff in Hs as [Hc _].
  assert (Hsign : Ascii.eqb c "+" || Ascii.eqb c "-" = false).
  { apply orb_false_iff. split; apply Ascii.eqb_neq; intros ->; discriminate Hc. }
  rewrite Hsign. by eexists.
Qed.

Lemma frame_number_spec saved_frames :
  all_digits (zfill 4 (str_of_nat saved_frames)) = true /\
  int_of_digits 0 (zfill 4 (str_of_nat saved_frames)) = saved_frames.
Proof.
  destruct (int_of_str_of_nat saved_frames) as [Hds Hval].
  destruct (zfill_digits 4 _ Hds) as [k ->]. split.
  - by rewrite all_digits_app, all_digits_zeros, Hds.
  - by rewrite int_of_digits_app, int_of_digits_zeros.
Qed.

Lemma frame_name_inj video_name j j' :
  frame_name video_name j = frame_name video_name j' -> j = j'.
Proof.
  unfold frame_name. intros H.
  apply str_app_inv_head, str_app_inv_head in H.
  apply (f_equal (int_of_digits 0)) in H.
  rewrite !int_of_digits_app in H.
  rewrite (proj2 (frame_number_spec j)), (proj2 (frame_number_spec j')) in H.
  cbn in H. lia.
Qed.

Lemma all_digits_contains c s :
  is_digit c = false -> all_digits s = true -> contains c s = false.
Proof.
  intros Hc. induction s as [|a s IH]; [done|]. cbn [all_digits contains].
  intros [Ha Hs]%andb_true_iff. rewrite (IH Hs), orb_false_r.
  apply Ascii.eqb_neq. intros ->. congruence.
Qed.

Lemma frame_name_no_sep video_name j :
  contains sep video_name = false -> contains sep (frame_name video_name j) = false.
Proof.
  intros Hv. unfold frame_name. rewrite !contains_app, Hv.
  rewrite (all_digits_contains sep _ eq_refl (proj1 (frame_number_spec j))). done.
Qed.

Lemma video_name_no_sep video_path :
  contains sep (splitext (basename video_path)).1 = false.
Proof.
  destruct (basename_split video_path) as (_ & _ & Hb & _).
  destruct (splitext (basename video_path)) as [n e] eqn:Hsplit.
  destruct (splitext_split _ _ _ Hb Hsplit) as [Hne _]. cbn [fst].
  rewrite Hne, contains_app in Hb. by apply orb_false_iff in Hb as [? _].
Qed.

Section FrameFiles.

Context {frame : Type}.
Variables video_name output_dir : string.

Local Abbreviation frame_path j := (join output_dir (frame_name video_name j)).
Local Abbreviation save := (save_from frame).

Lemma save_from_other saved : forall first (fs : gmap string frame) p,
  (forall i, (i < length saved)%nat -> p <> frame_path (first + i)) ->
  save first video_name output_dir saved fs !! p = fs !! p.
Proof.
  induction saved as [|fr saved IH]; intros first fs p Hp; [done|].
  rewrite save_from_cons, IH.
  - apply lookup_insert_ne. intros E. apply (Hp O); [cbn; lia|].
    by rewrite Nat.add_0_r.
  - intros i Hi. replace (S first + i)%nat with (first + S i)%nat by lia.
    apply Hp. cbn [length]. lia.
Qed.

Lemma frame_path_inj j j' :
  contains sep video_name = false -> frame_path j = frame_path j' -> j = j'.
Proof.
  intros Hname H. apply join_inj in H; [|by apply frame_name_no_sep..].
  by apply frame_name_inj in H.
Qed.

Lemma save_from_lookup saved :
  contains sep video_name = false ->
  forall first (fs : gmap string frame) j fr,
  saved !! j = Some fr ->
  save first video_name output_dir saved fs !! frame_path (first + j) = Some fr.
Proof.
  intros Hname.
  induction saved as [|fr0 saved IH]; intros first fs j fr Hj; [done|].
  rewrite save_from_cons. destruct j as [|j]; cbn in Hj.
  - injection Hj as ->. rewrite Nat.add_0_r, save_from_other.
    + apply lookup_insert_eq.
    + intros i _ E%frame_path_inj; [lia|done].
  - replace (first + S j)%nat with (S first + j)%nat by lia. by apply IH.
Qed.

End FrameFiles.

Lemma fold_left_fmap {A B C} (g : A -> B) (f : C -> B -> C) l : forall c,
  fold_left f (map g l) c = fold_left (fun c x => f c (g x)) l c.
Proof. induction l as [|x l IH]; intros c; [done|]. apply IH. Qed.

(** Writing the same files a second time changes nothing. *)
Lemma fold_insert_lookup {V} (l : list (string * V)) k :
  (exists v, forall m : gmap string V,
     fold_left (fun m p => <[p.1 := p.2]> m) l m !! k = Some v) \/
  (forall m : gmap string V,
     fold_left (fun m p => <[p.1 := p.2]> m) l m !! k = m !! k).
Proof.
  induction l as [|p l IH]; [by right|]. cbn [fold_left].
  destruct IH as [[v Hv]|Hsame]; [left; by exists v|].
  destruct (decide (p.1 = k)) as [<-|Hne].
  - left. exists p.2. intros m. by rewrite Hsame, lookup_insert_eq.
  - right. intros m. by rewrite Hsame, lookup_insert_ne.
Qed.

Lemma fold_insert_idem {V} (l : list (string * V)) (m : gmap string V) :
  let ins := fold_left (fun m p => <[p.1 := p.2]> m) l in
  ins (ins m) = ins m.
Proof.
  cbn zeta. apply map_eq. intros k.
  destruct (fold_insert_lookup l k) as [[v Hv]|Hsame]; [by rewrite !Hv|].
  by rewrite Hsame.
Qed.

Section FrameRuns.

Context {frame : Type}.

Lemma save_from_idem first video_name output_dir saved (fs : gmap string frame) :
  save_from frame first video_name output_dir saved
    (save_from frame first video_name output_dir saved fs)
  = save_from frame first video_name output_dir saved fs.
Proof.
  unfold save_from. set (l := imap _ saved).
  pose proof (fold_left_fmap
                (fun p : nat * frame =>
                   (join output_dir (frame_name video_name p.1), p.2))
                (fun (m : gmap string frame) (q : string * frame) => <[q.1 := q.2]> m)
                l) as E.
  cbn [fst snd] in E. rewrite <- !E. apply fold_insert_idem.
Qed.

(** X23.  With a non-zero interval every frame that [extract_frames]
    samples is on disk after the call, under the name that carries its
    number: the names of two frames of a video differ, beyond 9999 frames
    too, so that no frame overwrites another; and the call writes no other
    file. *)
Theorem extract_frames_keeps_every_sampled_frame
    video_path output_dir frame_rate (cap : capture frame) (fs : gmap string frame) :
  frame_rate <> 0 -> fps frame cap / frame_rate <> 0 ->
  let video_name := (splitext (basename video_path)).1 in
  let saved := multiples_of frame (fps frame cap / frame_rate) (delivered frame cap) in
  let fs' := (extract_frames frame video_path output_dir frame_rate cap fs).1.1 in
  (forall j fr, saved !! j = Some fr ->
     fs' !! join output_dir (frame_name video_name j) = Some fr) /\
  (forall j j', frame_name video_name j = frame_name video_name j' -> j = j') /\
  (forall p,
     (forall j, (j < length saved)%nat ->
                p <> join output_dir (frame_name video_name j)) ->
     fs' !! p = fs !! p).
Proof.
  intros Hrate Hi video_name saved. cbn zeta.
  rewrite extract_frames_nonzero by done. cbn [fst]. fold video_name saved.
  unfold save_all. split; [|split].
  - intros j fr Hj.
    apply (save_from_lookup video_name output_dir saved
             (video_name_no_sep video_path) 0%nat fs j fr Hj).
  - apply frame_name_inj.
  - intros p Hp. by apply save_from_other.
Qed.

(** X24.  Extracting the frames of a video a second time into the same
    directory ends as the first call did, prints the same lines and leaves
    every file as the first call left it: the same frames are written
    again under the same names. *)
Theorem extract_frames_second_run
    video_path output_dir frame_rate (cap : capture frame) (fs : gmap string frame) :
  let r := extract_frames frame video_path output_dir frame_rate cap fs in
  extract_frames frame video_path output_dir frame_rate cap r.1.1 = r.
Proof.
  cbn zeta.
  destruct (Z.eq_dec frame_rate 0) as [->|Hrate].
  { reflexivity. }
  destruct (Z.eq_dec (fps frame cap / frame_rate) 0) as [Hz|Hi].
  - unfold extract_frames, py_floordiv.
    destruct (Z.eqb_spec frame_rate 0) as [|_]; [done|]. rewrite Hz.
    destruct (isOpened frame cap); [|done].
    destruct (frames frame cap) as [|fr l]; [done|].
    by rewrite !frame_loop_zero.
  - rewrite !extract_frames_nonzero by done. cbn [fst].
    unfold save_all. by rewrite save_from_idem.
Qed.

End FrameRuns.

(** ** videos2frames.py: [process_videos] *)

(** Every file of the directory is listed by [os.walk]. *)
Lemma os_walk_lists : forall d root f,
  f ∈ file_names d ->
  exists r dirs files, (r, dirs, files) ∈ os_walk root d /\ f ∈ files.
Proof.
  fix IH 1. intros [name files subdirs] root f Hf.
  cbn [file_names] in Hf. cbn [os_walk].
  apply elem_of_app in Hf as [Hf|Hf].
  - exists root, (map dir_name subdirs), files. split; [apply list_elem_of_here|done].
  - enough (exists r dirs fs,
              (r, dirs, fs)
              ∈ (fix walk_all (l : list directory) :=
                   match l with
                   | [] => []
                   | sub :: l' => os_walk (join root (dir_name sub)) sub ++ walk_all l'
                   end) subdirs /\ f ∈ fs)
      as (r & dirs & fs & Hin & Hfs).
    { exists r, dirs, fs. split; [by apply list_elem_of_further|done]. }
    induction subdirs as [|sub subdirs IHs]; [by apply elem_of_nil in Hf|].
    cbn [flat_map] in Hf. apply elem_of_app in Hf as [Hf|Hf].
    + destruct (IH sub (join root (dir_name sub)) f Hf) as (r & dirs & fs & Hin & Hfs).
      exists r, dirs, fs. split; [|done]. apply elem_of_app. by left.
    + destruct (IHs Hf) as (r & dirs & fs & Hin & Hfs).
      exists r, dirs, fs. split; [|done]. apply elem_of_app. by right.
Qed.

(** The walk selects no file exactly when no file of the directory passes
    the test. *)
Lemma walk_selects_none {A} (p : string -> bool) (g : string -> string -> A) root d :
  flat_map (fun '(root, dirs, files) => map (g root) (List.filter p files))
           (os_walk root d) = []
  <-> Forall (fun f => p f = false) (file_names d).
Proof.
  split.
  - intros Hnil. apply Forall_forall. intros f Hf.
    destruct (os_walk_lists d root f Hf) as (r & dirs & files & Hwalk & Hfiles).
    destruct (p f) eqn:Hp; [|done]. exfalso.
    assert (Hin : In (g r f)
                     (flat_map (fun '(root, dirs, files) =>
                                  map (g root) (List.filter p files))
                               (os_walk root d))).
    { apply in_flat_map. exists (r, dirs, files). split; [by apply list_elem_of_In|].
      apply in_map, filter_In. split; [by apply list_elem_of_In|done]. }
    by rewrite Hnil in Hin.
  - intros Hall.
    destruct (flat_map _ _) as [|x l] eqn:E; [done|]. exfalso.
    assert (Hin : In x (x :: l)) by (by left). rewrite <- E in Hin.
    apply in_flat_map in Hin as ([[r dirs] files] & Hwalk & Hin).
    apply in_map_iff in Hin as (f & _ & Hf). apply filter_In in Hf as [Hf Hp].
    rewrite Forall_forall in Hall.
    rewrite (Hall f) in Hp; [done|].
    eapply os_walk_files; [by apply list_elem_of_In|by apply list_elem_of_In].
Qed.

Section FrameTasks.

Context {frame : Type}.
Variable VideoCapture : string -> capture frame.
Variable cwd : string.

Local Abbreviation task := (Videos2Frames.process_video_file frame VideoCapture cwd).
Local Abbreviation run := (Videos2Frames.process_videos frame VideoCapture cwd).

(** X25.  [process_videos] of videos2frames.py extracts no frame.  It
    builds tuples of three values for [process_video_file], which unpacks
    four: the first video found makes the call raise ValueError, as does a
    machine with a single core, for which the pool is asked for no
    process.  The call returns only when there are two cores at least and
    no file that ends with '.avi' in the directory; and whatever happens
    no file is written. *)
Theorem process_videos_extracts_no_frame
    cpu_count input_dir d output_dir (fs : gmap string frame) :
  let r := run cpu_count input_dir d output_dir fs in
  r.1.1 = fs /\
  (r.2 = Ok tt <->
   2 <= cpu_count /\ Forall (fun f => endswith f ".avi" = false) (file_names d)) /\
  (r.2 = Ok tt \/ r.2 = Raise ValueError).
Proof.
  cbn zeta. unfold Videos2Frames.process_videos.
  destruct (Z.ltb_spec (cpu_count - 1) 1) as [Hcores|Hcores].
  { cbn [fst snd]. split; [done|]. split; [|by right].
    split; [done|]. intros [? _]. lia. }
  pose proof (walk_selects_none (fun f => endswith f ".avi")
                (fun root filename =>
                   [PStr (join root filename); PStr output_dir; PStr input_dir])
                input_dir d) as Hnone.
  destruct (flat_map _ (os_walk input_dir d)) as [|params tasks] eqn:Hfiles.
  - cbn [pool_imap fst snd]. split; [done|]. split; [|by left].
    split; [intros _|done]. split; [lia|]. by apply Hnone.
  - assert (Hparams : exists a b c, params = [a; b; c]).
    { assert (Hin : In params (params :: tasks)) by (by left).
      rewrite <- Hfiles in Hin.
      apply in_flat_map in Hin as ([[r dirs] files] & _ & Hin).
      apply in_map_iff in Hin as (f & <- & _). by eexists _, _, _. }
    destruct Hparams as (a & b & c & ->).
    cbn [pool_imap Videos2Frames.process_video_file fst snd].
    split; [done|]. split; [|by right].
    split; [done|]. intros [_ Hall]. apply Hnone in Hall. discriminate Hall.
Qed.

End FrameTasks.

(** ** videos2mp4.py: what a conversion leaves behind *)

Section Mp4More.

Context {content : Type}.
Variable transcode : content -> option content.
Variable partial_output : option content -> option content.

Local Abbreviation convert := (convert_avi_to_mp4 content transcode partial_output).

(** X26.  When there is no file yet at the output path: a conversion that
    succeeds writes that file and nothing else; a conversion that fails
    raises, and is final when ffmpeg leaves a partial file behind, for the
    next call finds a file at the output path and returns that path
    without converting; only a failure that leaves no file is tried again
    by the next call. *)
Theorem convert_avi_to_mp4_partial_output_is_kept
    video_path output_dir (fs : gmap string content) :
  let output_mp4 := output_mp4_of video_path output_dir in
  fs !! output_mp4 = None ->
  (forall mp4, fs !! video_path ≫= transcode = Some mp4 ->
     convert video_path output_dir fs = (<[output_mp4 := mp4]> fs, Ok output_mp4)) /\
  (fs !! video_path ≫= transcode = None ->
   (convert video_path output_dir fs).2 = Raise FfmpegError /\
   (forall junk, partial_output (fs !! video_path) = Some junk ->
      let fs' := (convert video_path output_dir fs).1 in
      fs' = <[output_mp4 := junk]> fs /\
      convert video_path output_dir fs' = (fs', Ok output_mp4)) /\
   (partial_output (fs !! video_path) = None ->
    convert video_path output_dir fs = (fs, Raise FfmpegError))).
Proof.
  intros output_mp4 Hnone.
  assert (Hex : path_exists content fs output_mp4 = false)
    by (by apply path_exists_false).
  unfold convert_avi_to_mp4 at 1 2 3 5. fold output_mp4. rewrite Hex.
  unfold ffmpeg_run. split.
  - intros mp4 ->. done.
  - intros ->. split; [by destruct (partial_output (fs !! video_path))|]. split.
    + intros junk ->. cbn [fst]. split; [done|].
      apply convert_skips_existing. fold output_mp4. rewrite lookup_insert_eq. by eexists.
    + intros ->. done.
Qed.

End Mp4More.

(** ** decreasing-data.py *)

Section TenthFacts.

Context {content : Type}.
Variable listdir : gmap string content -> string -> list string.
Variables source_folder destination_folder : string.

Local Abbreviation src := (join source_folder).
Local Abbreviation dst := (join destination_folder).
Local Abbreviation loop := (copy_every_tenth content source_folder destination_folder).

(** The loop when every file to copy is there and no destination is a
    source: the files at the multiples of ten are copied, one after the
    other, each with the content its source had. *)
Lemma copy_every_tenth_ok (fs0 : gmap string content) csv_files :
  forall (i : nat) (fs : gmap string content) out,
    Forall (fun f => contains sep f = false /\ is_Some (fs0 !! src f)) csv_files ->
    (forall f g, f ∈ csv_files -> g ∈ csv_files -> dst f <> src g) ->
    (forall f, f ∈ csv_files -> fs !! src f = fs0 !! src f) ->
    let chosen := multiples_from string i 10 csv_files in
    exists fs',
      loop (Z.of_nat i) csv_files (fs, out)
      = (fs', out ++ map (fun f => FileCopied f destination_folder) chosen, None) /\
      (forall f, f ∈ chosen -> fs' !! dst f = fs0 !! src f) /\
      (forall p, (forall f, f ∈ chosen -> p <> dst f) -> fs' !! p = fs !! p).
Proof.
  induction csv_files as [|f csv_files IH]; intros i fs out Hthere Hapart Hsame; cbn zeta.
  { exists fs. cbn. rewrite app_nil_r. split; [done|]. split; [|done].
    intros f Hf. by apply elem_of_nil in Hf. }
  apply Forall_cons in Hthere as [[Hf [c Hc]] Hthere].
  rewrite multiples_from_cons. cbn [copy_every_tenth fst snd].
  replace (Z.of_nat i + 1) with (Z.of_nat (S i)) by lia.
  assert (Hapart' : forall f0 g, f0 ∈ csv_files -> g ∈ csv_files -> dst f0 <> src g).
  { intros f0 g Hf0 Hg. apply Hapart; by apply list_elem_of_further. }
  assert (Hchosen : forall g, g ∈ multiples_from string (S i) 10 csv_files ->
                              g ∈ csv_files).
  { intros g Hg. unfold multiples_from in Hg.
    apply list_elem_of_fmap in Hg as ([k g'] & -> & Hg).
    apply list_elem_of_In, filter_In in Hg as [Hg _]. apply list_elem_of_In in Hg.
    apply list_elem_of_lookup_1 in Hg as [j Hj].
    rewrite list_lookup_imap in Hj.
    destruct (csv_files !! j) as [g0|] eqn:Hg0; [|done]. injection Hj as _ <-.
    by eapply list_elem_of_lookup_2. }
  destruct (Z.of_nat i mod 10 =? 0).
  - unfold shutil_copyfile. rewrite (Hsame f (list_elem_of_here _ _)), Hc.
    destruct (String.eqb_spec (src f) (dst f)) as [E|_].
    { exfalso. eapply Hapart; [apply list_elem_of_here..|]. symmetry. exact E. }
    destruct (IH (S i) (<[dst f := c]> fs) (out ++ [FileCopied f destination_folder])
                 Hthere Hapart')
      as (fs' & -> & Hcopied & Hother).
    { intros g Hg. rewrite lookup_insert_ne; [by apply Hsame, list_elem_of_further|].
      apply Hapart; [apply list_elem_of_here|by apply list_elem_of_further]. }
    exists fs'. cbn [app map]. split; [by rewrite <- app_assoc|]. split.
    + intros g Hg. apply elem_of_cons in Hg as [->|Hg]; [|by apply Hcopied].
      destruct (decide (Exists (fun g => dst f = dst g)
                          (multiples_from string (S i) 10 csv_files)))
        as [(g & Hg & Heq)%Exists_exists|Hnot].
      * apply join_inj in Heq; [subst g; by apply Hcopied|done|].
        rewrite Forall_forall in Hthere. by apply Hthere, Hchosen.
      * rewrite Hother; [by rewrite lookup_insert_eq|].
        intros g Hg Heq. apply Hnot, Exists_exists. by exists g.
    + intros p Hp. rewrite Hother.
      * apply lookup_insert_ne. intros E. eapply Hp; [apply list_elem_of_here|done].
      * intros g Hg. apply Hp. by apply list_elem_of_further.
  - cbn [app]. apply IH; [done|done|].
    intros g Hg. by apply Hsame, list_elem_of_further.
Qed.

(** X27.  decreasing-data.py copies one CSV file in ten, not every other
    one: when the CSV files of the source folder are there and no
    destination path is a source path, the script ends normally, the
    files copied are those at the positions 0, 10, 20, ... of the CSV
    listing, in that order, their number is the number of CSV files
    divided by ten, rounded up, every copy holds what its source held, and
    no other path is written. *)
Theorem decreasing_data_copies_every_tenth_file (fs : gmap string content) :
  let csv_files := List.filter (fun file => endswith file ".csv")
                               (listdir fs source_folder) in
  let chosen := multiples_of string 10 csv_files in
  Forall (fun f => contains sep f = false /\ is_Some (fs !! join source_folder f))
         csv_files ->
  (forall f g, f ∈ csv_files -> g ∈ csv_files ->
               join destination_folder f <> join source_folder g) ->
  exists fs' n,
    decreasing_data content listdir source_folder destination_folder fs
    = (fs',
       map (fun f => FileCopied f destination_folder) chosen
       ++ [CopyingCompleted; NumberOfCsvFiles n],
       None) /\
    Z.of_nat (length chosen) = (Z.of_nat (length csv_files) + 9) / 10 /\
    (forall f, f ∈ chosen ->
       fs' !! join destination_folder f = fs !! join source_folder f) /\
    (forall p, (forall f, f ∈ chosen -> p <> join destination_folder f) ->
       fs' !! p = fs !! p).
Proof.
  intros csv_files chosen Hthere Hapart. unfold decreasing_data. fold csv_files.
  destruct (copy_every_tenth_ok fs csv_files 0 fs [] Hthere Hapart)
    as (fs' & Hloop & Hcopied & Hother); [done|].
  cbn zeta in Hloop. change (Z.of_nat 0) with 0 in Hloop. rewrite Hloop.
  exists fs'. eexists. split; [reflexivity|]. split; [|by split].
  unfold chosen, multiples_of. rewrite length_multiples_from by lia.
  cbn [Nat.add]. change (Z.of_nat 0 + 10 - 1) with 9. rewrite (Z.div_small 9) by lia.
  replace (Z.of_nat (length csv_files) + 10 - 1)
    with (Z.of_nat (length csv_files) + 9) by lia.
  lia.
Qed.

End TenthFacts.

(** ** os.path: joining, splitting and normalising *)

Lemma startswith_nil s : startswith s "" = true.
Proof. by destruct s. Qed.

Lemma startswith_cons c s d pre :
  startswith (String c s) (String d pre) = Ascii.eqb d c && startswith s pre.
Proof.
  unfold startswith. cbn [String.prefix].
  destruct (ascii_dec d c) as [->|Hne].
  - by rewrite Ascii.eqb_refl.
  - by rewrite (proj2 (Ascii.eqb_neq _ _) Hne).
Qed.

(** A string that starts with a slash is not empty, and an appended
    string starts as its first part does. *)
Lemma startswith_sep_app a b :
  a <> "" -> startswith (a +:+ b) "/" = startswith a "/".
Proof.
  destruct a as [|c a]; [done|]. intros _.
  by rewrite str_app_cons, !startswith_cons, !startswith_nil.
Qed.

Lemma sdrop_add_app n x y : sdrop (len x + n) (x +:+ y) = sdrop n y.
Proof.
  induction x as [|d x IH]; [by rewrite str_app_nil_l|].
  rewrite str_app_cons. cbn. apply IH.
Qed.

Lemma slice_last_app_r n a b :
  (n <= len b)%nat -> slice_last n (a +:+ b) = slice_last n b.
Proof.
  intros Hn. unfold slice_last. rewrite str_len_app.
  replace (len a + len b - n)%nat with (len a + (len b - n))%nat by lia.
  apply sdrop_add_app.
Qed.

Lemma endswith_sep_app a b :
  b <> "" -> endswith (a +:+ b) "/" = endswith b "/".
Proof.
  intros Hb. assert (1 <= len b)%nat by (destruct b; [done|cbn; lia]).
  unfold endswith. cbn [len]. rewrite str_len_app, slice_last_app_r by done.
  rewrite (proj2 (Nat.leb_le 1 (len a + len b))) by lia.
  by rewrite (proj2 (Nat.leb_le 1 (len b))) by lia.
Qed.

(** [os.path.join(a, b)] for a relative [b]. *)
Lemma join_relative a b :
  startswith b "/" = false ->
  join a b = if String.eqb a "" || endswith a "/" then a +:+ b else a +:+ "/" +:+ b.
Proof.
  intros Hb. unfold join. change (String sep "") with "/". rewrite Hb.
  destruct (String.eqb a "" || endswith a "/"); [done|].
  by rewrite str_app_cons, str_app_nil_l.
Qed.

Lemma join_absolute a b : startswith b "/" = true -> join a b = b.
Proof. intros Hb. unfold join. change (String sep "") with "/". by rewrite Hb. Qed.

Lemma join_nil_r a :
  join a "" = if String.eqb a "" || endswith a "/" then a else a +:+ "/".
Proof.
  rewrite join_relative by done.
  destruct (String.eqb a "" || endswith a "/"); by rewrite ?str_app_nil_r.
Qed.

(** [os.path.join] is associative. *)
Lemma join_assoc a b c : join a (join b c) = join (join a b) c.
Proof.
  destruct (startswith c "/") eqn:Hc.
  { by rewrite !(join_absolute _ c). }
  destruct (startswith b "/") eqn:Hb.
  { rewrite (join_absolute a b) by done.
    apply join_absolute. rewrite join_relative by done.
    destruct (String.eqb b "" || endswith b "/");
      rewrite startswith_sep_app; try done; by intros ->. }
  destruct (String.eqb_spec b "") as [->|Hbne].
  { rewrite (join_relative "" c) by done. cbn [String.eqb orb].
    rewrite str_app_nil_l, join_nil_r.
    destruct (String.eqb_spec a "") as [->|Hane]; [done|]. cbn [orb].
    destruct (endswith a "/") eqn:Ha; [done|].
    rewrite (join_relative a c), (join_relative (a +:+ "/") c) by done.
    rewrite (proj2 (String.eqb_neq _ _) Hane), Ha. cbn [orb].
    rewrite endswith_sep_app by done.
    replace (String.eqb (a +:+ "/") "" || endswith "/" "/") with true
      by (by rewrite orb_true_r).
    by rewrite str_app_assoc. }
  rewrite (join_relative b c) by done.
  rewrite (proj2 (String.eqb_neq _ _) Hbne). cbn [orb].
  assert (Hab : join a b <> "" /\ endswith (join a b) "/" = endswith b "/").
  { rewrite join_relative by done.
    destruct (String.eqb a "" || endswith a "/").
    - split; [|by apply endswith_sep_app].
      destruct a; [by rewrite str_app_nil_l|by rewrite str_app_cons].
    - split; [|rewrite <- str_app_assoc; by apply endswith_sep_app].
      destruct a; [by rewrite str_app_nil_l|by rewrite str_app_cons]. }
  destruct Hab as [Hne He].
  rewrite (join_relative (join a b) c) by done.
  rewrite (proj2 (String.eqb_neq _ _) Hne), He. cbn [orb].
  destruct (endswith b "/").
  - rewrite (join_relative a (b +:+ c)) by (by rewrite startswith_sep_app).
    rewrite (join_relative a b) by done.
    destruct (String.eqb a "" || endswith a "/"); by rewrite !str_app_assoc.
  - rewrite (join_relative a (b +:+ "/" +:+ c)) by (by rewrite startswith_sep_app).
    rewrite (join_relative a b) by done.
    destruct (String.eqb a "" || endswith a "/"); by rewrite !str_app_assoc.
Qed.

(** [s.split('/')], one character at a time. *)
Lemma split_go_sep cur r : split_go "/" 0 cur (String sep r) = cur :: split_go "/" 0 "" r.
Proof. cbn [split_go String.prefix len]. by destruct r. Qed.

Lemma split_go_other cur c r :
  c <> sep -> split_go "/" 0 cur (String c r) = split_go "/" 0 (cur +:+ String c "") r.
Proof.
  intros Hc. cbn [split_go String.prefix].
  destruct (ascii_dec "/" c) as [E|_]; [by destruct Hc|done].
Qed.

Lemma split_go_plain a : forall cur,
  contains sep a = false -> split_go "/" 0 cur a = [cur +:+ a].
Proof.
  induction a as [|c a IH]; intros cur Ha; [by rewrite str_app_nil_r|].
  cbn [contains] in Ha. apply orb_false_iff in Ha as [Hc Ha].
  rewrite split_go_other by (by apply Ascii.eqb_neq).
  rewrite (IH _ Ha). by rewrite str_app_assoc, str_app_cons, str_app_nil_l.
Qed.

Lemma split_go_app a b : forall cur,
  split_go "/" 0 cur (a +:+ String sep b)
  = split_go "/" 0 cur a ++ split_go "/" 0 "" b.
Proof.
  induction a as [|c a IH]; intros cur.
  - rewrite str_app_nil_l, split_go_sep. done.
  - rewrite str_app_cons. destruct (Ascii.eqb_spec c sep) as [->|Hc].
    + rewrite !split_go_sep, IH. done.
    + rewrite !split_go_other by done. apply IH.
Qed.

Lemma split_app a b :
  split "/" (a +:+ String sep b) = split "/" a ++ split "/" b.
Proof. apply split_go_app. Qed.

Lemma split_plain a : contains sep a = false -> split "/" a = [a].
Proof. intros Ha. unfold split. by rewrite split_go_plain, str_app_nil_l. Qed.

(** The pieces of a split hold no slash. *)
Lemma split_go_no_sep s : forall cur,
  contains sep cur = false ->
  Forall (fun c => contains sep c = false) (split_go "/" 0 cur s).
Proof.
  induction s as [|c s IH]; intros cur Hcur; [by repeat constructor|].
  destruct (Ascii.eqb_spec c sep) as [->|Hc].
  - rewrite split_go_sep. constructor; [done|]. by apply IH.
  - rewrite split_go_other by done. apply IH.
    rewrite contains_app, Hcur. cbn [contains orb].
    by rewrite (proj2 (Ascii.eqb_neq _ _) Hc).
Qed.

Lemma split_no_sep s : Forall (fun c => contains sep c = false) (split "/" s).
Proof. by apply split_go_no_sep. Qed.

(** Splitting what was joined gives the pieces back. *)
Lemma split_str_join l :
  l <> [] -> Forall (fun c => contains sep c = false) l ->
  split "/" (str_join "/" l) = l.
Proof.
  induction l as [|c l IH]; [done|]. intros _ Hl.
  apply Forall_cons in Hl as [Hc Hl]. destruct l as [|c' l].
  - cbn [str_join]. by apply split_plain.
  - change (str_join "/" (c :: c' :: l)) with (c +:+ "/" +:+ str_join "/" (c' :: l)).
    rewrite str_app_cons, str_app_nil_l, split_app, (split_plain c Hc), IH; done.
Qed.

Lemma is_name_spec c :
  is_name c = true ->
  c <> "" /\ c <> "." /\ c <> ".." /\ contains sep c = false /\
  startswith c "/" = false.
Proof.
  unfold is_name. rewrite !andb_true_iff, !negb_true_iff.
  intros [[[H1 H2] H3] H4].
  apply String.eqb_neq in H1, H2, H3. repeat split; try done.
  destruct c as [|a c]; [done|]. rewrite startswith_cons.
  cbn [contains] in H4. apply orb_false_iff in H4 as [H4 _].
  destruct (Ascii.eqb_spec "/" a) as [<-|]; [|done]. discriminate H4.
Qed.

Lemma names_no_sep l :
  Forall (fun c => is_name c = true) l -> Forall (fun c => contains sep c = false) l.
Proof.
  intros Hl. eapply Forall_impl; [exact Hl|].
  intros c Hc. by destruct (is_name_spec _ Hc) as (_ & _ & _ & H & _).
Qed.

(** The join of names is not empty, is relative and does not end with a
    slash. *)
Lemma str_join_names c l :
  Forall (fun c => is_name c = true) (c :: l) ->
  str_join "/" (c :: l) <> "" /\
  startswith (str_join "/" (c :: l)) "/" = false /\
  endswith (str_join "/" (c :: l)) "/" = false.
Proof.
  revert c. induction l as [|c' l IH]; intros c Hl;
    apply Forall_cons in Hl as [Hc Hl];
    destruct (is_name_spec _ Hc) as (Hne & _ & _ & Hsep & Hstart).
  - cbn [str_join]. split; [done|]. split; [done|].
    unfold endswith. change (len "/") with 1%nat.
    destruct (1 <=? len c)%nat; [|done]. cbn [andb].
    destruct (String.eqb_spec (slice_last 1 c) "/") as [E|]; [|done].
    assert (Hc' : contains sep (slice_last 1 c) = true) by (by rewrite E).
    unfold slice_last in Hc'.
    rewrite <- (stake_sdrop (len c - 1) c), contains_app in Hsep.
    apply orb_false_iff in Hsep as [_ Hsep]. congruence.
  - destruct (IH c' Hl) as (Hne' & Hstart' & Hend').
    change (str_join "/" (c :: c' :: l)) with (c +:+ "/" +:+ str_join "/" (c' :: l)).
    split; [|split].
    + destruct c; [done|by rewrite str_app_cons].
    + by rewrite startswith_sep_app.
    + rewrite <- str_app_assoc. by rewrite endswith_sep_app.
Qed.

(** [os.path.join(a, *names)] is the join of [a] with the joined names. *)
Lemma join_all_names l : forall a c,
  Forall (fun c => is_name c = true) (c :: l) ->
  join_all a (c :: l) = join a (str_join "/" (c :: l)).
Proof.
  induction l as [|c' l IH]; intros a c Hl; [done|].
  pose proof Hl as Hl'. apply Forall_cons in Hl' as [Hc Hl'].
  destruct (is_name_spec _ Hc) as (Hne & _ & _ & Hsep & Hstart).
  destruct (str_join_names c' l Hl') as (Hne' & Hstart' & Hend').
  change (join_all a (c :: c' :: l)) with (join_all (join a c) (c' :: l)).
  rewrite (IH _ _ Hl').
  change (str_join "/" (c :: c' :: l)) with (c +:+ "/" +:+ str_join "/" (c' :: l)).
  rewrite <- join_assoc. f_equal.
  rewrite join_relative by done.
  rewrite (proj2 (String.eqb_neq _ _) Hne). cbn [orb].
  destruct (str_join_names c [] ltac:(by repeat constructor)) as (_ & _ & Hend).
  cbn [str_join] in Hend. by rewrite Hend.
Qed.

(** ** videos2mp4.py: the output directory mirrors the input directory *)

Lemma endswith_sep_inv a : endswith a "/" = true -> exists a', a = a' +:+ "/".
Proof.
  unfold endswith. intros H. apply andb_true_iff in H as [_ H].
  apply String.eqb_eq in H. exists (stake (len a - len "/") a).
  unfold slice_last in H. rewrite <- H at 2. by rewrite stake_sdrop.
Qed.

(** A path joined with a relative one starts with the slashes of the
    path. *)
Lemma join_initial_slashes a b :
  isabs a = true -> b <> "" -> startswith b "/" = false ->
  startswith (join a b) "/" = true /\
  startswith (join a b) "//" && negb (startswith (join a b) "///")
  = startswith a "//" && negb (startswith a "///").
Proof.
  unfold isabs. intros Ha Hb Hb'.
  assert (Hb2 : forall x, startswith (String sep b) (String sep x) = startswith b x)
    by (intros x; by rewrite startswith_cons).
  destruct b as [|cb b]; [done|]. rewrite startswith_cons, startswith_nil, andb_true_r in Hb'.
  rewrite join_relative by (by rewrite startswith_cons, startswith_nil, andb_true_r).
  destruct a as [|c0 a]; [done|].
  rewrite startswith_cons, startswith_nil, andb_true_r in Ha.
  apply Ascii.eqb_eq in Ha as <-.
  change (String.eqb (String "/" a) "") with false. cbn [orb].
  destruct (endswith (String "/" a) "/") eqn:Hend.
  - destruct a as [|c1 a].
    + rewrite str_app_cons, str_app_nil_l, !startswith_cons, !startswith_nil, Hb'. done.
    + destruct a as [|c2 a].
      * rewrite !str_app_cons, str_app_nil_l, !startswith_cons, !startswith_nil, Hb'.
        by destruct (Ascii.eqb "/" c1).
      * rewrite !str_app_cons, !startswith_cons, !startswith_nil. done.
  - destruct a as [|c1 a]; [done|].
    destruct a as [|c2 a].
    + rewrite !str_app_cons, str_app_nil_l, !startswith_cons, !startswith_nil.
      destruct (Ascii.eqb_spec "/" c1) as [<-|]; [done|]. done.
    + rewrite !str_app_cons, !startswith_cons, !startswith_nil. done.
Qed.

Lemma normpath_step_name k new_comps c :
  is_name c = true -> normpath_step k new_comps c = new_comps ++ [c].
Proof.
  intros Hc. destruct (is_name_spec _ Hc) as (H1 & H2 & H3 & _).
  unfold normpath_step.
  rewrite (proj2 (String.eqb_neq _ _) H1), (proj2 (String.eqb_neq _ _) H2),
    (proj2 (String.eqb_neq _ _) H3). done.
Qed.

Lemma normpath_names k l : forall new_comps,
  Forall (fun c => is_name c = true) l ->
  fold_left (normpath_step k) l new_comps = new_comps ++ l.
Proof.
  induction l as [|c l IH]; intros new_comps Hl; [by rewrite app_nil_r|].
  apply Forall_cons in Hl as [Hc Hl]. cbn [fold_left].
  rewrite normpath_step_name, IH by done. by rewrite <- app_assoc.
Qed.

(** The components of a path joined with a relative one. *)
Lemma normpath_comps_join k a b :
  a <> "" -> startswith b "/" = false ->
  fold_left (normpath_step k) (split "/" (join a b)) []
  = fold_left (normpath_step k) (split "/" b)
      (fold_left (normpath_step k) (split "/" a) []).
Proof.
  intros Ha Hb. rewrite join_relative by done.
  rewrite (proj2 (String.eqb_neq _ _) Ha). cbn [orb].
  destruct (endswith a "/") eqn:Hend.
  - apply endswith_sep_inv in Hend as [a' ->].
    rewrite str_app_assoc, str_app_cons, str_app_nil_l.
    rewrite <- (str_app_nil_r (a' +:+ String sep b)) at 1.
    rewrite str_app_nil_r, split_app.
    rewrite <- (str_app_nil_r (a' +:+ "/")), str_app_assoc, str_app_cons, str_app_nil_l.
    rewrite split_app, !fold_left_app. done.
  - rewrite str_app_cons, str_app_nil_l, split_app, fold_left_app. done.
Qed.

Lemma Forall_removelast {A} (P : A -> Prop) l : Forall P l -> Forall P (removelast l).
Proof.
  induction l as [|x [|y l] IH]; intros Hl; [done|constructor|].
  apply Forall_cons in Hl as [Hx Hl]. constructor; [done|]. by apply IH.
Qed.

(** What [normpath] keeps is not empty and holds no slash. *)
Lemma normpath_components k comps : forall new_comps,
  Forall (fun c => contains sep c = false) comps ->
  Forall (fun c => c <> "" /\ contains sep c = false) new_comps ->
  Forall (fun c => c <> "" /\ contains sep c = false)
         (fold_left (normpath_step k) comps new_comps).
Proof.
  induction comps as [|c comps IH]; intros new_comps Hc Hn; [done|].
  apply Forall_cons in Hc as [Hc Hcs]. cbn [fold_left]. apply IH; [done|].
  unfold normpath_step. destruct (String.eqb_spec c "") as [|Hne]; [done|].
  cbn [orb]. destruct (String.eqb c "."); [done|].
  match goal with |- Forall _ (if ?b then _ else _) => destruct b end.
  - apply Forall_app. split; [done|]. by repeat constructor.
  - by apply Forall_removelast.
Qed.

Lemma split_slashes k s :
  split "/" (str_repeat "/" k +:+ s) = replicate k "" ++ split "/" s.
Proof.
  induction k as [|k IH]; [done|]. cbn [str_repeat replicate].
  rewrite str_app_cons, str_app_nil_l, str_app_cons.
  unfold split at 1. rewrite split_go_sep. fold (split "/" (str_repeat "/" k +:+ s)).
  by rewrite IH.
Qed.

(** The list of components that [relpath] takes from a normalised path. *)
Lemma relpath_components k l :
  Forall (fun c => c <> "" /\ contains sep c = false) l ->
  List.filter (fun x => negb (String.eqb x ""))
              (split "/" (str_repeat "/" k +:+ str_join "/" l)) = l.
Proof.
  intros Hl. rewrite split_slashes, List.filter_app.
  assert (E : List.filter (fun x => negb (String.eqb x "")) (replicate k "") = []).
  { induction k as [|k IH]; [done|]. done. }
  rewrite E. cbn [app]. destruct l as [|c l]; [done|].
  rewrite split_str_join.
  - apply forallb_filter_id. apply forallb_forall. intros x Hx.
    apply list_elem_of_In in Hx. rewrite Forall_forall in Hl.
    destruct (Hl x Hx) as [Hne _]. by rewrite (proj2 (String.eqb_neq _ _) Hne).
  - done.
  - eapply Forall_impl; [exact Hl|]. by intros x [_ Hx].
Qed.

Lemma normpath_absolute a :
  isabs a = true ->
  normpath a
  = str_repeat "/" (if startswith a "//" && negb (startswith a "///") then 2 else 1)
    +:+ str_join "/" (fold_left
          (normpath_step (if startswith a "//" && negb (startswith a "///") then 2 else 1))
          (split "/" a) []).
Proof.
  unfold isabs, normpath. intros Ha. rewrite Ha.
  destruct a as [|c a]; [done|]. cbn [String.eqb].
  by destruct (startswith (String c a) "//" && negb (startswith (String c a) "///")).
Qed.

Lemma common_prefix_app a b : common_prefix a (a ++ b) = a.
Proof.
  induction a as [|x a IH]; [by destruct b|].
  cbn [app common_prefix]. by rewrite String.eqb_refl, IH.
Qed.

Lemma str_join_cons c l :
  Forall (fun c => is_name c = true) (c :: l) ->
  match l with
  | [] => c
  | _ => join c (str_join "/" l)
  end = str_join "/" (c :: l).
Proof.
  intros Hl. destruct l as [|c' l]; [done|].
  apply Forall_cons in Hl as [Hc Hl].
  destruct (is_name_spec _ Hc) as (Hne & _).
  destruct (str_join_names c' l Hl) as (_ & Hstart & _).
  destruct (str_join_names c [] ltac:(by repeat constructor)) as (_ & _ & Hend).
  cbn [str_join] in Hend.
  rewrite join_relative by done.
  by rewrite (proj2 (String.eqb_neq _ _) Hne), Hend.
Qed.

(** The path of an entry below [start], relative to [start], is the list
    of names that leads to the entry. *)
Lemma relpath_below cwd start c l :
  isabs start = true ->
  Forall (fun c => is_name c = true) (c :: l) ->
  relpath cwd (join_all start (c :: l)) start = Ok (str_join "/" (c :: l)).
Proof.
  intros Ha Hl. rewrite join_all_names by done.
  destruct (str_join_names c l Hl) as (Hne & Hstart & _).
  set (t := str_join "/" (c :: l)) in *.
  destruct (join_initial_slashes start t Ha Hne Hstart) as [Habs Hk].
  assert (Hstart_ne : start <> "") by (by destruct start).
  unfold relpath.
  destruct (String.eqb_spec (join start t) "") as [E|_].
  { rewrite E in Habs. done. }
  unfold abspath. fold (isabs (join start t)) in Habs. rewrite Ha, Habs.
  rewrite (normpath_absolute start Ha), (normpath_absolute (join start t) Habs).
  unfold isabs in Habs. rewrite Hk.
  set (k := if startswith start "//" && negb (startswith start "///") then 2%nat else 1%nat).
  rewrite normpath_comps_join by done.
  set (new_comps := fold_left (normpath_step k) (split "/" start) []).
  assert (Hn : Forall (fun c => c <> "" /\ contains sep c = false) new_comps).
  { apply normpath_components; [apply split_no_sep|done]. }
  assert (Ht : split "/" t = c :: l)
    by (apply split_str_join; [done|by apply names_no_sep]).
  rewrite Ht, normpath_names by done.
  rewrite !relpath_components; [| |done].
  2:{ apply Forall_app. split; [done|]. eapply Forall_impl; [exact Hl|].
      intros x Hx. by destruct (is_name_spec _ Hx) as (? & _ & _ & ? & _). }
  rewrite common_prefix_app, Nat.sub_diag, drop_app_length. cbn [replicate app].
  f_equal. destruct l as [|c' l]; [done|].
  pose proof Hl as Hl'. apply Forall_cons in Hl' as [_ Hl'].
  rewrite join_all_names by done. by apply (str_join_cons c (c' :: l)).
Qed.

(** The triples of [os.walk]: each root is the top joined with the names
    of nested sub-directories, and lists files of the directory. *)
Lemma os_walk_roots : forall d root r dirs files,
  (r, dirs, files) ∈ os_walk root d ->
  exists sub_dirs,
    r = join_all root sub_dirs /\
    Forall (fun c => c ∈ subdir_names d) sub_dirs /\
    Forall (fun f => f ∈ file_names d) files.
Proof.
  fix IH 1. intros [name fs subdirs] root r dirs files Hin.
  cbn [os_walk] in Hin. apply elem_of_cons in Hin as [Hin|Hin].
  - injection Hin as -> _ ->. exists []. split; [done|]. split; [done|].
    apply Forall_forall. intros f Hf. cbn [file_names]. apply elem_of_app. by left.
  - cbn [subdir_names file_names].
    enough (exists sub_dirs,
              r = join_all root sub_dirs /\
              Forall (fun c => c ∈ flat_map (fun sub => dir_name sub :: subdir_names sub)
                                            subdirs) sub_dirs /\
              Forall (fun f => f ∈ flat_map file_names subdirs) files)
      as (sub_dirs & Hr & Hs & Hf).
    { exists sub_dirs. split; [done|]. split; [done|].
      eapply Forall_impl; [exact Hf|]. intros f Hf'. apply elem_of_app. by right. }
    induction subdirs as [|sub subdirs IHs]; [by apply elem_of_nil in Hin|].
    apply elem_of_app in Hin as [Hin|Hin].
    + destruct (IH sub _ _ _ _ Hin) as (sub_dirs & Hr & Hs & Hf).
      exists (dir_name sub :: sub_dirs). split; [done|]. cbn [flat_map]. split.
      * constructor; [apply list_elem_of_here|].
        eapply Forall_impl; [exact Hs|]. intros c Hc.
        apply list_elem_of_further, elem_of_app. by left.
      * eapply Forall_impl; [exact Hf|]. intros f Hf'. apply elem_of_app. by left.
    + destruct (IHs Hin) as (sub_dirs & Hr & Hs & Hf).
      exists sub_dirs. split; [done|]. cbn [flat_map]. split.
      * eapply Forall_impl; [exact Hs|]. intros c Hc.
        apply list_elem_of_further, elem_of_app. by right.
      * eapply Forall_impl; [exact Hf|]. intros f Hf'. apply elem_of_app. by right.
Qed.

(** X28.  videos2mp4.py, [process_videos] and [process_video_file]: when
    the input directory is given by an absolute path, every task that
    [process_videos] builds is for a video
    [input_dir/sub_1/.../sub_n/filename] with [filename] ending in
    ['.avi'], and lines 38-40 of [process_video_file] give it the output
    directory [output_dir/sub_1/.../sub_n]: the sub-directories of the
    input are repeated below the output directory, whatever the working
    directory and however the input path is written (doubled or trailing
    slashes, ['.'] and ['..']).  The names of the files and
    sub-directories are taken to be names: not empty, neither ['.'] nor
    ['..'], and without a slash. *)
Theorem process_videos_mirrors_the_directories
    (cwd input_dir output_dir : string) (d : directory)
    (video_path base_output_dir inp : string) :
  isabs input_dir = true ->
  Forall (fun c => is_name c = true) (subdir_names d ++ file_names d) ->
  (video_path, base_output_dir, inp) ∈ Videos2Mp4.video_files input_dir d output_dir ->
  exists sub_dirs filename,
    Forall (fun c => c ∈ subdir_names d) sub_dirs /\
    filename ∈ file_names d /\ endswith filename ".avi" = true /\
    video_path = join_all input_dir (sub_dirs ++ [filename]) /\
    Videos2Mp4.output_dir_of cwd video_path base_output_dir inp
    = Ok (join_all output_dir sub_dirs).
Proof.
  intros Habs Hnames Hin. apply Forall_app in Hnames as [Hsubs Hfiles].
  unfold Videos2Mp4.video_files in Hin.
  apply list_elem_of_In, in_flat_map in Hin as ([[r dirs] files] & Hwalk & Hin).
  apply in_map_iff in Hin as (filename & E & Hfile).
  injection E as <- <- <-. apply filter_In in Hfile as [Hfile Havi].
  apply list_elem_of_In in Hwalk, Hfile.
  destruct (os_walk_roots _ _ _ _ _ Hwalk) as (sub_dirs & -> & Hs & Hf).
  rewrite Forall_forall in Hf. specialize (Hf _ Hfile).
  exists sub_dirs, filename. split; [done|]. split; [done|]. split; [done|].
  assert (Hpath : join (join_all input_dir sub_dirs) filename
                  = join_all input_dir (sub_dirs ++ [filename]))
    by (unfold join_all; by rewrite fold_left_app).
  split; [done|]. rewrite Hpath.
  assert (Hall : Forall (fun c => is_name c = true) (sub_dirs ++ [filename])).
  { rewrite Forall_forall in Hsubs, Hfiles, Hs. apply Forall_app. split.
    - apply Forall_forall. intros c Hc. by apply Hsubs, Hs.
    - repeat constructor. by apply Hfiles. }
  unfold Videos2Mp4.output_dir_of.
  destruct (sub_dirs ++ [filename]) as [|c l] eqn:E; [by destruct sub_dirs|].
  rewrite relpath_below by done. cbn [bind].
  rewrite split_str_join by (done || by apply names_no_sep).
  by rewrite <- E, removelast_last.
Qed.

(** ** The further theorems at work on the sample inputs *)





Lemma filter_time_and_pressure_data_idempotent_witness :
  let df' := {| columns := columns sample_pressures;
                rows := [[Str "12.5"; Str "12.5"; Str "kept"]] |} in
  filter_time_and_pressure_data sample_float_of_str df' false = Ok df' /\
  columns df' = columns sample_pressures /\
  sublist (rows df') (rows sample_pressures).
Proof.
  intros df'.
  apply (filter_time_and_pressure_data_idempotent sample_float_of_str
           sample_pressures df').
  by vm_compute.
Defined.

Lemma parse_log_file_header_without_name_witness :
  parse_log_file_to_dataframe (fun _ => None) (fun _ => NaT) string
    sample_strptime id sample_lines_unnamed
  = Raise IndexError.
Proof.
  apply (parse_log_file_header_without_name (fun _ => None) (fun _ => NaT) string
           sample_strptime id sample_lines_unnamed "#LOG").
  - unfold sample_lines_unnamed. apply elem_of_app. right. apply list_elem_of_here.
  - by vm_compute.
  - vm_compute. lia.
Defined.

Lemma parse_log_file_entry_too_long_witness :
  parse_log_file_to_dataframe (fun _ => None) (fun _ => NaT) string
    sample_strptime id sample_lines_long
  = Raise ValueError.
Proof.
  apply (parse_log_file_entry_too_long (fun _ => None) (fun _ => NaT) string
           sample_strptime id sample_lines_long
           ["loghost_system_utc"; "rov_position_lat"; "rov_position_lon";
            "rov_heading"; "rov_pitch"; "rov_roll"; "rov_altitude"; "rov_pressure";
            "rov_ctd_temperature"; "rov_ctd_salinity"; "rov_ctd_oxygen";
            "rov_ctd_light"; "ship_lat"; "ship_lon"; "ship_heading";
            "rov_ctd_pressure"]
           (sample_entry "2024" +:+ ", extra")).
  - by vm_compute.
  - by_evaluation.
  - by vm_compute.
  - vm_compute. lia.
Defined.

Lemma parse_log_file_missing_column_witness :
  parse_log_file_to_dataframe (fun _ => None) (fun _ => NaT) string
    sample_strptime id sample_lines_without_lat
  = Raise KeyError.
Proof.
  apply (parse_log_file_missing_column (fun _ => None) (fun _ => NaT) string
           sample_strptime id sample_lines_without_lat
           ["loghost_system_utc"; "rov_position_latitude"; "rov_position_lon";
            "rov_heading"; "rov_pitch"; "rov_roll"; "rov_altitude"; "rov_pressure";
            "rov_ctd_temperature"; "rov_ctd_salinity"; "rov_ctd_oxygen";
            "rov_ctd_light"; "ship_lat"; "ship_lon"; "ship_heading";
            "rov_ctd_pressure"]
           "rov_position_lat").
  - by vm_compute.
  - by_evaluation.
  - by_evaluation.
  - by_evaluation.
  - by_evaluation.
Defined.

Lemma change_column_idempotent_witness :
  let df' := rewritten "/new/" 0 sample_detections in
  change_column "/new/" df' = Ok df'.
Proof.
  intros df'.
  apply (change_column_idempotent "/new/" sample_detections df').
  by vm_compute.
Defined.

Lemma change_image_paths_second_run_witness :
  let run := change_image_paths DataFrame Ok id "/csv/" "/new/"
               (Ok ["c.csv"; "notes.txt"; "b.csv"]) in
  run (run sample_csv_files).1 = run sample_csv_files.
Proof.
  assert (Hok : forall f, f = "c.csv" \/ f = "b.csv" ->
            csv_ok DataFrame Ok sample_csv_files (join "/csv/" f) sample_detections 0).
  { intros f [-> | ->]; (split; [eexists; split; [by vm_compute|done]|]);
      (split; [done|]); repeat constructor; by eexists. }
  apply (change_image_paths_second_run (content := DataFrame) Ok id "/csv/" "/new/"
           sample_csv_files ["c.csv"; "notes.txt"; "b.csv"]).
  - done.
  - split; [by_evaluation|]. repeat constructor.
  - repeat constructor; intros H; try discriminate H;
      exists sample_detections, 0%nat; apply Hok; auto.
Defined.

Lemma main_loop_keeps_index_within_images_witness :
  let v := (main_loop 3 sample_events (viewer_start, [])).1 in
  0 <= index_actual_image v < 3 /\
  NoDup (images_to_delete v) /\
  Forall (fun index => 0 <= index < 3) (images_to_delete v).
Proof.
  apply (main_loop_keeps_index_within_images 3 sample_events []). lia.
Defined.

Lemma arrows_turn_through_the_images_witness :
  let press k st := handle_event 3 st (KEYDOWN k) in
  index_actual_image (press K_RIGHT (press K_LEFT (viewer_start, []))).1 = 0 /\
  index_actual_image (press K_LEFT (press K_RIGHT (viewer_start, []))).1 = 0 /\
  index_actual_image
    (fold_left (handle_event 3) (replicate (Z.to_nat 3) (KEYDOWN K_RIGHT))
       (viewer_start, [])).1
  = 0.
Proof.
  apply (arrows_turn_through_the_images 3 viewer_start []). cbn. lia.
Defined.

Lemma show_images_removes_only_listed_images_witness :
  exists fs' out,
    show_images nat nat Some "/review" sample_directory sample_events
      sample_review_files
    = Some (Ok (fs', out)) /\
    fs' ⊆ sample_review_files /\
    forall p, p ∉ get_all_images "/review" sample_directory ->
              fs' !! p = sample_review_files !! p.
Proof.
  destruct (show_images nat nat Some "/review" sample_directory sample_events
              sample_review_files) as [r|] eqn:Hshow; [|by vm_compute in Hshow].
  destruct (show_images_removes_only_listed_images (content := nat) (surface := nat)
              Some "/review" sample_directory sample_events sample_review_files r Hshow)
    as (fs' & out & -> & Hsub & Hother).
  by exists fs', out.
Defined.

Lemma show_images_deletes_by_position_witness :
  exists deleted displayed,
    get_all_images "/review" sample_directory !! 0%nat = Some deleted /\
    shown_paths nat nat Some sample_review_files
      (get_all_images "/review" sample_directory) !! 0%nat = Some displayed /\
    deleted = "/review/CFE_a_0001_12.5m.jpg" /\
    displayed = "/review/CFE_b_0002_13.0m.jpg".
Proof.
  destruct (show_images_deletes_by_position (content := nat) (surface := nat)
              Some "/review" sample_directory sample_review_files 0)
    as (deleted & displayed & Hdel & Hdis & _); [by_evaluation|vm_compute; lia|].
  exists deleted, displayed. split; [exact Hdel|]. split; [exact Hdis|].
  vm_compute in Hdel, Hdis. split; congruence.
Defined.

Lemma extract_frames_number_of_frames_witness :
  (extract_frames nat "/in/cast1.avi" "/frames" 10 sample_capture ∅).1.2
  = [ProcessingVideo "cast1"; OutputDirectory "/frames";
     ExtractionCompleted "cast1" 3] /\
  (extract_frames nat "/in/cast1.avi" "/frames" 10 sample_capture ∅).2 = Ok tt.
Proof.
  apply (extract_frames_number_of_frames (frame := nat)
           "/in/cast1.avi" "/frames" 10 sample_capture ∅); by vm_compute.
Defined.

Lemma extract_frames_keeps_every_sampled_frame_witness :
  let fs' := (extract_frames nat "/in/cast1.avi" "/frames" 10 sample_capture ∅).1.1 in
  (forall j fr, [10; 13; 16]%nat !! j = Some fr ->
     fs' !! join "/frames" (frame_name "cast1" j) = Some fr) /\
  (forall j j', frame_name "cast1" j = frame_name "cast1" j' -> j = j') /\
  (forall p,
     (forall j, (j < 3)%nat -> p <> join "/frames" (frame_name "cast1" j)) ->
     fs' !! p = (∅ : gmap string nat) !! p).
Proof.
  apply (extract_frames_keeps_every_sampled_frame (frame := nat)
           "/in/cast1.avi" "/frames" 10 sample_capture ∅); by vm_compute.
Defined.

Lemma convert_avi_to_mp4_partial_output_is_kept_witness :
  let convert := convert_avi_to_mp4 nat (fun _ => None) (fun _ => Some 0%nat)
                   "/in/cast1.avi" "/out" in
  (convert sample_videos).2 = Raise FfmpegError /\
  (convert sample_videos).1 = <["/out/cast1.mp4" := 0%nat]> sample_videos /\
  convert (convert sample_videos).1 = ((convert sample_videos).1, Ok "/out/cast1.mp4").
Proof.
  intros convert.
  destruct (convert_avi_to_mp4_partial_output_is_kept (content := nat)
              (fun _ => None) (fun _ => Some 0%nat) "/in/cast1.avi" "/out" sample_videos)
    as (_ & Hfail); [by vm_compute|].
  destruct Hfail as (Hraise & Hjunk & _); [by vm_compute|].
  destruct (Hjunk 0%nat eq_refl) as [Hfs Hagain].
  split; [exact Hraise|]. split; [exact Hfs|exact Hagain].
Defined.

Lemma decreasing_data_copies_every_tenth_file_witness :
  let csv_files := List.filter (fun file => endswith file ".csv")
                               (sample_listdir sample_csv_folder "/data/csv") in
  let chosen := multiples_of string 10 csv_files in
  length csv_files = 12%nat /\ length chosen = 2%nat /\
  exists fs' n,
    decreasing_data nat sample_listdir "/data/csv" "/data/reduced" sample_csv_folder
    = (fs',
       map (fun f => FileCopied f "/data/reduced") chosen
       ++ [CopyingCompleted; NumberOfCsvFiles n],
       None) /\
    Z.of_nat (length chosen) = (Z.of_nat (length csv_files) + 9) / 10 /\
    (forall f, f ∈ chosen ->
       fs' !! join "/data/reduced" f = sample_csv_folder !! join "/data/csv" f) /\
    (forall p, (forall f, f ∈ chosen -> p <> join "/data/reduced" f) ->
       fs' !! p = sample_csv_folder !! p).
Proof.
  intros csv_files chosen. split; [by vm_compute|]. split; [by vm_compute|].
  apply (decreasing_data_copies_every_tenth_file (content := nat)
           sample_listdir "/data/csv" "/data/reduced" sample_csv_folder).
  - by_evaluation.
  - assert (H : Forall (fun f => Forall (fun g => join "/data/reduced" f
                                                  <> join "/data/csv" g) csv_files)
                       csv_files) by by_evaluation.
    intros f g Hf Hg. rewrite Forall_forall in H. specialize (H f Hf).
    rewrite Forall_forall in H. by apply H.
Defined.

Lemma process_videos_mirrors_the_directories_witness :
  exists sub_dirs filename,
    Forall (fun c => c ∈ subdir_names sample_video_tree) sub_dirs /\
    filename ∈ file_names sample_video_tree /\ endswith filename ".avi" = true /\
    "//Volumes/RAW/day1/am/cast3.avi" = join_all "//Volumes/RAW/" (sub_dirs ++ [filename]) /\
    Videos2Mp4.output_dir_of "/home/isiis" "//Volumes/RAW/day1/am/cast3.avi"
      "/Volumes/MP4/" "//Volumes/RAW/"
    = Ok (join_all "/Volumes/MP4/" sub_dirs).
Proof.
  apply (process_videos_mirrors_the_directories
           "/home/isiis" "//Volumes/RAW/" "/Volumes/MP4/" sample_video_tree).
  - by vm_compute.
  - by_evaluation.
  - by_evaluation.
Defined.
